(** * Data pipeline of RETURNN's PyTorch backend

    A shallow embedding of [returnn/torch/data/pipeline.py]:
    [create_tensor], [collate_batch], [ChunkingIterDataPipe] and
    [BatchingIterDataPipe], together with the properties of chunking,
    batching and collation that the specification states about them.

    Python values are modelled as follows.
    - [int] is [Z]; lengths and indices that Python computes with [len] are
      [nat] and enter integer arithmetic through [Z.of_nat].
    - a [dict] is an association list in insertion order (Python dicts are
      ordered); [d[k]] is [dict_get], [d[k] = v] is [dict_set].
    - an exception is a constructor of [exn]; code that may raise returns a
      [result].
    - a generator is the list of the items it yields before it stops,
      together with the exception that stopped it, if any ([gen]).
    - an array is its shape and its elements as a nest of rows ([nested]).
      Floating point payloads are kept abstract ([float]). *)

From Stdlib Require Import List String Ascii ZArith Lia Bool Arith.
From Stdlib Require Import Decimal DecimalString DecimalNat.
Import ListNotations.

Set Implicit Arguments.

(* ------------------------------------------------------------------ *)
(** ** Exceptions and results *)

Inductive exn : Type :=
| AssertionError (msg : string)
| KeyError (key : string)
| ValueError
| TypeError
| IndexError
| AttributeError
| RuntimeError.

Inductive result (A : Type) : Type :=
| Ok (a : A)
| Raise (e : exn).

Arguments Ok {A} a.
Arguments Raise {A} e.

Definition bind {A B : Type} (r : result A) (f : A -> result B) : result B :=
  match r with
  | Ok a => f a
  | Raise e => Raise e
  end.

Notation "x <- r ;; k" := (bind r (fun x => k))
  (at level 61, r at next level, right associativity).

(** [assert cond, msg] *)
Definition py_assert (cond : bool) (msg : string) : result unit :=
  if cond then Ok tt else Raise (AssertionError msg).

(** A list comprehension whose element expression may raise: the first
    exception, in list order, wins. *)
Fixpoint mapM {A B : Type} (f : A -> result B) (l : list A) : result (list B) :=
  match l with
  | [] => Ok []
  | a :: l' => b <- f a ;; bs <- mapM f l' ;; Ok (b :: bs)
  end.

(** A generator run to its end: the items it yielded, in order, and the
    exception that ended it ([None]: it returned normally). *)
Definition gen (A : Type) : Type := (list A * option exn)%type.

(* ------------------------------------------------------------------ *)
(** ** Python dicts and lists *)

Section Dict.
Variable V : Type.

Definition dict : Type := list (string * V).

Definition keys (d : dict) : list string := map fst d.

Fixpoint dict_find (d : dict) (k : string) : option V :=
  match d with
  | [] => None
  | (k', v) :: d' => if String.eqb k' k then Some v else dict_find d' k
  end.

(** [k in d] *)
Definition dict_mem (d : dict) (k : string) : bool :=
  match dict_find d k with Some _ => true | None => false end.

(** [d[k]] *)
Definition dict_get (d : dict) (k : string) : result V :=
  match dict_find d k with
  | Some v => Ok v
  | None => Raise (KeyError k)
  end.

(** [d[k] = v]: an existing key keeps its position. *)
Fixpoint dict_set (d : dict) (k : string) (v : V) : dict :=
  match d with
  | [] => [(k, v)]
  | (k', v') :: d' =>
      if String.eqb k' k then (k, v) :: d' else (k', v') :: dict_set d' k v
  end.

(** [d.update(other)] *)
Definition dict_update (d other : dict) : dict :=
  fold_left (fun acc kv => dict_set acc (fst kv) (snd kv)) other d.
End Dict.

(** [l.remove(x)] on a list of strings: drops the first occurrence, raises
    [ValueError] when there is none. *)
Fixpoint list_remove (l : list string) (x : string) : result (list string) :=
  match l with
  | [] => Raise ValueError
  | y :: l' =>
      if String.eqb y x then Ok l'
      else l'' <- list_remove l' x ;; Ok (y :: l'')
  end.

(** [range(0, stop, step)] for [step > 0], unrolled as the loop it stands
    for: [i] is produced while [i < stop]. *)
Fixpoint range_from (fuel : nat) (i stop step : Z) : list Z :=
  match fuel with
  | O => []
  | S fuel' =>
      if (i <? stop)%Z then i :: range_from fuel' (i + step) stop step else []
  end.

(** [range(0, stop, step)]: a zero step raises [ValueError]; a negative step
    from 0 towards a non-negative [stop] is empty. *)
Definition py_range0 (stop step : Z) : result (list Z) :=
  if (step =? 0)%Z then Raise ValueError
  else if (step <? 0)%Z then Ok []
  else Ok (range_from (Z.to_nat stop) 0 stop step).

(** Bounds of the slice [x[lo:hi]] of a sequence of length [len]: a negative
    index counts from the end, and both are clamped to [0, len]. *)
Definition slice_index (len : nat) (i : Z) : nat :=
  let i' := if (i <? 0)%Z then (i + Z.of_nat len)%Z else i in
  Z.to_nat (Z.min (Z.max i' 0) (Z.of_nat len)).

Definition py_slice {A : Type} (l : list A) (lo hi : Z) : list A :=
  let a := slice_index (List.length l) lo in
  let b := slice_index (List.length l) hi in
  firstn (b - a) (skipn a l).

Definition str_slice (s : string) (lo hi : Z) : string :=
  let a := slice_index (String.length s) lo in
  let b := slice_index (String.length s) hi in
  String.substring a (b - a) s.

(* ------------------------------------------------------------------ *)
(** ** NumbersDict *)

(** Modelled from the spec: [returnn.util.basic.NumbersDict], which
    [pipeline.py] imports and which is not among the sources.  The
    specification describes it as a mapping from field to int with
    elementwise max, multiply and compare-any operations, where a single
    integer is applied to all fields and a field without an entry is
    unbounded.  It is modelled as a dict of numbers plus an optional
    broadcast value that stands for every key the dict does not list. *)
Module NumbersDict.

Record t : Type := mk { dict_ : dict Z; value : option Z }.

(** [NumbersDict(n)] for an int [n]. *)
Definition of_int (n : Z) : t := mk [] (Some n).

(** [NumbersDict(d)] for a dict [d]. *)
Definition of_dict (d : dict Z) : t := mk d None.

Definition keys (nd : t) : list string := keys (dict_ nd).

(** [nd.get(k, None)]: the entry, else the broadcast value. *)
Definition get (nd : t) (k : string) : option Z :=
  match dict_find (dict_ nd) k with
  | Some v => Some v
  | None => value nd
  end.

(** [nd[k]] *)
Definition getitem (nd : t) (k : string) : result Z :=
  match get nd k with
  | Some v => Ok v
  | None => Raise (KeyError k)
  end.

Definition values (nd : t) : list Z :=
  map snd (dict_ nd) ++ match value nd with Some v => [v] | None => [] end.

(** [nd.min_value()]: [min] of an empty sequence raises [ValueError]. *)
Definition min_value (nd : t) : result Z :=
  match values nd with
  | [] => Raise ValueError
  | v :: vs => Ok (fold_left Z.min vs v)
  end.

(** The optional-scalar lifting of a binary operation: a missing operand
    is dropped for [max] and is the neutral element for [*]. *)
Definition opt_max (a b : option Z) : option Z :=
  match a, b with
  | Some x, Some y => Some (Z.max x y)
  | Some x, None => Some x
  | None, Some y => Some y
  | None, None => None
  end.

Definition union_keys (a b : t) : list string :=
  keys a ++ filter (fun k => negb (dict_mem (dict_ a) k)) (keys b).

(** [NumbersDict.max([a, b])]: elementwise over the keys of either. *)
Definition max (a b : t) : t :=
  mk (flat_map (fun k => match opt_max (get a k) (get b k) with
                         | Some v => [(k, v)]
                         | None => []
                         end) (union_keys a b))
     (opt_max (value a) (value b)).

(** [nd * n] for an int [n]. *)
Definition mul (nd : t) (n : Z) : t :=
  mk (map (fun kv => (fst kv, (snd kv * n)%Z)) (dict_ nd))
     (option_map (fun v => (v * n)%Z) (value nd)).

(** [a.any_compare(b, cmp)]: some key of [a] compares true against [b]'s
    entry or broadcast value, or the two broadcast values do. *)
Definition any_compare (a b : t) (cmp : Z -> Z -> bool) : bool :=
  existsb (fun kv => match get b (fst kv) with
                     | Some bound => cmp (snd kv) bound
                     | None => false
                     end) (dict_ a)
  || match value a, value b with
     | Some x, Some y => cmp x y
     | _, _ => false
     end.

End NumbersDict.

(* ------------------------------------------------------------------ *)
(** ** Generators *)

(** [raise e] as the first thing a generator does. *)
Definition gen_raise {A : Type} (e : exn) : gen A := ([], Some e).

(** Evaluate [r]; an exception ends the generator, a value continues it. *)
Definition gen_try {A B : Type} (r : result B) (k : B -> gen A) : gen A :=
  match r with
  | Ok b => k b
  | Raise e => gen_raise e
  end.

(** Run [g], then [k] unless [g] ended with an exception. *)
Definition gen_then {A : Type} (g k : gen A) : gen A :=
  match snd g with
  | Some e => g
  | None => (fst g ++ fst k, snd k)
  end.

(** [sorted(l)] on strings, by insertion. *)
Fixpoint insert_sorted (x : string) (l : list string) : list string :=
  match l with
  | [] => [x]
  | y :: l' => if String.leb x y then x :: l else y :: insert_sorted x l'
  end.

Definition sorted (l : list string) : list string :=
  fold_right insert_sorted [] l.

Definition list_string_eqb (a b : list string) : bool :=
  if list_eq_dec string_dec a b then true else false.

Section Pipeline.

(** The payload of a floating point (or complex) number, and the value
    [0] in it. *)
Variable float : Type.
Variable float_zero : float.

(* ---------------------------------------------------------------- *)
(** ** Values *)

(** The dtypes PyTorch supports, as [create_tensor] lists them. *)
Inductive torch_dtype : Type :=
| float64 | float32 | float16 | complex64 | complex128
| int64 | int32 | int16 | int8 | uint8 | bool_.

(** An element of an array or tensor: an integer, a floating point (or
    complex) number, a boolean, or [NConv src tgt x], the number [x] of a
    tensor of dtype [src] as PyTorch converts it to the dtype [tgt] where
    the conversion involves floating point, whose arithmetic is kept
    abstract like the payload. *)
Inductive number : Type :=
| NInt (z : Z)
| NFloat (x : float)
| NBool (b : bool)
| NConv (src tgt : torch_dtype) (x : number).

(** The elements of an array: a 0-d array is one element, an array with
    axes is the list of its sub-arrays along the leading axis. *)
#[warnings="-register-all"]
Inductive nested : Type :=
| Elem (x : number)
| Rows (rs : list nested).

(** A numpy dtype: one PyTorch has, [uint32], or another one PyTorch
    lacks. *)
Inductive np_dtype : Type :=
| np_same (d : torch_dtype)
| np_uint32
| np_unsupported.

Record ndarray : Type :=
  mk_ndarray { dtype : np_dtype; shape : list nat; data : nested }.

Record Tensor : Type :=
  mk_Tensor { t_dtype : torch_dtype; size : list nat; t_data : nested }.

Inductive scalar : Type :=
| SInt (z : Z)
| SStr (s : string)
| SFloat (x : float)
| SBool (b : bool).

(** [InputType = Union[np.ndarray, int, str, float, bool]] *)
Inductive InputType : Type :=
| Array (a : ndarray)
| Plain (s : scalar).

(** [OutputType = Union[torch.Tensor, int, str, float, bool]] *)
Inductive OutputType : Type :=
| TensorV (t : Tensor)
| PlainV (s : scalar).

(** One item of a dataset: [Dict[str, InputType]]. *)
Definition record : Type := dict InputType.

(** [len(data)]: the leading extent of an array, the length of a string;
    [TypeError] for a 0-d array and for the other scalars. *)
Definition py_len (v : InputType) : result nat :=
  match v with
  | Array a => match shape a with
               | n :: _ => Ok n
               | [] => Raise TypeError
               end
  | Plain (SStr s) => Ok (String.length s)
  | Plain _ => Raise TypeError
  end.

(** [data[lo:hi]]: numpy slices the leading axis and keeps the others. *)
Definition py_getslice (v : InputType) (lo hi : Z) : result InputType :=
  match v with
  | Array a =>
      match shape a with
      | n :: trailing =>
          let lo' := slice_index n lo in
          let hi' := slice_index n hi in
          Ok (Array (mk_ndarray (dtype a) ((hi' - lo') :: trailing)
                       match data a with
                       | Rows rs => Rows (firstn (hi' - lo') (skipn lo' rs))
                       | Elem x => Elem x
                       end))
      | [] => Raise IndexError
      end
  | Plain (SStr s) => Ok (Plain (SStr (str_slice s lo hi)))
  | Plain _ => Raise TypeError
  end.

(* ---------------------------------------------------------------- *)
(** ** ChunkingIterDataPipe *)

(** One of chunk size and chunk step as the configuration gives it:
    [None], an int, or a dict data_key -> int. *)
Inductive size_spec : Type :=
| SpecNone
| SpecInt (n : Z)
| SpecDict (d : dict Z).

(** The [chunking] option: a single value, a pair (chunk_size, chunk_step),
    or a callable.  (A string [a:b] is the pair of ints it spells, a string
    [a] the int.) *)
Inductive chunking_spec : Type :=
| ChunkingOne (s : size_spec)
| ChunkingPair (size_ step_ : size_spec)
| ChunkingFunc.

Inductive parsed_chunking : Type :=
| Parsed (chunk_size chunk_step : NumbersDict.t)
| CustomFunc.

Definition min_value_positive (nd : NumbersDict.t) (msg : string) : result unit :=
  m <- NumbersDict.min_value nd ;;
  py_assert (0 <? m)%Z msg.

Definition parse_chunking (chunking : chunking_spec) : result parsed_chunking :=
  match chunking with
  | ChunkingFunc => Ok CustomFunc
  | _ =>
      let '(chunk_size, chunk_step) :=
        match chunking with
        | ChunkingPair a b => (a, b)
        | ChunkingOne a => (a, SpecNone)
        | ChunkingFunc => (SpecNone, SpecNone)
        end in
      let chunk_size :=
        match chunk_size with
        | SpecNone => NumbersDict.of_int 0
        | SpecInt n => NumbersDict.of_int n
        | SpecDict d => NumbersDict.of_dict d
        end in
      _ <- min_value_positive chunk_size "chunk size must not be negative" ;;
      let chunk_step :=
        match chunk_step with
        | SpecNone | SpecInt 0 => chunk_size
        | SpecInt n => NumbersDict.of_int n
        | SpecDict d => NumbersDict.of_dict d
        end in
      _ <- py_assert (list_string_eqb (sorted (NumbersDict.keys chunk_step))
                                      (sorted (NumbersDict.keys chunk_size)))
                     "" ;;
      _ <- min_value_positive chunk_step "chunking step must be positive" ;;
      Ok (Parsed chunk_size chunk_step)
  end.

Record ChunkingIterDataPipe : Type :=
  mk_chunking { _chunk_dataset : list record;
                _chunk_size : NumbersDict.t;
                _chunk_step : NumbersDict.t }.

(** [ChunkingIterDataPipe.__init__] *)
Definition ChunkingIterDataPipe_init (dataset : list record) (chunking : chunking_spec)
  : result ChunkingIterDataPipe :=
  p <- parse_chunking chunking ;;
  match p with
  | Parsed chunk_size chunk_step => Ok (mk_chunking dataset chunk_size chunk_step)
  | CustomFunc => Raise (AssertionError "Custom chunking function not supported")
  end.

(** The windows of one field:
    [[data[start : start + chunk_size] for start in range(0, len(data), chunk_step)]]. *)
Definition chunks_of (chunk_size chunk_step : Z) (data : InputType)
  : result (list InputType) :=
  n <- py_len data ;;
  starts <- py_range0 (Z.of_nat n) chunk_step ;;
  mapM (fun start_index => py_getslice data start_index (start_index + chunk_size)) starts.

Definition no_data_msg : string := "Dataset produced sequence without any data.".

(** The inferred chunking keys: all keys of the record but the two
    reserved ones. *)
Definition infer_chunking_data_keys (data_dict : record) : result (list string) :=
  ks <- list_remove (keys data_dict) "seq_tag" ;;
  ks <- list_remove ks "seq_idx" ;;
  _ <- py_assert (negb (Nat.eqb (List.length ks) 0)) no_data_msg ;;
  Ok ks.

(** The windows of the field [data_key] of a record, with the chunk size
    and step the pipe holds for it. *)
Definition field_chunks (self : ChunkingIterDataPipe) (data_dict : record)
    (data_key : string) : result (list InputType) :=
  chunk_size <- NumbersDict.getitem (_chunk_size self) data_key ;;
  chunk_step <- NumbersDict.getitem (_chunk_step self) data_key ;;
  data <- dict_get data_dict data_key ;;
  chunks_of chunk_size chunk_step data.

Definition chunks_differ_msg : string :=
  "Chunking resulted in different number of chunks for different data keys.".

(** The loop over [chunking_data_keys] for one record, with its two
    accumulators [data_chunks] and [num_chunks]. *)
Fixpoint chunk_fields (self : ChunkingIterDataPipe) (data_dict : record)
    (chunking_data_keys : list string)
    (data_chunks : dict (list InputType)) (num_chunks : option nat)
  : result (dict (list InputType) * option nat) :=
  match chunking_data_keys with
  | [] => Ok (data_chunks, num_chunks)
  | data_key :: rest =>
      chunks <- field_chunks self data_dict data_key ;;
      num_chunks' <-
        match num_chunks with
        | None => Ok (List.length chunks)
        | Some n =>
            _ <- py_assert (Nat.eqb n (List.length chunks)) chunks_differ_msg ;;
            Ok n
        end ;;
      chunk_fields self data_dict rest
        (dict_set data_chunks data_key chunks) (Some num_chunks')
  end.

(** [l[i]] *)
Definition list_index {A : Type} (l : list A) (i : nat) : result A :=
  match nth_error l i with
  | Some a => Ok a
  | None => Raise IndexError
  end.

(** The loop over [chunk_index]: one output record per index. *)
Fixpoint emit_chunks (data_dict : record) (data_chunks : dict (list InputType))
    (indices : list nat) : gen record :=
  match indices with
  | [] => ([], None)
  | chunk_index :: rest =>
      gen_try
        (mapM (fun kv => c <- list_index (snd kv) chunk_index ;; Ok (fst kv, c))
              data_chunks)
        (fun chunk_data =>
           let non_chunked_data :=
             filter (fun kv => negb (dict_mem chunk_data (fst kv))) data_dict in
           let chunk_data :=
             match non_chunked_data with
             | [] => chunk_data
             | _ => dict_update chunk_data non_chunked_data
             end in
           gen_then ([chunk_data], None) (emit_chunks data_dict data_chunks rest))
  end.

(** The chunking keys in force for a record: inferred from it when none
    are set yet. *)
Definition active_keys (chunking_data_keys : list string) (data_dict : record)
  : result (list string) :=
  match chunking_data_keys with
  | [] => infer_chunking_data_keys data_dict
  | _ :: _ => Ok chunking_data_keys
  end.

Definition no_chunk_msg : string := "Bug: no chunk produced from current sequence.".

(** The body of the loop over the dataset, for one record: the chunking
    keys in force afterwards and the records yielded. *)
Definition chunk_record (self : ChunkingIterDataPipe)
    (chunking_data_keys : list string) (data_dict : record)
  : result (list string * gen record) :=
  chunking_data_keys <- active_keys chunking_data_keys data_dict ;;
  r <- chunk_fields self data_dict chunking_data_keys [] None ;;
  let '(data_chunks, num_chunks) := r in
  match num_chunks with
  | Some (S n) =>
      Ok (chunking_data_keys, emit_chunks data_dict data_chunks (seq 0 (S n)))
  | _ => Raise (AssertionError no_chunk_msg)
  end.

Fixpoint chunking_loop (self : ChunkingIterDataPipe)
    (chunking_data_keys : list string) (dataset : list record) : gen record :=
  match dataset with
  | [] => ([], None)
  | data_dict :: rest =>
      gen_try (chunk_record self chunking_data_keys data_dict)
        (fun r => gen_then (snd r) (chunking_loop self (fst r) rest))
  end.

(** [ChunkingIterDataPipe.__iter__] *)
Definition ChunkingIterDataPipe_iter (self : ChunkingIterDataPipe) : gen record :=
  chunking_loop self (NumbersDict.keys (_chunk_size self)) (_chunk_dataset self).


(* ---------------------------------------------------------------- *)
(** ** BatchingIterDataPipe *)

(** [sys.maxsize] *)
Definition sys_maxsize : Z := 2 ^ 63 - 1.

Record BatchingIterDataPipe : Type :=
  mk_batching { _dataset : list record;
                _max_batch_size : NumbersDict.t;
                _max_seqs : Z;
                _drop_last : bool }.

(** [BatchingIterDataPipe.__init__]; [batch_size] is [None], an int or a
    dict, [max_seqs] is [None] or an int. *)
Definition BatchingIterDataPipe_init (dataset : list record)
    (batch_size : size_spec) (max_seqs : option Z) (drop_last : bool)
  : result BatchingIterDataPipe :=
  let max_batch_size :=
    match batch_size with
    | SpecNone => NumbersDict.of_int sys_maxsize
    | SpecInt n => NumbersDict.of_int n
    | SpecDict d => NumbersDict.of_dict d
    end in
  let max_seqs :=
    match max_seqs with
    | None => sys_maxsize
    | Some n => if (n =? -1)%Z then sys_maxsize else n
    end in
  _ <- min_value_positive max_batch_size "" ;;
  _ <- py_assert (0 <? max_seqs)%Z "" ;;
  Ok (mk_batching dataset max_batch_size max_seqs drop_last).

(** The length of one field value as the batcher counts it:
    [data.shape[0] if isinstance(data, np.ndarray) and len(data.shape) > 0 else 1]. *)
Definition seq_length (data_ : InputType) : Z :=
  match data_ with
  | Array a => match shape a with
               | n :: _ => Z.of_nat n
               | [] => 1
               end
  | Plain _ => 1
  end.

(** The dict comprehension over [data_dict.items()] (the keys of a dict are
    distinct, so it has one entry per item). *)
Definition sequence_lengths (data_dict : record) : NumbersDict.t :=
  NumbersDict.of_dict (map (fun kv => (fst kv, seq_length (snd kv))) data_dict).

(** The two local variables of [__iter__]. *)
Record batcher_state : Type :=
  mk_state { current_batch : list record;
             current_max_sequence_lengths : NumbersDict.t }.

Definition initial_state : batcher_state := mk_state [] (NumbersDict.of_int 0).

(** First statement of the loop body: a full batch is yielded. *)
Definition flush_if_full (self : BatchingIterDataPipe) (st : batcher_state)
  : list (list record) * batcher_state :=
  if (Z.of_nat (List.length (current_batch st)) =? _max_seqs self)%Z
  then ([current_batch st], initial_state)
  else ([], st).

Definition max_sequence_lengths_if_included (st : batcher_state) (data_dict : record)
  : NumbersDict.t :=
  NumbersDict.max (current_max_sequence_lengths st) (sequence_lengths data_dict).

Definition batch_size_if_included (st : batcher_state) (data_dict : record)
  : NumbersDict.t :=
  NumbersDict.mul (max_sequence_lengths_if_included st data_dict)
                  (Z.of_nat (List.length (current_batch st)) + 1).

(** Rest of the loop body: the record joins the current batch unless the
    padded size would exceed a limit, in which case the current batch is
    yielded and the record starts the next one. *)
Definition budget_step (self : BatchingIterDataPipe) (st : batcher_state)
    (data_dict : record) : list (list record) * batcher_state :=
  if negb (Nat.eqb (List.length (current_batch st)) 0)
     && NumbersDict.any_compare (batch_size_if_included st data_dict)
          (_max_batch_size self) Z.gtb
  then ([current_batch st], mk_state [data_dict] (sequence_lengths data_dict))
  else ([], mk_state (current_batch st ++ [data_dict])
                     (max_sequence_lengths_if_included st data_dict)).

Definition batcher_step (self : BatchingIterDataPipe) (st : batcher_state)
    (data_dict : record) : list (list record) * batcher_state :=
  let '(out1, st1) := flush_if_full self st in
  let '(out2, st2) := budget_step self st1 data_dict in
  (out1 ++ out2, st2).

(** The loop over the dataset: the batches yielded and the state at the
    end of the source. *)
Fixpoint batcher_loop (self : BatchingIterDataPipe) (st : batcher_state)
    (dataset : list record) : list (list record) * batcher_state :=
  match dataset with
  | [] => ([], st)
  | data_dict :: rest =>
      let '(out, st') := batcher_step self st data_dict in
      let '(outs, st'') := batcher_loop self st' rest in
      (out ++ outs, st'')
  end.

(** [BatchingIterDataPipe.__iter__]; nothing in it raises. *)
Definition BatchingIterDataPipe_iter (self : BatchingIterDataPipe)
  : list (list record) :=
  let '(out, st) := batcher_loop self initial_state (_dataset self) in
  if negb (Nat.eqb (List.length (current_batch st)) 0) && negb (_drop_last self)
  then out ++ [current_batch st]
  else out.

(* ---------------------------------------------------------------- *)
(** ** create_tensor and collate_batch *)

(** [torch.tensor(value)] keeps shape and elements; numpy's [uint32] has
    been widened to [int64] before, and a dtype PyTorch lacks is a
    [TypeError]. *)
Definition create_tensor (value_ : InputType) : result OutputType :=
  match value_ with
  | Plain s => Ok (PlainV s)
  | Array a =>
      match dtype a with
      | np_uint32 => Ok (TensorV (mk_Tensor int64 (shape a) (data a)))
      | np_same d => Ok (TensorV (mk_Tensor d (shape a) (data a)))
      | np_unsupported => Raise TypeError
      end
  end.

(** The value [0] in a dtype. *)
Definition zero_of (d : torch_dtype) : number :=
  match d with
  | float64 | float32 | float16 | complex64 | complex128 => NFloat float_zero
  | bool_ => NBool false
  | int64 | int32 | int16 | int8 | uint8 => NInt 0
  end.

(** [torch.full(dims, x)] *)
Fixpoint full (dims : list nat) (x : number) : nested :=
  match dims with
  | [] => Elem x
  | n :: dims' => Rows (repeat (full dims' x) n)
  end.

Fixpoint mapO {A B : Type} (f : A -> option B) (l : list A) : option (list B) :=
  match l with
  | [] => Some []
  | a :: l' =>
      match f a, mapO f l' with
      | Some b, Some bs => Some (b :: bs)
      | _, _ => None
      end
  end.

(** Broadcasting of elements of shape [src] to the shape [tgt] of no
    smaller rank, aligned at the last axis: an extent of 1 is repeated,
    a missing leading axis is added, any other mismatch fails. *)
Fixpoint expand (tgt src : list nat) (b : nested) : option nested :=
  match tgt with
  | [] => match src with
          | [] => Some b
          | _ :: _ => None
          end
  | t :: tgt' =>
      if Nat.ltb (List.length src) (List.length tgt) then
        option_map (fun b' => Rows (repeat b' t)) (expand tgt' src b)
      else
        match src, b with
        | s :: src', Rows rs =>
            if Nat.eqb s t then option_map Rows (mapO (expand tgt' src') rs)
            else if Nat.eqb s 1 then
              match rs with
              | [r] => option_map (fun b' => Rows (repeat b' t)) (expand tgt' src' r)
              | _ => None
              end
            else None
        | _, _ => None
        end
  end.

Definition torch_dtype_eq_dec (a b : torch_dtype) : {a = b} + {a <> b}.
Proof. decide equality. Defined.

(** The integer dtypes: their number of bits, and whether they are
    signed. *)
Definition int_bits (d : torch_dtype) : option (Z * bool) :=
  match d with
  | int64 => Some (64%Z, true)
  | int32 => Some (32%Z, true)
  | int16 => Some (16%Z, true)
  | int8 => Some (8%Z, true)
  | uint8 => Some (8%Z, false)
  | _ => None
  end.

(** The integer [z] in an integer dtype of [bits] bits: the value modulo
    [2^bits], taken from the signed range for a signed dtype. *)
Definition wrap (bits : Z) (signed : bool) (z : Z) : Z :=
  if signed then ((z + 2 ^ (bits - 1)) mod 2 ^ bits - 2 ^ (bits - 1))%Z
  else (z mod 2 ^ bits)%Z.

(** PyTorch's conversion of an element of a tensor of dtype [src] to the
    dtype [tgt]: between integer dtypes the value wraps around, an integer
    becomes a boolean by comparison with 0 and a boolean becomes 0 or 1;
    conversions from and to floating point and complex dtypes are not
    evaluated. *)
Definition convert (src tgt : torch_dtype) (x : number) : number :=
  match x with
  | NInt z =>
      match int_bits src, int_bits tgt, tgt with
      | Some _, Some (bits, signed), _ => NInt (wrap bits signed z)
      | Some _, None, bool_ => NBool (negb (z =? 0)%Z)
      | _, _, _ => NConv src tgt x
      end
  | NBool b =>
      match src, int_bits tgt with
      | bool_, Some _ => NInt (if b then 1%Z else 0%Z)
      | _, _ => NConv src tgt x
      end
  | _ => NConv src tgt x
  end.

Fixpoint map_nested (f : number -> number) (b : nested) : nested :=
  match b with
  | Elem x => Elem (f x)
  | Rows rs => Rows (map (map_nested f) rs)
  end.

(** The elements of a tensor of dtype [src] in the dtype [tgt]: as they
    are for the same dtype, converted one by one otherwise. *)
Definition to_dtype (src tgt : torch_dtype) (b : nested) : nested :=
  if torch_dtype_eq_dec src tgt then b else map_nested (convert src tgt) b.

(** [torch.promote_types(a, b)], after PyTorch's table: a boolean gives way
    to everything, integers to floating point, floating point to complex;
    [uint8] with [int8] is [int16], and [float64] with [complex64] is
    [complex128]. *)
Definition promote_types (a b : torch_dtype) : torch_dtype :=
  match a, b with
  | bool_, d | d, bool_ => d
  | complex128, _ | _, complex128 => complex128
  | complex64, float64 | float64, complex64 => complex128
  | complex64, _ | _, complex64 => complex64
  | float64, _ | _, float64 => float64
  | float32, _ | _, float32 => float32
  | float16, _ | _, float16 => float16
  | int64, _ | _, int64 => int64
  | int32, _ | _, int32 => int32
  | int16, _ | _, int16 => int16
  | uint8, int8 | int8, uint8 => int16
  | uint8, uint8 => uint8
  | int8, int8 => int8
  end.

(** [target.copy_(src)] for a target of dtype [target_dtype] and shape
    [target_size], as the elements written: those of [src], converted to
    the dtype of the target, as they are when the shapes agree, broadcast
    otherwise, [RuntimeError] when they cannot be broadcast. *)
Definition copy_ (target_dtype : torch_dtype) (target_size : list nat) (src : Tensor)
  : result nested :=
  let elements_ := to_dtype (t_dtype src) target_dtype (t_data src) in
  if list_eq_dec Nat.eq_dec (size src) target_size then Ok elements_
  else if Nat.ltb (List.length target_size) (List.length (size src)) then Raise RuntimeError
  else match expand target_size (size src) elements_ with
       | Some b => Ok b
       | None => Raise RuntimeError
       end.

Definition as_tensor (v : OutputType) : result Tensor :=
  match v with
  | TensorV t => Ok t
  | PlainV _ => Raise TypeError
  end.

(** [t.size(0)] *)
Definition size0 (t : Tensor) : result nat :=
  match size t with
  | n :: _ => Ok n
  | [] => Raise IndexError
  end.

(** One row of the output of [pad_sequence], which has the dtype [d]: the
    sequence copied to the front of a row of [max_len] blocks filled with
    the padding value. *)
Definition padded_row (d : torch_dtype) (pad : number) (max_len : nat)
    (trailing_dims : list nat) (t : Tensor) : result nested :=
  length_i <- size0 t ;;
  b <- copy_ d (length_i :: trailing_dims) t ;;
  match b with
  | Rows rs => Ok (Rows (rs ++ repeat (full trailing_dims pad) (max_len - length_i)))
  | Elem _ => Raise RuntimeError
  end.

(** [torch.nn.utils.rnn.pad_sequence(sequences, batch_first=True, padding_value=0)]
    (PyTorch, not part of this repository), after its implementation: the
    output has the dtype and the trailing extents of the first sequence
    and the largest leading extent; it is filled with the padding value and
    sequence [i] is copied to [out[i, :length_i]], which converts it to
    the dtype of the output. *)
Definition pad_sequence (sequences : list OutputType) : result Tensor :=
  ts <- mapM as_tensor sequences ;;
  match ts with
  | [] => Raise RuntimeError
  | t0 :: _ =>
      match size t0 with
      | [] => Raise IndexError
      | _ :: trailing_dims =>
          lens <- mapM size0 ts ;;
          let max_len := list_max lens in
          rows <- mapM (padded_row (t_dtype t0) (zero_of (t_dtype t0))
                          max_len trailing_dims) ts ;;
          Ok (mk_Tensor (t_dtype t0)
                (List.length ts :: max_len :: trailing_dims) (Rows rows))
      end
  end.

(** [torch.stack(tensors)]: all of one shape, joined along a new leading
    axis, in the dtype the dtypes of the tensors promote to, taken in
    order. *)
Definition stack (tensors : list OutputType) : result Tensor :=
  ts <- mapM as_tensor tensors ;;
  match ts with
  | [] => Raise RuntimeError
  | t0 :: rest =>
      if forallb (fun t => if list_eq_dec Nat.eq_dec (size t) (size t0)
                           then true else false) ts
      then
        let d := fold_left promote_types (map t_dtype rest) (t_dtype t0) in
        Ok (mk_Tensor d (List.length ts :: size t0)
              (Rows (map (fun t => to_dtype (t_dtype t) d (t_data t)) ts)))
      else Raise RuntimeError
  end.

(** [torch.tensor(l)] for a list of ints and [torch.tensor(n)] for an int. *)
Definition tensor_of_ints (l : list nat) : Tensor :=
  mk_Tensor int64 [List.length l] (Rows (map (fun n => Elem (NInt (Z.of_nat n))) l)).

Definition tensor_of_int (n : nat) : Tensor :=
  mk_Tensor int64 [] (Elem (NInt (Z.of_nat n))).

(** [str(n)] in decimal, as [%i] prints a non-negative int. *)
Definition string_of_nat (n : nat) : string :=
  NilEmpty.string_of_uint (Nat.to_uint n).

(** ["%s:size%i" % (key, i)] *)
Definition size_key (key : string) (i : nat) : string :=
  (key ++ ":size" ++ string_of_nat i)%string.

(** What a collated batch maps a key to: a tensor, or the list of the
    samples' values where these are no tensors. *)
Inductive collated : Type :=
| CTensor (t : Tensor)
| CList (l : list OutputType).

(** [v.shape[i]] *)
Definition shape_at (v : OutputType) (i : nat) : result nat :=
  match v with
  | TensorV t => list_index (size t) i
  | PlainV _ => Raise AttributeError
  end.

(** The loop over the axes, which sets the [size] entries of a key. *)
Fixpoint set_sizes (res : dict collated) (key : string) (ls : list OutputType)
    (axes : list nat) : result (dict collated) :=
  match axes with
  | [] => Ok res
  | i :: rest =>
      sizes <- mapM (fun v => shape_at v i) ls ;;
      set_sizes (dict_set res (size_key key (i + 1)) (CTensor (tensor_of_ints sizes)))
                key ls rest
  end.

(** The body of the loop over [data_keys]. *)
Definition collate_key (batch : list record) (res : dict collated) (key : string)
  : result (dict collated) :=
  ls <- mapM (fun sample => v <- dict_get sample key ;; create_tensor v) batch ;;
  match ls with
  | [] => Raise IndexError
  | PlainV _ :: _ => Ok (dict_set res key (CList ls))
  | TensorV t0 :: _ =>
      let num_axis := List.length (size t0) in
      r <- (if Nat.ltb 0 num_axis then
              padded <- pad_sequence ls ;;
              res <- set_sizes res key ls (seq 0 num_axis) ;;
              Ok (padded, res)
            else
              padded <- stack ls ;;
              Ok (padded, res)) ;;
      let '(padded, res) := r in
      let res := dict_set res key (CTensor padded) in
      Ok (dict_set res (size_key key 0) (CTensor (tensor_of_int (List.length ls))))
  end.

Fixpoint collate_keys (batch : list record) (res : dict collated)
    (data_keys : list string) : result (dict collated) :=
  match data_keys with
  | [] => Ok res
  | key :: rest =>
      res <- collate_key batch res key ;;
      collate_keys batch res rest
  end.

(** [collate_batch]; moving a tensor to the device leaves its value as it
    is. *)
Definition collate_batch (batch : list record) : result (dict collated) :=
  match batch with
  | [] => Raise (AssertionError "batch is empty?")
  | first :: _ => collate_keys batch [] (keys first)
  end.

(* ---------------------------------------------------------------- *)
(** ** Vocabulary of the properties *)

(** *** Chunking *)

(** The number of windows of a sequence of length [L] for a step. *)
Definition num_windows (L : nat) (step : Z) : nat :=
  Z.to_nat (1 + (Z.of_nat L - 1) / step).

(** Every key but the two reserved ones. *)
Definition unreserved_keys (data_dict : record) : list string :=
  filter (fun k => negb (String.eqb k "seq_tag") && negb (String.eqb k "seq_idx"))
         (keys data_dict).

(** *** Batching *)

(** The length the batcher counts for a field of a record; a record
    without the field counts 0. *)
Definition field_length (data_dict : record) (field : string) : Z :=
  match dict_find data_dict field with
  | Some v => seq_length v
  | None => 0%Z
  end.

(** The largest length of a field among the records of a batch. *)
Definition max_length_in_batch (field : string) (batch : list record) : Z :=
  fold_right (fun r m => Z.max (field_length r field) m) 0%Z batch.

(** The running maximum the batcher holds for a field. *)
Definition current_length (st : batcher_state) (field : string) : Z :=
  match NumbersDict.get (current_max_sequence_lengths st) field with
  | Some m => m
  | None => 0%Z
  end.

(** The padded size of a field if the record joined the current batch. *)
Definition candidate_cost (st : batcher_state) (data_dict : record)
    (field : string) : Z :=
  (Z.max (max_length_in_batch field (current_batch st)) (field_length data_dict field)
   * (Z.of_nat (List.length (current_batch st)) + 1))%Z.

(** The budget bound of a batch. *)
Definition within_budget (self : BatchingIterDataPipe) (batch : list record) : Prop :=
  forall f b, NumbersDict.get (_max_batch_size self) f = Some b ->
              (max_length_in_batch f batch * Z.of_nat (List.length batch) <= b)%Z.

(** The invariant of the loop of [__iter__]. *)
Record invariant (self : BatchingIterDataPipe) (st : batcher_state) : Prop :=
  { inv_lengths : forall f,
      current_length st f = max_length_in_batch f (current_batch st);
    inv_value :
      NumbersDict.value (current_max_sequence_lengths st) = None
      \/ NumbersDict.value (current_max_sequence_lengths st) = Some 0%Z;
    inv_budget :
      (2 <= List.length (current_batch st))%nat -> within_budget self (current_batch st) }.

(** A batch the batcher may yield. *)
Definition good_batch (self : BatchingIterDataPipe) (batch : list record) : Prop :=
  (2 <= List.length batch)%nat -> within_budget self batch.

(** The limits [__init__] stores for its arguments. *)
Definition seqs_of (max_seqs : option Z) : Z :=
  match max_seqs with
  | None => sys_maxsize
  | Some n => if (n =? -1)%Z then sys_maxsize else n
  end.

Definition limits_of (batch_size : size_spec) : NumbersDict.t :=
  match batch_size with
  | SpecNone => NumbersDict.of_int sys_maxsize
  | SpecInt n => NumbersDict.of_int n
  | SpecDict d => NumbersDict.of_dict d
  end.

(** *** Collation *)

(** The characters [%i] prints. *)
Definition is_digit (c : ascii) : bool :=
  (48 <=? nat_of_ascii c)%nat && (nat_of_ascii c <=? 57)%nat.

(** Field names without a colon do not collide with derived names. *)
Fixpoint colon_free (s : string) : bool :=
  match s with
  | EmptyString => true
  | String c s' => negb (Ascii.eqb c ":") && colon_free s'
  end.

(** The leading extent of a field of a record (0 when the field is no
    array with an axis). *)
Definition leading_extent (field : string) (r : record) : nat :=
  match dict_find r field with
  | Some (Array a) => hd 0%nat (shape a)
  | _ => 0%nat
  end.

(** No field name is the derived name [<k>:size<i>] of a field. *)
Definition no_collision (ks : list string) : Prop :=
  forall k k' i, In k ks -> In k' ks -> k <> size_key k' i.

(** What the loop over the samples computes for a key. *)
Definition tensors_of (batch : list record) (key : string)
  : result (list OutputType) :=
  mapM (fun sample => v <- dict_get sample key ;; create_tensor v) batch.

(** The PyTorch dtype [create_tensor] gives an array. *)
Definition to_torch (d : np_dtype) : option torch_dtype :=
  match d with
  | np_same d' => Some d'
  | np_uint32 => Some int64
  | np_unsupported => None
  end.

(** An array that [pad_sequence] takes next to a first one with the
    trailing extents [trailing]: same trailing extents, and as many rows
    as its leading extent says. *)
Definition paddable (trailing : list nat) (v : InputType) : bool :=
  match v with
  | Array a =>
      match to_torch (dtype a), shape a, data a with
      | Some _, n :: tr, Rows rs =>
          (if list_eq_dec Nat.eq_dec tr trailing then true else false)
          && Nat.eqb (List.length rs) n
      | _, _, _ => false
      end
  | Plain _ => false
  end.

(** A 0-d array. *)
Definition stackable (v : InputType) : bool :=
  match v with
  | Array a =>
      match to_torch (dtype a), shape a with
      | Some _, [] => true
      | _, _ => false
      end
  | Plain _ => false
  end.

(** A value [create_tensor] accepts. *)
Definition creatable (v : InputType) : bool :=
  match v with
  | Array a => match to_torch (dtype a) with Some _ => true | None => false end
  | Plain _ => true
  end.

(** Every record of the batch has the key, with a value of the kind [p]. *)
Definition all_have (key : string) (p : InputType -> bool)
    (batch : list record) : bool :=
  forallb (fun r => match dict_find r key with
                    | Some v => p v
                    | None => false
                    end) batch.

(** The values of [key] in the batch are of one kind, that of the first
    record: plain values, 0-d arrays, or arrays with the same trailing
    extents. *)
Definition collatable_field (batch : list record) (key : string) : bool :=
  match batch with
  | [] => false
  | first :: _ =>
      match dict_find first key with
      | None => false
      | Some (Plain _) => all_have key creatable batch
      | Some (Array a0) =>
          match shape a0 with
          | [] => all_have key stackable batch
          | _ :: trailing => all_have key (paddable trailing) batch
          end
      end
  end.

(** The tensor [create_tensor] makes of the field of a record. *)
Definition field_tensor (field : string) (r : record) : Tensor :=
  match dict_find r field with
  | Some (Array a) =>
      mk_Tensor match to_torch (dtype a) with Some d => d | None => int64 end
                (shape a) (data a)
  | _ => mk_Tensor int64 [] (Elem (NInt 0))
  end.

(** The rows of the field of a record along its leading axis. *)
Definition rows_of (field : string) (r : record) : list nested :=
  match t_data (field_tensor field r) with
  | Rows rs => rs
  | Elem _ => []
  end.

(** The row of the padded tensor of dtype [d0] for one record: its rows in
    that dtype, then blocks of the padding value. *)
Definition padded_rows (d0 : torch_dtype) (pad : number) (max_len : nat)
    (trailing : list nat) (field : string) (r : record) : list nested :=
  map (to_dtype (t_dtype (field_tensor field r)) d0) (rows_of field r)
  ++ repeat (full trailing pad) (max_len - leading_extent field r).

(** All numbers in a nest of rows. *)
Fixpoint elements (b : nested) : list number :=
  match b with
  | Elem x => [x]
  | Rows rs => flat_map elements rs
  end.

(** *** Further vocabulary *)

(** The rows of an array along its leading axis. *)
Definition array_rows (v : InputType) : list nested :=
  match v with
  | Array a => match data a with
               | Rows rs => rs
               | Elem _ => []
               end
  | Plain _ => []
  end.

(** The [size_] rows of an array from row [start] on, as an array:
    numpy's [a[start : start + size_]] for a start within the array. *)
Definition window (a : ndarray) (trailing : list nat) (rs : list nested)
    (size_ start : nat) : InputType :=
  Array (mk_ndarray (dtype a)
           (List.length (firstn size_ (skipn start rs)) :: trailing)
           (Rows (firstn size_ (skipn start rs)))).

(** An array whose leading extent is the number of its rows. *)
Definition rows_agree (a : ndarray) (trailing : list nat) (rs : list nested) : Prop :=
  shape a = List.length rs :: trailing /\ data a = Rows rs.

(** The extent of the field of a record along axis [i]. *)
Definition extent_at (field : string) (i : nat) (r : record) : nat :=
  match dict_find r field with
  | Some (Array a) => nth i (shape a) 0%nat
  | _ => 0%nat
  end.

(** The chunk sizes [_parse_chunking] makes of the first component of
    [chunking]. *)
Definition sizes_of (chunk_size : size_spec) : NumbersDict.t :=
  match chunk_size with
  | SpecNone => NumbersDict.of_int 0
  | SpecInt n => NumbersDict.of_int n
  | SpecDict d => NumbersDict.of_dict d
  end.

(** A record without the fields whose names are not in [ks]. *)
Definition restrict (ks : list string) (r : record) : record :=
  filter (fun kv => if in_dec string_dec (fst kv) ks then true else false) r.

End Pipeline.

Arguments NInt {float} z.
Arguments NBool {float} b.
Arguments NConv {float} src tgt x.
Arguments SInt {float} z.
Arguments SStr {float} s.
Arguments SBool {float} b.
Arguments initial_state {float}.
Arguments tensor_of_ints {float} l.
Arguments tensor_of_int {float} n.
Arguments paddable {float} trailing v.
Arguments stackable {float} v.
Arguments creatable {float} v.

(* ------------------------------------------------------------------ *)
(** ** Example data *)

(** The examples use integer arrays; the floating point payload is not
    needed. *)
Module Examples.

Open Scope string_scope.

(** A 1-d [int64] array. *)
Definition vector (l : list Z) : InputType unit :=
  Array (mk_ndarray (np_same int64) [List.length l] (Rows (map (fun z => Elem (NInt z)) l))).

(** A 2-d [int64] array with one row. *)
Definition one_row (l : list Z) : InputType unit :=
  Array (mk_ndarray (np_same int64) [1%nat; List.length l]
           (Rows [Rows (map (fun z => Elem (NInt z)) l)])).

Definition x3 : record unit := [("x", vector [1; 2; 3]%Z)].
Definition x2 : record unit := [("x", vector [1; 2]%Z)].
Definition x0 : record unit := [("x", vector [])].
Definition x7 : record unit := [("x", vector [0; 1; 2; 3; 4; 5; 6]%Z)].
Definition x7_y4 : record unit :=
  [("x", vector [0; 1; 2; 3; 4; 5; 6]%Z); ("y", vector [0; 1; 2; 3]%Z)].
Definition only_reserved : record unit :=
  [("seq_tag", Plain (SStr "seq-0")); ("seq_idx", Plain (SInt 0))].
Definition no_seq_idx : record unit :=
  [("x", vector [0; 1; 2; 3; 4; 5; 6]%Z); ("seq_tag", Plain (SStr "seq-0"))].
Definition wide2 : record unit := [("x", one_row [1; 2]%Z)].
Definition wide3 : record unit := [("x", one_row [1; 2; 3]%Z)].

(** An [int8] array next to an [int64] array with an element beyond the
    range of [int8]. *)
Definition x_int8 : record unit :=
  [("x", Array (mk_ndarray (np_same int8) [3%nat]
                  (Rows [Elem (NInt 1%Z); Elem (NInt 2%Z); Elem (NInt 3%Z)])))].
Definition x_300 : record unit := [("x", vector [300; 4]%Z)].

(** Records in which a field bears the derived name of another one. *)
Definition x_then_size1 : record unit :=
  [("x", vector [1; 2]%Z); ("x:size1", vector [9]%Z)].
Definition size1_then_y : record unit :=
  [("y:size1", vector [7; 8]%Z); ("y", vector [1; 2; 3]%Z)].

(** What [collate_batch] makes of the batch [[x3; x2]]. *)
Definition collated_x3_x2 : dict (collated unit) :=
  [("x:size1", CTensor (tensor_of_ints [3; 2]%nat));
   ("x", CTensor (mk_Tensor int64 [2; 3]%nat
                    (Rows [Rows [Elem (NInt 1%Z); Elem (NInt 2%Z); Elem (NInt 3%Z)];
                           Rows [Elem (NInt 1%Z); Elem (NInt 2%Z); Elem (NInt 0%Z)]])));
   ("x:size0", CTensor (tensor_of_int 2))].

(** The rows of a 1-d [int64] array, and the array itself. *)
Definition ints (l : list Z) : list (nested unit) :=
  map (fun z => Elem (NInt z)) l.

Definition vec (l : list Z) : ndarray unit :=
  mk_ndarray (np_same int64) [List.length l] (Rows (ints l)).

(** What the chunker with the size and step 4 for [x] yields for
    [no_seq_idx]. *)
Definition no_seq_idx_chunks : gen (record unit) :=
  ([[("x", vector [0; 1; 2; 3]%Z); ("seq_tag", Plain (SStr "seq-0"))];
    [("x", vector [4; 5; 6]%Z); ("seq_tag", Plain (SStr "seq-0"))]],
   None).

(** The number of windows of the field [x] of a record for the step 3. *)
Definition x_windows (r : record unit) : nat :=
  match dict_find r "x" with
  | Some v => match py_len v with
              | Ok L => num_windows L 3
              | Raise _ => 0%nat
              end
  | None => 0%nat
  end.

(** What [collate_batch] makes of two records without arrays. *)
Definition collated_reserved : dict (collated unit) :=
  [("seq_tag", CList [PlainV (SStr "seq-0"); PlainV (SStr "seq-0")]);
   ("seq_idx", CList [PlainV (SInt 0); PlainV (SInt 0)])].

(** A 0-d integer array, a record with an [int8] one and a record with an
    [int64] one, and what [collate_batch] makes of the two. *)
Definition zero_dim (d : torch_dtype) (z : Z) : ndarray unit :=
  mk_ndarray (np_same d) [] (Elem (NInt z)).

Definition n5 : record unit := [("n", Array (zero_dim int8 5))].
Definition n7 : record unit := [("n", Array (zero_dim int64 7))].

Definition collated_n5_n7 : dict (collated unit) :=
  [("n", CTensor (mk_Tensor int64 [2%nat] (Rows [Elem (NInt 5%Z); Elem (NInt 7%Z)])));
   ("n:size0", CTensor (tensor_of_int 2))].

(** What [collate_batch] makes of the batch [[wide2; wide2]]. *)
Definition collated_wide2_wide2 : dict (collated unit) :=
  [("x:size1", CTensor (tensor_of_ints [1; 1]%nat));
   ("x:size2", CTensor (tensor_of_ints [2; 2]%nat));
   ("x", CTensor (mk_Tensor int64 [2; 1; 2]%nat
                    (Rows [Rows [Rows [Elem (NInt 1%Z); Elem (NInt 2%Z)]];
                           Rows [Rows [Elem (NInt 1%Z); Elem (NInt 2%Z)]]])));
   ("x:size0", CTensor (tensor_of_int 2))].

Definition chunker (dataset : list (record unit)) (nd : NumbersDict.t)
  : ChunkingIterDataPipe unit :=
  mk_chunking dataset nd nd.

Definition batcher (dataset : list (record unit)) (limits : NumbersDict.t)
    (drop_last : bool) : BatchingIterDataPipe unit :=
  mk_batching dataset limits 10 drop_last.

End Examples.

Unset Implicit Arguments.

(* ------------------------------------------------------------------ *)
(** * Properties *)

(** ** Generic facts *)

Lemma bind_Ok {A B : Type} (r : result A) (f : A -> result B) (b : B) :
  bind r f = Ok b -> exists a, r = Ok a /\ f a = Ok b.
Proof.
  destruct r as [a|e]; simpl; intros H; [eauto | discriminate].
Qed.

Ltac inv_bind H :=
  let a := fresh "a" in
  let Ha := fresh "Ha" in
  apply bind_Ok in H; destruct H as (a & Ha & H).

Lemma mapM_Forall2 {A B : Type} (f : A -> result B) (l : list A) (bs : list B) :
  mapM f l = Ok bs -> Forall2 (fun a b => f a = Ok b) l bs.
Proof.
  revert bs; induction l as [|a l IH]; simpl; intros bs H.
  - injection H as <-. constructor.
  - inv_bind H. inv_bind H. injection H as <-. constructor; auto.
Qed.

Lemma mapM_total {A B : Type} (f : A -> result B) (g : A -> B) (l : list A) :
  (forall a, In a l -> f a = Ok (g a)) -> mapM f l = Ok (map g l).
Proof.
  induction l as [|a l IH]; simpl; intros H; [reflexivity|].
  rewrite (H a (or_introl eq_refl)); simpl.
  rewrite IH by auto. reflexivity.
Qed.

Lemma mapM_length {A B : Type} (f : A -> result B) (l : list A) (bs : list B) :
  mapM f l = Ok bs -> List.length bs = List.length l.
Proof.
  intros H. apply mapM_Forall2 in H. symmetry. eapply Forall2_length; eauto.
Qed.

Lemma Forall2_nth_error {A B : Type} (R : A -> B -> Prop) (l : list A) (l' : list B) :
  Forall2 R l l' ->
  forall (k : nat) (a : A) (b : B),
    nth_error l k = Some a -> nth_error l' k = Some b -> R a b.
Proof.
  induction 1 as [|x y l l' Hxy _ IH]; intros [|k] a b Ha Hb;
    simpl in *; try discriminate.
  - injection Ha as <-. injection Hb as <-. exact Hxy.
  - eapply IH; eauto.
Qed.

(** ** [range] *)

Lemma range_from_spec (step : Z) (n : nat) :
  forall (fuel : nat) (i stop : Z),
    (0 < step)%Z ->
    (stop <= i + Z.of_nat n * step)%Z ->
    (n = 0%nat \/ i + (Z.of_nat n - 1) * step < stop)%Z ->
    (n <= fuel)%nat ->
    range_from fuel i stop step
    = map (fun k => (i + Z.of_nat k * step)%Z) (seq 0 n).
Proof.
  induction n as [|n IH]; intros fuel i stop Hstep Hhi Hlo Hfuel.
  - simpl. destruct fuel; simpl; [reflexivity|].
    destruct (Z.ltb_spec i stop); [lia | reflexivity].
  - destruct fuel as [|fuel]; [lia|].
    destruct Hlo as [Hlo|Hlo]; [discriminate|].
    cbn [range_from].
    destruct (Z.ltb_spec i stop) as [Hi|Hi]; [|nia].
    assert (Hlo' : (n = 0%nat \/ i + step + (Z.of_nat n - 1) * step < stop)%Z)
      by (destruct n; [left; reflexivity | right; nia]).
    rewrite (IH fuel (i + step)%Z stop Hstep) by (assumption || nia).
    cbn [seq map]. f_equal; [lia|].
    rewrite <- seq_shift, map_map.
    apply map_ext. intros k. lia.
Qed.

Lemma num_windows_bounds (L : nat) (step : Z) :
  (0 < step)%Z -> (1 <= L)%nat ->
  (Z.of_nat L <= Z.of_nat (num_windows L step) * step)%Z
  /\ ((Z.of_nat (num_windows L step) - 1) * step < Z.of_nat L)%Z
  /\ (1 <= num_windows L step <= L)%nat.
Proof.
  intros Hstep HL. unfold num_windows.
  assert (Hq : (0 <= (Z.of_nat L - 1) / step)%Z) by (apply Z.div_pos; lia).
  pose proof (Z.mul_div_le (Z.of_nat L - 1) step Hstep) as Hle.
  pose proof (Z.mul_succ_div_gt (Z.of_nat L - 1) step Hstep) as Hgt.
  assert (Hq' : ((Z.of_nat L - 1) / step <= Z.of_nat L - 1)%Z) by nia.
  rewrite Z2Nat.id by lia.
  repeat split; try nia; lia.
Qed.

Lemma py_range0_spec (L : nat) (step : Z) :
  (0 < step)%Z -> (1 <= L)%nat ->
  py_range0 (Z.of_nat L) step
  = Ok (map (fun k => (Z.of_nat k * step)%Z) (seq 0 (num_windows L step))).
Proof.
  intros Hstep HL. unfold py_range0.
  destruct (Z.eqb_spec step 0); [lia|].
  destruct (Z.ltb_spec step 0); [lia|].
  destruct (num_windows_bounds L step Hstep HL) as (H1 & H2 & H3).
  rewrite (range_from_spec step (num_windows L step)); try lia.
  reflexivity.
Qed.



Lemma window_extent (L : nat) (lo size_ : Z) :
  (0 <= lo < Z.of_nat L)%Z -> (0 < size_)%Z ->
  (slice_index L (lo + size_) - slice_index L lo)%nat
  = Z.to_nat (Z.min size_ (Z.of_nat L - lo)).
Proof.
  intros Hlo Hsize. unfold slice_index.
  destruct (Z.ltb_spec (lo + size_) 0); [lia|].
  destruct (Z.ltb_spec lo 0); lia.
Qed.

(** ** [NumbersDict] *)

Lemma fold_min_le (vs : list Z) :
  forall v x : Z, In x (v :: vs) -> (fold_left Z.min vs v <= x)%Z.
Proof.
  induction vs as [|w vs IH]; intros v x Hin; simpl in *.
  - destruct Hin as [<-|[]]. lia.
  - destruct Hin as [<-|[<-|Hin]].
    + etransitivity; [apply IH; left; reflexivity | lia].
    + etransitivity; [apply IH; left; reflexivity | lia].
    + apply IH. right. exact Hin.
Qed.

Lemma dict_find_In {V : Type} (d : dict V) (k : string) (v : V) :
  dict_find d k = Some v -> In (k, v) d.
Proof.
  induction d as [|[k' v'] d IH]; simpl; [discriminate|].
  destruct (String.eqb_spec k' k) as [->|Hne]; intros H.
  - injection H as ->. left. reflexivity.
  - right. auto.
Qed.

Lemma get_in_values (nd : NumbersDict.t) (k : string) (v : Z) :
  NumbersDict.get nd k = Some v -> In v (NumbersDict.values nd).
Proof.
  unfold NumbersDict.get, NumbersDict.values. intros Hget.
  apply in_or_app.
  destruct (dict_find (NumbersDict.dict_ nd) k) as [v'|] eqn:Hf.
  - injection Hget as ->. left. apply dict_find_In in Hf.
    apply (in_map snd) in Hf. exact Hf.
  - right. rewrite Hget. left. reflexivity.
Qed.

Lemma min_value_positive_values (nd : NumbersDict.t) (msg : string) (v : Z) :
  min_value_positive nd msg = Ok tt ->
  In v (NumbersDict.values nd) ->
  (0 < v)%Z.
Proof.
  unfold min_value_positive, NumbersDict.min_value. intros H Hin.
  destruct (NumbersDict.values nd) as [|w ws]; [destruct Hin|].
  cbn [bind] in H. unfold py_assert in H.
  destruct (Z.ltb_spec 0 (fold_left Z.min ws w)) as [Hpos|]; [|discriminate].
  pose proof (fold_min_le ws w v Hin). lia.
Qed.

Lemma min_value_positive_get (nd : NumbersDict.t) (msg k : string) (v : Z) :
  min_value_positive nd msg = Ok tt ->
  NumbersDict.get nd k = Some v ->
  (0 < v)%Z.
Proof.
  intros H Hget. eapply min_value_positive_values; [exact H|].
  eapply get_in_values; exact Hget.
Qed.

Lemma dict_find_None {V : Type} (d : dict V) (k : string) :
  dict_find d k = None <-> ~ In k (keys d).
Proof.
  induction d as [|[k' v'] d IH]; simpl.
  - tauto.
  - destruct (String.eqb_spec k' k) as [->|Hne].
    + split; [discriminate | intros H; exfalso; auto].
    + rewrite IH. split; [intros H [?|?]; auto | tauto].
Qed.

Lemma dict_find_flat_map (g : string -> option Z) (l : list string) (k : string) :
  dict_find (flat_map (fun k' => match g k' with
                                 | Some v => [(k', v)]
                                 | None => []
                                 end) l) k
  = if in_dec string_dec k l then g k else None.
Proof.
  induction l as [|k' l IH]; [reflexivity|].
  cbn [flat_map]. destruct (in_dec string_dec k (k' :: l)) as [Hin|Hnin].
  - destruct (string_dec k' k) as [->|Hne].
    + destruct (g k) as [v|] eqn:Hg; simpl.
      * rewrite String.eqb_refl. reflexivity.
      * rewrite IH. destruct (in_dec string_dec k l); reflexivity.
    + assert (Hl : In k l) by (destruct Hin; [contradiction | assumption]).
      destruct (g k') as [v|]; simpl.
      * destruct (String.eqb_spec k' k); [contradiction|].
        rewrite IH. destruct (in_dec string_dec k l); [reflexivity | contradiction].
      * rewrite IH. destruct (in_dec string_dec k l); [reflexivity | contradiction].
  - assert (Hne : k' <> k) by (intros ->; apply Hnin; left; reflexivity).
    assert (Hl : ~ In k l) by (intros H; apply Hnin; right; exact H).
    destruct (g k') as [v|]; simpl.
    + destruct (String.eqb_spec k' k); [contradiction|].
      rewrite IH. destruct (in_dec string_dec k l); [contradiction | reflexivity].
    + rewrite IH. destruct (in_dec string_dec k l); [contradiction | reflexivity].
Qed.

Lemma get_max (a b : NumbersDict.t) (k : string) :
  NumbersDict.get (NumbersDict.max a b) k
  = NumbersDict.opt_max (NumbersDict.get a k) (NumbersDict.get b k).
Proof.
  unfold NumbersDict.get at 1. unfold NumbersDict.max.
  cbn [NumbersDict.dict_ NumbersDict.value].
  rewrite dict_find_flat_map.
  destruct (in_dec string_dec k (NumbersDict.union_keys a b)) as [Hin|Hnin].
  - destruct (NumbersDict.opt_max (NumbersDict.get a k) (NumbersDict.get b k)) eqn:Hm;
      [reflexivity|].
    unfold NumbersDict.get in Hm.
    destruct (dict_find (NumbersDict.dict_ a) k), (dict_find (NumbersDict.dict_ b) k),
      (NumbersDict.value a), (NumbersDict.value b); simpl in *; congruence.
  - unfold NumbersDict.union_keys in Hnin.
    assert (Ha : ~ In k (keys (NumbersDict.dict_ a))).
    { intros H. apply Hnin. apply in_or_app. left. exact H. }
    assert (Hb : ~ In k (keys (NumbersDict.dict_ b))).
    { intros H. apply Hnin. apply in_or_app. right. apply filter_In.
      split; [exact H|]. unfold dict_mem.
      apply dict_find_None in Ha. rewrite Ha. reflexivity. }
    apply dict_find_None in Ha. apply dict_find_None in Hb.
    unfold NumbersDict.get. rewrite Ha, Hb. reflexivity.
Qed.

Lemma dict_find_mul (nd : NumbersDict.t) (n : Z) (k : string) :
  dict_find (NumbersDict.dict_ (NumbersDict.mul nd n)) k
  = option_map (fun v => (v * n)%Z) (dict_find (NumbersDict.dict_ nd) k).
Proof.
  unfold NumbersDict.mul. cbn [NumbersDict.dict_].
  induction (NumbersDict.dict_ nd) as [|[k' v'] d IH]; [reflexivity|].
  simpl. destruct (String.eqb k' k); [reflexivity | exact IH].
Qed.

Lemma any_compare_false (a b : NumbersDict.t) (cmp : Z -> Z -> bool) :
  NumbersDict.any_compare a b cmp = false ->
  (forall k v bound,
      dict_find (NumbersDict.dict_ a) k = Some v ->
      NumbersDict.get b k = Some bound -> cmp v bound = false)
  /\ (forall x y, NumbersDict.value a = Some x -> NumbersDict.value b = Some y ->
                  cmp x y = false).
Proof.
  unfold NumbersDict.any_compare. intros H.
  apply orb_false_iff in H. destruct H as (H1 & H2). split.
  - intros k v bound Hf Hb. apply dict_find_In in Hf.
    rewrite <- not_true_iff_false in H1. rewrite existsb_exists in H1.
    destruct (cmp v bound) eqn:Hc; [|reflexivity].
    exfalso. apply H1. exists (k, v). split; [exact Hf|].
    cbn [fst snd]. rewrite Hb. exact Hc.
  - intros x y Hx Hy. rewrite Hx, Hy in H2. exact H2.
Qed.

Lemma any_compare_true (a b : NumbersDict.t) (cmp : Z -> Z -> bool) :
  NumbersDict.any_compare a b cmp = true ->
  (exists k v bound,
      In (k, v) (NumbersDict.dict_ a)
      /\ NumbersDict.get b k = Some bound /\ cmp v bound = true)
  \/ (exists x y, NumbersDict.value a = Some x /\ NumbersDict.value b = Some y
                  /\ cmp x y = true).
Proof.
  unfold NumbersDict.any_compare. intros H.
  apply orb_true_iff in H. destruct H as [H|H].
  - left. apply existsb_exists in H. destruct H as ([k v] & Hin & Hc).
    cbn [fst snd] in Hc.
    destruct (NumbersDict.get b k) as [bound|] eqn:Hb; [|discriminate].
    exists k, v, bound. auto.
  - right. destruct (NumbersDict.value a) as [x|]; [|discriminate].
    destruct (NumbersDict.value b) as [y|]; [|discriminate].
    exists x, y. auto.
Qed.

(** ** Chunking *)

Section ChunkingProperties.

Variable float : Type.



Lemma parse_chunking_Parsed (chunking : chunking_spec) (cs ct : NumbersDict.t) :
  parse_chunking chunking = Ok (Parsed cs ct) ->
  min_value_positive cs "chunk size must not be negative" = Ok tt
  /\ min_value_positive ct "chunking step must be positive" = Ok tt
  /\ list_string_eqb (sorted (NumbersDict.keys ct)) (sorted (NumbersDict.keys cs)) = true.
Proof.
  unfold parse_chunking. intros H.
  destruct chunking as [sz|sz st|]; [| |discriminate].
  all: apply bind_Ok in H; destruct H as ([] & H1 & H).
  all: apply bind_Ok in H; destruct H as ([] & H2 & H).
  all: apply bind_Ok in H; destruct H as ([] & H3 & H).
  all: injection H as <- <-.
  all: repeat split; try assumption.
  all: unfold py_assert in H2.
  all: match type of H2 with (if ?c then _ else _) = _ => destruct c end.
  all: reflexivity || discriminate.
Qed.

Lemma init_Parsed (dataset : list (record float)) (chunking : chunking_spec)
    (self : ChunkingIterDataPipe float) :
  ChunkingIterDataPipe_init dataset chunking = Ok self ->
  parse_chunking chunking = Ok (Parsed (_chunk_size self) (_chunk_step self))
  /\ _chunk_dataset self = dataset.
Proof.
  unfold ChunkingIterDataPipe_init. intros H.
  apply bind_Ok in H. destruct H as (p & Hp & H).
  destruct p as [cs ct|]; [|discriminate].
  injection H as <-. split; [exact Hp | reflexivity].
Qed.



(** *** Mismatching window counts *)

Lemma chunk_fields_counts (self : ChunkingIterDataPipe float) (data_dict : record float) :
  forall (ks : list string) (dc dc' : dict (list (InputType float)))
         (nc nc' : option nat),
    chunk_fields self data_dict ks dc nc = Ok (dc', nc') ->
    (forall n, nc = Some n -> nc' = Some n)
    /\ (forall k, In k ks ->
          exists chunks, field_chunks self data_dict k = Ok chunks
                         /\ nc' = Some (List.length chunks)).
Proof.
  induction ks as [|k0 ks IH]; intros dc dc' nc nc' H; cbn [chunk_fields] in H.
  - injection H as <- <-. split; [auto | intros k []].
  - apply bind_Ok in H. destruct H as (chunks & Hc & H).
    apply bind_Ok in H. destruct H as (m & Hm & H).
    apply IH in H. destruct H as (Hkeep & Hall).
    assert (Hm' : m = List.length chunks /\ (forall n, nc = Some n -> n = m)).
    { destruct nc as [n|].
      - apply bind_Ok in Hm. destruct Hm as ([] & Ha & Hm). injection Hm as <-.
        unfold py_assert in Ha.
        destruct (Nat.eqb_spec n (List.length chunks)); [|discriminate].
        split; [assumption | intros ? [= <-]; reflexivity].
      - injection Hm as <-. split; [reflexivity | discriminate]. }
    destruct Hm' as (-> & Hnc).
    split.
    + intros n Hn. rewrite (Hnc n Hn). apply Hkeep. reflexivity.
    + intros k [<-|Hin]; [|auto].
      exists chunks. split; [exact Hc | apply Hkeep; reflexivity].
Qed.

Lemma chunk_fields_error (self : ChunkingIterDataPipe float) (data_dict : record float) :
  forall (ks : list string) (dc : dict (list (InputType float))) (nc : option nat) (e : exn),
    (forall k, In k ks -> exists chunks, field_chunks self data_dict k = Ok chunks) ->
    chunk_fields self data_dict ks dc nc = Raise e ->
    e = AssertionError chunks_differ_msg.
Proof.
  induction ks as [|k0 ks IH]; intros dc nc e Hall H; cbn [chunk_fields] in H.
  - discriminate.
  - destruct (Hall k0 (or_introl eq_refl)) as (chunks & Hc).
    rewrite Hc in H. cbn [bind] in H.
    destruct nc as [n|]; cbn [bind] in H.
    + unfold py_assert in H.
      destruct (Nat.eqb n (List.length chunks)); cbn [bind] in H.
      * eapply IH; [|exact H]. intros k Hk. apply Hall. right. exact Hk.
      * injection H as <-. reflexivity.
    + eapply IH; [|exact H]. intros k Hk. apply Hall. right. exact Hk.
Qed.

(** C7. When two of the chunking keys in force for a record give windows
    in different numbers, the loop body raises for that record and the
    iteration from that record on yields nothing; when every key in force
    gives windows at all, the exception is the assertion that the numbers
    of chunks agree. *)
Theorem mismatch_is_fatal (self : ChunkingIterDataPipe float)
    (chunking_data_keys ks : list string) (data_dict : record float)
    (rest : list (record float)) (k1 k2 : string)
    (chunks1 chunks2 : list (InputType float)) :
  active_keys chunking_data_keys data_dict = Ok ks ->
  In k1 ks -> In k2 ks ->
  field_chunks self data_dict k1 = Ok chunks1 ->
  field_chunks self data_dict k2 = Ok chunks2 ->
  List.length chunks1 <> List.length chunks2 ->
  exists e,
    chunk_record self chunking_data_keys data_dict = Raise e
    /\ chunking_loop self chunking_data_keys (data_dict :: rest) = ([], Some e)
    /\ ((forall k, In k ks -> exists chunks, field_chunks self data_dict k = Ok chunks) ->
        e = AssertionError chunks_differ_msg).
Proof.
  intros Hact H1 H2 Hc1 Hc2 Hne.
  assert (Hr : exists e, chunk_fields self data_dict ks [] None = Raise e).
  { destruct (chunk_fields self data_dict ks [] None) as [[dc' nc']|e] eqn:Hcf;
      [|eauto].
    exfalso. apply chunk_fields_counts in Hcf. destruct Hcf as (_ & Hall).
    destruct (Hall k1 H1) as (c1 & Hc1' & Hn1).
    destruct (Hall k2 H2) as (c2 & Hc2' & Hn2).
    rewrite Hc1 in Hc1'. rewrite Hc2 in Hc2'.
    injection Hc1' as <-. injection Hc2' as <-.
    rewrite Hn1 in Hn2. injection Hn2 as Hn2. contradiction. }
  destruct Hr as (e & He). exists e.
  assert (Hrec : chunk_record self chunking_data_keys data_dict = Raise e).
  { unfold chunk_record. rewrite Hact. cbn [bind]. rewrite He. reflexivity. }
  split; [exact Hrec|]. split.
  - cbn [chunking_loop]. rewrite Hrec. reflexivity.
  - intros Hall. eapply chunk_fields_error; eauto.
Qed.

(** *** Inferred chunking keys *)

Lemma list_remove_absent (l : list string) (x : string) :
  ~ In x l -> list_remove l x = Raise ValueError.
Proof.
  induction l as [|y l IH]; simpl; intros Hn; [reflexivity|].
  destruct (String.eqb_spec y x) as [->|Hne]; [exfalso; auto|].
  rewrite IH by tauto. reflexivity.
Qed.

Lemma list_remove_subset (l : list string) (x : string) :
  forall l', list_remove l x = Ok l' -> forall y, In y l' -> In y l.
Proof.
  induction l as [|z l IH]; simpl; intros l' H y Hy; [discriminate|].
  destruct (String.eqb_spec z x) as [->|Hne].
  - injection H as <-. right. exact Hy.
  - apply bind_Ok in H. destruct H as (l'' & Hl & H). injection H as <-.
    destruct Hy as [<-|Hy]; [left; reflexivity | right; eauto].
Qed.

Lemma list_remove_error (l : list string) (x : string) (e : exn) :
  list_remove l x = Raise e -> e = ValueError.
Proof.
  induction l as [|z l IH]; simpl; intros H.
  - injection H as <-. reflexivity.
  - destruct (String.eqb z x); [discriminate|].
    destruct (list_remove l x); [discriminate|]. simpl in H.
    injection H as <-. apply IH. reflexivity.
Qed.

(** C10. With a chunk size that names no keys, a first record that lacks
    [seq_tag] or lacks [seq_idx] ends the iteration with the [ValueError]
    of [list.remove] before anything is yielded, whatever other fields the
    record has. *)
Theorem reserved_keys_required (self : ChunkingIterDataPipe float)
    (data_dict : record float) (rest : list (record float)) :
  NumbersDict.keys (_chunk_size self) = [] ->
  _chunk_dataset self = data_dict :: rest ->
  ~ In "seq_tag"%string (keys data_dict) \/ ~ In "seq_idx"%string (keys data_dict) ->
  ChunkingIterDataPipe_iter self = ([], Some ValueError).
Proof.
  intros Hkeys Hds Habs.
  unfold ChunkingIterDataPipe_iter. rewrite Hkeys, Hds.
  cbn [chunking_loop]. unfold chunk_record. cbn [active_keys].
  assert (Hinf : infer_chunking_data_keys data_dict = Raise ValueError).
  { unfold infer_chunking_data_keys.
    destruct (list_remove (keys data_dict) "seq_tag") as [ks|e] eqn:H1.
    - cbn [bind].
      destruct Habs as [Habs|Habs].
      + rewrite (list_remove_absent _ _ Habs) in H1. discriminate.
      + rewrite list_remove_absent; [reflexivity|].
        intros Hin. apply Habs. eapply list_remove_subset; eauto.
    - cbn [bind]. apply list_remove_error in H1. subst. reflexivity. }
  rewrite Hinf. reflexivity.
Qed.


Lemma filter_absent (l : list string) (x : string) :
  ~ In x l -> filter (fun k => negb (String.eqb k x)) l = l.
Proof.
  induction l as [|y l IH]; simpl; intros Hn; [reflexivity|].
  destruct (String.eqb_spec y x) as [->|Hne]; [exfalso; auto|].
  simpl. rewrite IH by tauto. reflexivity.
Qed.

Lemma list_remove_NoDup (l : list string) (x : string) :
  NoDup l -> In x l ->
  list_remove l x = Ok (filter (fun k => negb (String.eqb k x)) l).
Proof.
  induction 1 as [|y l Hy Hnd IH]; simpl; intros Hin; [destruct Hin|].
  destruct (String.eqb_spec y x) as [->|Hne]; simpl.
  - rewrite filter_absent by assumption. reflexivity.
  - destruct Hin as [->|Hin]; [congruence|].
    rewrite IH by assumption. reflexivity.
Qed.

Lemma infer_chunking_data_keys_spec (data_dict : record float) :
  NoDup (keys data_dict) ->
  In "seq_tag"%string (keys data_dict) ->
  In "seq_idx"%string (keys data_dict) ->
  infer_chunking_data_keys data_dict
  = match unreserved_keys data_dict with
    | [] => Raise (AssertionError no_data_msg)
    | ks => Ok ks
    end.
Proof.
  intros Hnd Htag Hidx. unfold infer_chunking_data_keys.
  rewrite (list_remove_NoDup _ _ Hnd Htag). cbn [bind].
  rewrite list_remove_NoDup.
  - cbn [bind].
    assert (Heq : filter (fun k => negb (String.eqb k "seq_idx"))
                    (filter (fun k => negb (String.eqb k "seq_tag")) (keys data_dict))
                  = unreserved_keys data_dict).
    { unfold unreserved_keys. clear.
      induction (keys data_dict) as [|k l IH]; [reflexivity|].
      simpl. destruct (String.eqb k "seq_tag"); simpl; [exact IH|].
      destruct (String.eqb k "seq_idx"); simpl; [exact IH | f_equal; exact IH]. }
    rewrite Heq. destruct (unreserved_keys data_dict); reflexivity.
  - apply NoDup_filter. exact Hnd.
  - apply filter_In. split; [exact Hidx | reflexivity].
Qed.

(** C6, as the code has it. Construction does not look at the records: it
    succeeds for every dataset once it succeeds for one. With a chunk size
    that names no keys, the chunking keys are taken from the first record
    during iteration: all its keys but [seq_tag] and [seq_idx] (both
    present); when none is left, the iteration ends at that record with an
    assertion error, before anything is yielded. *)
Theorem no_data_detected_at_first_record (chunking : chunking_spec)
    (data_dict : record float) (rest : list (record float))
    (self : ChunkingIterDataPipe float) :
  ChunkingIterDataPipe_init (data_dict :: rest) chunking = Ok self ->
  NumbersDict.keys (_chunk_size self) = [] ->
  NoDup (keys data_dict) ->
  In "seq_tag"%string (keys data_dict) ->
  In "seq_idx"%string (keys data_dict) ->
  (forall dataset' : list (record float),
      exists self', ChunkingIterDataPipe_init dataset' chunking = Ok self')
  /\ (unreserved_keys data_dict <> [] ->
      active_keys [] data_dict = Ok (unreserved_keys data_dict))
  /\ (unreserved_keys data_dict = [] ->
      ChunkingIterDataPipe_iter self = ([], Some (AssertionError no_data_msg))).
Proof.
  intros Hinit Hkeys Hnd Htag Hidx.
  pose proof (infer_chunking_data_keys_spec data_dict Hnd Htag Hidx) as Hinf.
  split; [|split].
  - intros dataset'. unfold ChunkingIterDataPipe_init in *.
    destruct (parse_chunking chunking) as [[cs ct|]|e]; try discriminate.
    eexists. reflexivity.
  - intros Hne. cbn [active_keys]. rewrite Hinf.
    destruct (unreserved_keys data_dict); [contradiction | reflexivity].
  - intros Hempty. rewrite Hempty in Hinf.
    destruct (init_Parsed _ _ _ Hinit) as (_ & Hds).
    unfold ChunkingIterDataPipe_iter. rewrite Hkeys, Hds.
    cbn [chunking_loop]. unfold chunk_record. cbn [active_keys].
    rewrite Hinf. reflexivity.
Qed.

End ChunkingProperties.

(** ** Batching *)

Section BatchingProperties.

Variable float : Type.

Lemma seq_length_nonneg (v : InputType float) : (0 <= seq_length v)%Z.
Proof.
  destruct v as [a|s]; simpl; [|lia].
  destruct (shape a); lia.
Qed.

Lemma field_length_nonneg (r : record float) (f : string) : (0 <= field_length r f)%Z.
Proof.
  unfold field_length. destruct (dict_find r f); [apply seq_length_nonneg | lia].
Qed.

Lemma max_length_nonneg (f : string) (batch : list (record float)) :
  (0 <= max_length_in_batch f batch)%Z.
Proof.
  induction batch as [|r batch IH]; simpl; lia.
Qed.

Lemma max_length_app (f : string) (batch : list (record float)) (r : record float) :
  max_length_in_batch f (batch ++ [r])
  = Z.max (max_length_in_batch f batch) (field_length r f).
Proof.
  induction batch as [|r' batch IH]; simpl.
  - pose proof (field_length_nonneg r f). lia.
  - rewrite IH. lia.
Qed.

Lemma max_length_ge (f : string) (batch : list (record float)) (r : record float) :
  In r batch -> (field_length r f <= max_length_in_batch f batch)%Z.
Proof.
  induction batch as [|r' batch IH]; simpl; intros Hin; [destruct Hin|].
  destruct Hin as [->|Hin]; [lia|]. specialize (IH Hin). lia.
Qed.

Lemma get_sequence_lengths (r : record float) (f : string) :
  NumbersDict.get (sequence_lengths r) f = option_map (@seq_length float) (dict_find r f).
Proof.
  unfold NumbersDict.get, sequence_lengths, NumbersDict.of_dict.
  cbn [NumbersDict.dict_ NumbersDict.value].
  induction r as [|[k v] r IH]; [reflexivity|].
  simpl. destruct (String.eqb k f); [reflexivity | exact IH].
Qed.

Section Invariant.

Variable self : BatchingIterDataPipe float.

(** What [__init__] asserts about the limits. *)
Hypothesis budget_positive :
  forall b, In b (NumbersDict.values (_max_batch_size self)) -> (0 < b)%Z.

Lemma invariant_initial : invariant self initial_state.
Proof.
  constructor.
  - intros f. reflexivity.
  - right. reflexivity.
  - simpl. lia.
Qed.

Lemma invariant_single (r : record float) :
  invariant self (mk_state [r] (sequence_lengths r)).
Proof.
  constructor; cbn [current_batch current_max_sequence_lengths].
  - intros f. unfold current_length. cbn [current_max_sequence_lengths].
    rewrite get_sequence_lengths. simpl. unfold field_length.
    destruct (dict_find r f) as [v|]; simpl; [|reflexivity].
    pose proof (seq_length_nonneg v). lia.
  - left. reflexivity.
  - simpl. lia.
Qed.

Lemma current_length_included (st : batcher_state float) (r : record float) (f : string) :
  invariant self st ->
  current_length (mk_state (current_batch st ++ [r])
                           (max_sequence_lengths_if_included st r)) f
  = Z.max (max_length_in_batch f (current_batch st)) (field_length r f).
Proof.
  intros Hinv. unfold current_length at 1, max_sequence_lengths_if_included.
  cbn [current_max_sequence_lengths].
  rewrite get_max, get_sequence_lengths.
  rewrite <- (inv_lengths Hinv f).
  pose proof (max_length_nonneg f (current_batch st)) as Hnn.
  rewrite <- (inv_lengths Hinv f) in Hnn.
  unfold current_length in *. unfold field_length.
  destruct (NumbersDict.get (current_max_sequence_lengths st) f) as [a|];
    destruct (dict_find r f) as [v|]; simpl; try lia.
  pose proof (seq_length_nonneg v). lia.
Qed.

Lemma invariant_included (st : batcher_state float) (r : record float) :
  invariant self st ->
  (current_batch st = []
   \/ NumbersDict.any_compare (batch_size_if_included st r)
        (_max_batch_size self) Z.gtb = false) ->
  invariant self (mk_state (current_batch st ++ [r])
                      (max_sequence_lengths_if_included st r)).
Proof.
  intros Hinv Hcheck.
  constructor; cbn [current_batch current_max_sequence_lengths].
  - intros f. rewrite current_length_included by assumption.
    rewrite max_length_app. reflexivity.
  - unfold max_sequence_lengths_if_included, NumbersDict.max, sequence_lengths.
    cbn [NumbersDict.value NumbersDict.of_dict].
    destruct (inv_value Hinv) as [->| ->]; [left | right]; reflexivity.
  - rewrite length_app. cbn [List.length]. intros Hlen.
    destruct Hcheck as [Hnil|Hcmp]; [rewrite Hnil in Hlen; simpl in Hlen; lia|].
    intros f b Hb.
    rewrite length_app. cbn [List.length].
    rewrite max_length_app.
    rewrite <- (current_length_included st r f Hinv).
    apply any_compare_false in Hcmp. destruct Hcmp as (Hent & _).
    unfold batch_size_if_included in Hent.
    specialize (Hent f).
    rewrite dict_find_mul in Hent.
    unfold current_length. cbn [current_max_sequence_lengths].
    unfold NumbersDict.get.
    destruct (dict_find (NumbersDict.dict_ (max_sequence_lengths_if_included st r)) f)
      as [m|] eqn:Hm.
    + specialize (Hent _ b eq_refl Hb).
      rewrite Z.gtb_ltb in Hent. apply Z.ltb_ge in Hent. lia.
    + assert (Hv : NumbersDict.value (max_sequence_lengths_if_included st r) = None
                   \/ NumbersDict.value (max_sequence_lengths_if_included st r) = Some 0%Z).
      { unfold max_sequence_lengths_if_included, NumbersDict.max, sequence_lengths.
        cbn [NumbersDict.value NumbersDict.of_dict].
        destruct (inv_value Hinv) as [->| ->]; [left | right]; reflexivity. }
      pose proof (budget_positive b (get_in_values _ _ _ Hb)).
      destruct Hv as [->| ->]; lia.
Qed.

Lemma included_value (st : batcher_state float) (r : record float) :
  invariant self st ->
  NumbersDict.value (max_sequence_lengths_if_included st r) = None
  \/ NumbersDict.value (max_sequence_lengths_if_included st r) = Some 0%Z.
Proof.
  intros Hinv.
  unfold max_sequence_lengths_if_included, NumbersDict.max, sequence_lengths.
  cbn [NumbersDict.value NumbersDict.of_dict].
  destruct (inv_value Hinv) as [->| ->]; [left | right]; reflexivity.
Qed.

(** Every entry of [batch_size_if_included] is the candidate cost of its
    field. *)
Lemma cost_entry (st : batcher_state float) (r : record float) (k : string) (v : Z) :
  invariant self st ->
  In (k, v) (NumbersDict.dict_ (batch_size_if_included st r)) ->
  v = candidate_cost st r k.
Proof.
  intros Hinv Hin.
  unfold batch_size_if_included, NumbersDict.mul in Hin.
  cbn [NumbersDict.dict_] in Hin.
  apply in_map_iff in Hin. destruct Hin as ([k' m] & Heq & Hin).
  cbn [fst snd] in Heq. injection Heq as -> <-.
  unfold candidate_cost. f_equal.
  rewrite <- (current_length_included st r k Hinv).
  unfold current_length, max_sequence_lengths_if_included.
  cbn [current_max_sequence_lengths].
  rewrite get_max.
  unfold max_sequence_lengths_if_included, NumbersDict.max in Hin.
  cbn [NumbersDict.dict_] in Hin.
  apply in_flat_map in Hin. destruct Hin as (k'' & _ & Hin).
  destruct (NumbersDict.opt_max
              (NumbersDict.get (current_max_sequence_lengths st) k'')
              (NumbersDict.get (sequence_lengths r) k'')) as [m'|] eqn:Hm;
    [|destruct Hin].
  destruct Hin as [Heq|[]]. injection Heq as -> ->.
  rewrite Hm. reflexivity.
Qed.

Lemma cost_value (st : batcher_state float) (r : record float) (x : Z) :
  invariant self st ->
  NumbersDict.value (batch_size_if_included st r) = Some x -> x = 0%Z.
Proof.
  intros Hinv Hx. unfold batch_size_if_included, NumbersDict.mul in Hx.
  cbn [NumbersDict.value] in Hx.
  destruct (included_value st r Hinv) as [Hv|Hv]; rewrite Hv in Hx;
    simpl in Hx; [discriminate|].
  injection Hx as <-. reflexivity.
Qed.

(** The comparison against the limits is exactly: some field's candidate
    cost is above its limit. *)
Lemma over_budget_iff (st : batcher_state float) (r : record float) :
  invariant self st ->
  NumbersDict.any_compare (batch_size_if_included st r) (_max_batch_size self) Z.gtb
  = true ->
  exists f b, NumbersDict.get (_max_batch_size self) f = Some b
              /\ (b < candidate_cost st r f)%Z.
Proof.
  intros Hinv Hcmp. apply any_compare_true in Hcmp.
  destruct Hcmp as [(k & v & bound & Hin & Hb & Hgt)|(x & y & Hx & Hy & Hgt)].
  - exists k, bound. split; [exact Hb|].
    rewrite <- (cost_entry st r k v Hinv Hin).
    rewrite Z.gtb_ltb in Hgt. apply Z.ltb_lt in Hgt. exact Hgt.
  - exfalso. apply (cost_value st r x Hinv) in Hx. subst x.
    assert (0 < y)%Z.
    { apply budget_positive. unfold NumbersDict.values. apply in_or_app.
      right. rewrite Hy. left. reflexivity. }
    rewrite Z.gtb_ltb in Hgt. apply Z.ltb_lt in Hgt. lia.
Qed.

Lemma within_budget_accepts (st : batcher_state float) (r : record float) :
  invariant self st ->
  (forall f b, NumbersDict.get (_max_batch_size self) f = Some b ->
               (candidate_cost st r f <= b)%Z) ->
  NumbersDict.any_compare (batch_size_if_included st r) (_max_batch_size self) Z.gtb
  = false.
Proof.
  intros Hinv Hall.
  destruct (NumbersDict.any_compare (batch_size_if_included st r)
              (_max_batch_size self) Z.gtb) eqn:Hcmp; [|reflexivity].
  exfalso. destruct (over_budget_iff st r Hinv Hcmp) as (f & b & Hb & Hlt).
  specialize (Hall f b Hb). lia.
Qed.

Lemma flush_if_full_invariant (st : batcher_state float) :
  invariant self st ->
  invariant self (snd (flush_if_full self st))
  /\ Forall (good_batch self) (fst (flush_if_full self st)).
Proof.
  intros Hinv. unfold flush_if_full.
  destruct (Z.of_nat (List.length (current_batch st)) =? _max_seqs self)%Z;
    cbn [fst snd].
  - split; [apply invariant_initial|].
    constructor; [|constructor]. exact (inv_budget Hinv).
  - split; [exact Hinv | constructor].
Qed.

Lemma budget_step_invariant (st : batcher_state float) (r : record float) :
  invariant self st ->
  invariant self (snd (budget_step self st r))
  /\ Forall (good_batch self) (fst (budget_step self st r)).
Proof.
  intros Hinv. unfold budget_step.
  destruct (Nat.eqb_spec (List.length (current_batch st)) 0) as [Hz|Hnz];
    cbn [negb andb].
  - cbn [fst snd]. split; [|constructor].
    apply invariant_included; [exact Hinv|]. left.
    destruct (current_batch st); [reflexivity | discriminate].
  - destruct (NumbersDict.any_compare (batch_size_if_included st r)
                (_max_batch_size self) Z.gtb) eqn:Hcmp; cbn [fst snd].
    + split; [apply invariant_single|].
      constructor; [|constructor]. exact (inv_budget Hinv).
    + split; [|constructor].
      apply invariant_included; [exact Hinv|]. right. exact Hcmp.
Qed.

Lemma batcher_step_invariant (st : batcher_state float) (r : record float) :
  invariant self st ->
  invariant self (snd (batcher_step self st r))
  /\ Forall (good_batch self) (fst (batcher_step self st r)).
Proof.
  intros Hinv. unfold batcher_step.
  destruct (flush_if_full_invariant st Hinv) as (H1 & G1).
  destruct (flush_if_full self st) as [out1 st1]. cbn [fst snd] in *.
  destruct (budget_step_invariant st1 r H1) as (H2 & G2).
  destruct (budget_step self st1 r) as [out2 st2]. cbn [fst snd] in *.
  split; [exact H2 | apply Forall_app; auto].
Qed.

Lemma batcher_loop_invariant (dataset : list (record float)) :
  forall st, invariant self st ->
    invariant self (snd (batcher_loop self st dataset))
    /\ Forall (good_batch self) (fst (batcher_loop self st dataset)).
Proof.
  induction dataset as [|r rest IH]; intros st Hinv; cbn [batcher_loop].
  - split; [exact Hinv | constructor].
  - destruct (batcher_step_invariant st r Hinv) as (H1 & G1).
    destruct (batcher_step self st r) as [out st']. cbn [fst snd] in *.
    destruct (IH st' H1) as (H2 & G2).
    destruct (batcher_loop self st' rest) as [outs st'']. cbn [fst snd] in *.
    split; [exact H2 | apply Forall_app; auto].
Qed.

Lemma iter_good : Forall (good_batch self) (BatchingIterDataPipe_iter self).
Proof.
  unfold BatchingIterDataPipe_iter.
  destruct (batcher_loop_invariant (_dataset self) initial_state invariant_initial)
    as (Hinv & Hgood).
  destruct (batcher_loop self initial_state (_dataset self)) as [out st].
  cbn [fst snd] in *.
  destruct (negb (Nat.eqb (List.length (current_batch st)) 0) && negb (_drop_last self));
    [|exact Hgood].
  apply Forall_app. split; [exact Hgood|].
  constructor; [|constructor]. exact (inv_budget Hinv).
Qed.

End Invariant.

(** *** What the constructor establishes *)

Lemma batching_init_spec (dataset : list (record float)) (batch_size : size_spec)
    (max_seqs : option Z) (drop_last : bool) (self : BatchingIterDataPipe float) :
  BatchingIterDataPipe_init dataset batch_size max_seqs drop_last = Ok self ->
  _dataset self = dataset
  /\ _drop_last self = drop_last
  /\ _max_batch_size self = limits_of batch_size
  /\ (forall b, In b (NumbersDict.values (_max_batch_size self)) -> (0 < b)%Z)
  /\ (0 < _max_seqs self)%Z
  /\ _max_seqs self = seqs_of max_seqs.
Proof.
  unfold BatchingIterDataPipe_init. intros H.
  apply bind_Ok in H. destruct H as ([] & Hpos & H).
  apply bind_Ok in H. destruct H as ([] & Hseqs & H).
  injection H as <-. cbn [_dataset _drop_last _max_batch_size _max_seqs].
  split; [reflexivity|]. split; [reflexivity|]. split; [|split; [|split]].
  - destruct batch_size; reflexivity.
  - intros b Hb. eapply min_value_positive_values; [|exact Hb].
    destruct batch_size; exact Hpos.
  - unfold py_assert in Hseqs.
    match type of Hseqs with (if ?c then _ else _) = _ => destruct c eqn:Hc end;
      [|discriminate].
    apply Z.ltb_lt in Hc. exact Hc.
  - reflexivity.
Qed.

Lemma batcher_loop_ext (a b : BatchingIterDataPipe float) :
  _max_batch_size a = _max_batch_size b ->
  _max_seqs a = _max_seqs b ->
  forall dataset st, batcher_loop a st dataset = batcher_loop b st dataset.
Proof.
  intros Hlim Hseqs. induction dataset as [|r rest IH]; intros st; [reflexivity|].
  cbn [batcher_loop].
  assert (Hstep : batcher_step a st r = batcher_step b st r).
  { unfold batcher_step, flush_if_full, budget_step. rewrite Hlim, Hseqs. reflexivity. }
  rewrite Hstep. destruct (batcher_step b st r) as [out st'].
  rewrite IH. reflexivity.
Qed.

(** *** Every record ends up in a batch *)

Lemma batcher_loop_concat (self : BatchingIterDataPipe float)
    (dataset : list (record float)) :
  forall st,
    List.concat (fst (batcher_loop self st dataset))
    ++ current_batch (snd (batcher_loop self st dataset))
    = current_batch st ++ dataset.
Proof.
  induction dataset as [|r rest IH]; intros st; cbn [batcher_loop].
  - cbn [fst snd List.concat]. rewrite app_nil_r. reflexivity.
  - assert (Hstep : List.concat (fst (batcher_step self st r))
                    ++ current_batch (snd (batcher_step self st r))
                    = current_batch st ++ [r]).
    { unfold batcher_step, flush_if_full, budget_step.
      destruct (Z.of_nat (List.length (current_batch st)) =? _max_seqs self)%Z.
      - simpl. rewrite app_nil_r. reflexivity.
      - destruct (negb (Nat.eqb (List.length (current_batch st)) 0)
                  && NumbersDict.any_compare (batch_size_if_included st r)
                       (_max_batch_size self) Z.gtb);
          simpl; rewrite ?app_nil_r; reflexivity. }
    destruct (batcher_step self st r) as [out st']. cbn [fst snd] in *.
    specialize (IH st').
    destruct (batcher_loop self st' rest) as [outs st'']. cbn [fst snd] in *.
    rewrite concat_app, <- app_assoc, IH, app_assoc, Hstep, <- app_assoc.
    reflexivity.
Qed.

Lemma batcher_loop_nonempty (self : BatchingIterDataPipe float)
    (dataset : list (record float)) :
  forall st, dataset <> [] ->
    current_batch (snd (batcher_loop self st dataset)) <> [].
Proof.
  induction dataset as [|r rest IH]; intros st Hne; [contradiction|].
  cbn [batcher_loop].
  assert (Hstep : current_batch (snd (batcher_step self st r)) <> []).
  { unfold batcher_step.
    destruct (flush_if_full self st) as [out1 st1].
    unfold budget_step.
    destruct (negb (Nat.eqb (List.length (current_batch st1)) 0)
              && NumbersDict.any_compare (batch_size_if_included st1 r)
                   (_max_batch_size self) Z.gtb);
      cbn [current_batch snd]; [discriminate|].
    destruct (current_batch st1); discriminate. }
  destruct (batcher_step self st r) as [out st']. cbn [fst snd] in *.
  destruct rest as [|r' rest'].
  - cbn [batcher_loop snd]. exact Hstep.
  - specialize (IH st').
    destruct (batcher_loop self st' (r' :: rest')) as [outs st'']. cbn [fst snd] in *.
    apply IH. discriminate.
Qed.

(** C2. In every batch of more than one record that the batcher yields,
    for every field with a limit, the largest length of the field in the
    batch times the number of records is at most the limit.  A record that
    exceeds a limit alone is the only record of its batch; such a batch is
    yielded whatever the limits: without [drop_last] the batches, joined,
    are the source, and a source of a single record gives that record as
    the only batch. *)
Theorem budget_bound_or_singleton (dataset : list (record float))
    (batch_size : size_spec) (max_seqs : option Z) (drop_last : bool)
    (self : BatchingIterDataPipe float) :
  BatchingIterDataPipe_init dataset batch_size max_seqs drop_last = Ok self ->
  (forall batch field budget,
      In batch (BatchingIterDataPipe_iter self) ->
      (1 < List.length batch)%nat ->
      NumbersDict.get (_max_batch_size self) field = Some budget ->
      (max_length_in_batch field batch * Z.of_nat (List.length batch) <= budget)%Z)
  /\ (forall batch r field budget,
        In batch (BatchingIterDataPipe_iter self) ->
        In r batch ->
        NumbersDict.get (_max_batch_size self) field = Some budget ->
        (budget < field_length r field)%Z ->
        batch = [r])
  /\ (drop_last = false ->
      List.concat (BatchingIterDataPipe_iter self) = dataset
      /\ forall r, dataset = [r] -> BatchingIterDataPipe_iter self = [[r]]).
Proof.
  intros Hinit.
  destruct (batching_init_spec _ _ _ _ _ Hinit) as (Hds & Hdl & _ & Hpos & Hseqs & _).
  assert (Hbound : forall batch field budget,
             In batch (BatchingIterDataPipe_iter self) ->
             (1 < List.length batch)%nat ->
             NumbersDict.get (_max_batch_size self) field = Some budget ->
             (max_length_in_batch field batch * Z.of_nat (List.length batch) <= budget)%Z).
  { intros batch field budget Hin Hlen Hb.
    pose proof (iter_good self Hpos) as Hgood.
    rewrite Forall_forall in Hgood.
    apply (Hgood batch Hin); [lia | exact Hb]. }
  split; [exact Hbound|]. split.
  - intros batch r field budget Hin Hr Hb Hover.
    pose proof (max_length_ge field batch r Hr) as Hmax.
    pose proof (Hpos budget (get_in_values _ _ _ Hb)) as Hbpos.
    destruct batch as [|r0 [|r1 batch']].
    + destruct Hr.
    + destruct Hr as [->|[]]. reflexivity.
    + exfalso.
      specialize (Hbound (r0 :: r1 :: batch') field budget Hin ltac:(simpl; lia) Hb).
      cbn [List.length] in Hbound. nia.
  - intros ->.
    assert (Hcat : List.concat (BatchingIterDataPipe_iter self) = dataset).
    { unfold BatchingIterDataPipe_iter. rewrite Hdl, Hds.
      pose proof (batcher_loop_concat self dataset initial_state) as Hc.
      destruct (batcher_loop self initial_state dataset) as [out st].
      cbn [fst snd current_batch initial_state app] in Hc.
      destruct (current_batch st) as [|r0 b0] eqn:Hcb; cbn [List.length Nat.eqb negb andb].
      - rewrite app_nil_r in Hc. exact Hc.
      - rewrite concat_app. cbn [List.concat]. rewrite app_nil_r. exact Hc. }
    split; [exact Hcat|].
    intros r ->.
    unfold BatchingIterDataPipe_iter. rewrite Hdl, Hds.
    cbn [batcher_loop]. unfold batcher_step, flush_if_full.
    cbn [initial_state current_batch List.length].
    destruct (Z.eqb_spec (Z.of_nat 0) (_max_seqs self)) as [Heq|_];
      [simpl in Heq; lia|].
    unfold budget_step. cbn [current_batch List.length Nat.eqb negb andb app].
    reflexivity.
Qed.

(** C5. At the comparison against the limits, with a current batch that
    is not empty: when the candidate cost of every field with a limit is at
    most the limit, the record joins the current batch and nothing is
    yielded, so a record that fills a limit exactly is accepted; and
    when the current batch is yielded, the candidate cost of some field is
    strictly above its limit. *)
Theorem exact_fill_is_accepted (dataset : list (record float))
    (batch_size : size_spec) (max_seqs : option Z) (drop_last : bool)
    (self : BatchingIterDataPipe float)
    (seen : list (record float)) (data_dict : record float)
    (st : batcher_state float) :
  BatchingIterDataPipe_init dataset batch_size max_seqs drop_last = Ok self ->
  st = snd (flush_if_full self (snd (batcher_loop self initial_state seen))) ->
  current_batch st <> [] ->
  ((forall field budget,
       NumbersDict.get (_max_batch_size self) field = Some budget ->
       (candidate_cost st data_dict field <= budget)%Z) ->
   budget_step self st data_dict
   = ([], mk_state (current_batch st ++ [data_dict])
                   (max_sequence_lengths_if_included st data_dict)))
  /\ (fst (budget_step self st data_dict) <> [] ->
      fst (budget_step self st data_dict) = [current_batch st]
      /\ current_batch (snd (budget_step self st data_dict)) = [data_dict]
      /\ exists field budget,
           NumbersDict.get (_max_batch_size self) field = Some budget
           /\ (budget < candidate_cost st data_dict field)%Z).
Proof.
  intros Hinit Hst Hne.
  destruct (batching_init_spec _ _ _ _ _ Hinit) as (_ & _ & _ & Hpos & _ & _).
  assert (Hinv : invariant self st).
  { rewrite Hst.
    apply (flush_if_full_invariant self).
    apply (batcher_loop_invariant self Hpos). apply invariant_initial. }
  unfold budget_step.
  destruct (Nat.eqb_spec (List.length (current_batch st)) 0) as [Hz|Hnz].
  { destruct (current_batch st); [contradiction | discriminate]. }
  cbn [negb andb].
  split.
  - intros Hall. rewrite (within_budget_accepts self Hpos st data_dict Hinv Hall).
    reflexivity.
  - destruct (NumbersDict.any_compare (batch_size_if_included st data_dict)
                (_max_batch_size self) Z.gtb) eqn:Hcmp; cbn [fst snd current_batch].
    + intros _. repeat split.
      exact (over_budget_iff self Hpos st data_dict Hinv Hcmp).
    + intros H. contradiction.
Qed.

(** C8. The loop over the source does not read [drop_last].  With a
    source that is not empty the batch accumulated at its end is not
    empty; without [drop_last] the batcher yields the batches of the loop
    and then this one, with [drop_last] exactly the batches of the loop. *)
Theorem drop_last_drops_only_final (dataset : list (record float))
    (batch_size : size_spec) (max_seqs : option Z)
    (keep drop : BatchingIterDataPipe float) :
  BatchingIterDataPipe_init dataset batch_size max_seqs false = Ok keep ->
  BatchingIterDataPipe_init dataset batch_size max_seqs true = Ok drop ->
  let out := fst (batcher_loop keep initial_state dataset) in
  let final := current_batch (snd (batcher_loop keep initial_state dataset)) in
  batcher_loop drop initial_state dataset = batcher_loop keep initial_state dataset
  /\ BatchingIterDataPipe_iter drop = out
  /\ (final <> [] -> BatchingIterDataPipe_iter keep = out ++ [final])
  /\ (final = [] -> BatchingIterDataPipe_iter keep = out)
  /\ (dataset <> [] -> final <> []).
Proof.
  intros Hkeep Hdrop out final.
  destruct (batching_init_spec _ _ _ _ _ Hkeep) as (Hds & Hdl & Hlim & _ & _ & Hseqs).
  destruct (batching_init_spec _ _ _ _ _ Hdrop) as (Hds' & Hdl' & Hlim' & _ & _ & Hseqs').
  assert (Hext : batcher_loop drop initial_state dataset
                 = batcher_loop keep initial_state dataset).
  { apply batcher_loop_ext; congruence. }
  split; [exact Hext|].
  unfold BatchingIterDataPipe_iter. rewrite Hds, Hds', Hdl, Hdl', Hext.
  pose proof (batcher_loop_nonempty keep dataset initial_state) as Hne.
  subst out final.
  destruct (batcher_loop keep initial_state dataset) as [out st].
  cbn [fst snd] in *. rewrite andb_false_r. cbn [negb]. rewrite andb_true_r.
  split; [reflexivity|]. split; [|split].
  - intros Hfin. destruct (current_batch st); [contradiction | reflexivity].
  - intros ->. reflexivity.
  - exact Hne.
Qed.

(** C9, as the code has it. A limit given as one int [B] is the limit of
    every field, and a yielded batch of more than one record in which some
    record has a field of length at least 1 (any scalar, any array with a
    non-empty leading axis) has at most [B] records, whatever [max_seqs]
    is. *)
Theorem int_limit_bounds_count (dataset : list (record float)) (B : Z)
    (max_seqs : option Z) (drop_last : bool) (self : BatchingIterDataPipe float)
    (batch : list (record float)) (r : record float) (field : string) :
  BatchingIterDataPipe_init dataset (SpecInt B) max_seqs drop_last = Ok self ->
  In batch (BatchingIterDataPipe_iter self) ->
  (1 < List.length batch)%nat ->
  In r batch ->
  (1 <= field_length r field)%Z ->
  (forall f, NumbersDict.get (_max_batch_size self) f = Some B)
  /\ (Z.of_nat (List.length batch) <= B)%Z.
Proof.
  intros Hinit Hin Hlen Hr Hf.
  destruct (batching_init_spec _ _ _ _ _ Hinit) as (_ & _ & Hlim & Hpos & _ & _).
  assert (Hget : forall f, NumbersDict.get (_max_batch_size self) f = Some B).
  { intros f. rewrite Hlim. reflexivity. }
  split; [exact Hget|].
  pose proof (iter_good self Hpos) as Hgood.
  rewrite Forall_forall in Hgood.
  assert (Hb := Hgood batch Hin ltac:(lia) field B (Hget field)).
  pose proof (max_length_ge field batch r Hr). nia.
Qed.

Lemma scalar_field_length (r : record float) (field : string) (s : scalar float) :
  dict_find r field = Some (Plain s) -> field_length r field = 1%Z.
Proof.
  unfold field_length. intros ->. reflexivity.
Qed.

End BatchingProperties.

(** ** Keys of a collated batch *)

Lemma list_ascii_of_string_app (a b : string) :
  list_ascii_of_string (a ++ b)
  = (list_ascii_of_string a ++ list_ascii_of_string b)%list.
Proof.
  induction a as [|c a IH]; simpl; [reflexivity | rewrite IH; reflexivity].
Qed.

Lemma list_ascii_of_string_inj (a b : string) :
  list_ascii_of_string a = list_ascii_of_string b -> a = b.
Proof.
  intros H. rewrite <- (string_of_list_ascii_of_string a),
    <- (string_of_list_ascii_of_string b), H. reflexivity.
Qed.

Lemma string_of_uint_digits (d : uint) :
  Forall (fun c => is_digit c = true) (list_ascii_of_string (NilEmpty.string_of_uint d)).
Proof.
  induction d; simpl; constructor; solve [reflexivity | assumption].
Qed.

Lemma string_of_nat_inj (i j : nat) : string_of_nat i = string_of_nat j -> i = j.
Proof.
  unfold string_of_nat. intros H.
  apply DecimalNat.Unsigned.to_uint_inj.
  pose proof (NilEmpty.usu (Nat.to_uint i)) as Hi.
  pose proof (NilEmpty.usu (Nat.to_uint j)) as Hj.
  rewrite H in Hi. rewrite Hi in Hj. injection Hj as Hj. exact Hj.
Qed.

Lemma digits_prefix (u : list ascii) :
  forall (v x y : list ascii) (c c' : ascii),
    Forall (fun a => is_digit a = true) u ->
    Forall (fun a => is_digit a = true) v ->
    is_digit c = false -> is_digit c' = false ->
    (u ++ c :: x = v ++ c' :: y)%list ->
    u = v /\ c :: x = c' :: y.
Proof.
  induction u as [|a u IH]; intros v x y c c' Hu Hv Hc Hc' H.
  - destruct v as [|b v]; simpl in H.
    + split; [reflexivity | exact H].
    + injection H as -> _. inversion Hv; subst. congruence.
  - destruct v as [|b v]; simpl in H.
    + injection H as -> _. inversion Hu; subst. congruence.
    + injection H as -> H.
      apply Forall_inv_tail in Hu. apply Forall_inv_tail in Hv.
      destruct (IH v x y c c' Hu Hv Hc Hc' H) as (-> & Hxy).
      split; [reflexivity | exact Hxy].
Qed.

(** A derived key determines the key and the axis it was made from. *)
Lemma size_key_inj (k k' : string) (i j : nat) :
  size_key k i = size_key k' j -> k = k' /\ i = j.
Proof.
  unfold size_key. intros H.
  apply (f_equal list_ascii_of_string) in H.
  rewrite !list_ascii_of_string_app in H.
  apply (f_equal (@List.rev ascii)) in H.
  rewrite !rev_app_distr in H. rewrite <- !app_assoc in H.
  cbn [list_ascii_of_string List.rev app] in H.
  apply digits_prefix in H; try reflexivity;
    try (apply Forall_rev; apply string_of_uint_digits).
  destruct H as (Hd & Hk).
  apply (f_equal (@List.rev ascii)) in Hd. rewrite !rev_involutive in Hd.
  apply list_ascii_of_string_inj in Hd.
  injection Hk as Hk.
  apply (f_equal (@List.rev ascii)) in Hk. rewrite !rev_involutive in Hk.
  apply list_ascii_of_string_inj in Hk.
  split; [exact Hk | apply string_of_nat_inj; exact Hd].
Qed.

Lemma dict_find_set {V : Type} (d : dict V) (k k' : string) (v : V) :
  dict_find (dict_set d k v) k'
  = if String.eqb k k' then Some v else dict_find d k'.
Proof.
  induction d as [|[k0 v0] d IH]; simpl.
  - reflexivity.
  - destruct (String.eqb_spec k0 k) as [->|Hne]; simpl.
    + destruct (String.eqb k k'); reflexivity.
    + rewrite IH. destruct (String.eqb_spec k0 k') as [->|Hne'].
      * destruct (String.eqb_spec k k'); [congruence | reflexivity].
      * reflexivity.
Qed.

Lemma dict_find_set_other {V : Type} (d : dict V) (k k' : string) (v : V) :
  k' <> k -> dict_find (dict_set d k v) k' = dict_find d k'.
Proof.
  intros Hne. rewrite dict_find_set.
  destruct (String.eqb_spec k k'); [congruence | reflexivity].
Qed.

Lemma dict_find_set_same {V : Type} (d : dict V) (k : string) (v : V) :
  dict_find (dict_set d k v) k = Some v.
Proof.
  rewrite dict_find_set, String.eqb_refl. reflexivity.
Qed.

(** ** Collation *)

Section CollationProperties.

Variable float : Type.
Variable float_zero : float.

(** *** Conversion between dtypes *)

Lemma to_dtype_same (d : torch_dtype) (b : nested float) : to_dtype d d b = b.
Proof.
  unfold to_dtype. destruct (torch_dtype_eq_dec d d); [reflexivity | contradiction].
Qed.

Lemma to_dtype_Rows (src tgt : torch_dtype) (rs : list (nested float)) :
  to_dtype src tgt (Rows rs) = Rows (map (to_dtype src tgt) rs).
Proof.
  unfold to_dtype. destruct (torch_dtype_eq_dec src tgt).
  - rewrite map_id. reflexivity.
  - reflexivity.
Qed.

Lemma promote_types_same (d : torch_dtype) : promote_types d d = d.
Proof. destruct d; reflexivity. Qed.

Lemma set_sizes_frame (key target : string) (ls : list (OutputType float)) :
  forall (axes : list nat) (res res' : dict (collated float)),
    set_sizes res key ls axes = Ok res' ->
    (forall i, In i axes -> target <> size_key key (i + 1)) ->
    dict_find res' target = dict_find res target.
Proof.
  induction axes as [|i axes IH]; intros res res' H Hne; cbn [set_sizes] in H.
  - injection H as <-. reflexivity.
  - apply bind_Ok in H. destruct H as (sizes & _ & H).
    rewrite (IH _ _ H) by (intros j Hj; apply Hne; right; exact Hj).
    apply dict_find_set_other. apply Hne. left. reflexivity.
Qed.

Lemma collate_key_frame (batch : list (record float)) (key target : string)
    (res res' : dict (collated float)) :
  collate_key float_zero batch res key = Ok res' ->
  target <> key ->
  (forall i, target <> size_key key i) ->
  dict_find res' target = dict_find res target.
Proof.
  unfold collate_key. intros H Hk Hs.
  apply bind_Ok in H. destruct H as (ls & _ & H).
  destruct ls as [|[t0|s0] ls']; [discriminate| |].
  - apply bind_Ok in H. destruct H as ([padded res1] & Hr & H).
    injection H as <-.
    rewrite dict_find_set_other by apply Hs.
    rewrite dict_find_set_other by exact Hk.
    destruct (Nat.ltb 0 (List.length (size t0))).
    + apply bind_Ok in Hr. destruct Hr as (p & _ & Hr).
      apply bind_Ok in Hr. destruct Hr as (res2 & Hset & Hr).
      injection Hr as _ <-.
      eapply set_sizes_frame; [exact Hset|]. intros i _. apply Hs.
    + apply bind_Ok in Hr. destruct Hr as (p & _ & Hr).
      injection Hr as _ <-. reflexivity.
  - injection H as <-. apply dict_find_set_other. exact Hk.
Qed.

(** A value that the step of [field] sets and no other step touches is
    in the result. *)
Lemma collate_keys_lookup (batch : list (record float)) (field target : string)
    (V : collated float) :
  (forall res res', collate_key float_zero batch res field = Ok res' ->
                    dict_find res' target = Some V) ->
  forall (ks : list string),
    (forall key, In key ks -> key <> field ->
                 target <> key /\ forall i, target <> size_key key i) ->
    forall res res',
      collate_keys float_zero batch res ks = Ok res' ->
      In field ks \/ dict_find res target = Some V ->
      dict_find res' target = Some V.
Proof.
  intros Hset. induction ks as [|key ks IH]; intros Hother res res' H Hin;
    cbn [collate_keys] in H.
  - injection H as <-. destruct Hin as [[]|Hin]. exact Hin.
  - apply bind_Ok in H. destruct H as (res1 & Hstep & H).
    apply (IH (fun k Hk => Hother k (or_intror Hk)) _ _ H).
    destruct (string_dec key field) as [->|Hne].
    + right. eapply Hset. exact Hstep.
    + destruct Hin as [[Heq|Hin]|Hin]; [congruence | left; exact Hin |].
      right. destruct (Hother key (or_introl eq_refl) Hne) as (H1 & H2).
      rewrite (collate_key_frame _ _ _ _ _ Hstep H1 H2). exact Hin.
Qed.

(** Under [no_collision] the steps of the other keys leave the entries of
    [field] alone. *)
Lemma other_keys_apart (ks : list string) (field : string) :
  no_collision ks -> In field ks ->
  (forall key, In key ks -> key <> field ->
               (field <> key /\ forall i, field <> size_key key i)
               /\ forall j, size_key field j <> key
                            /\ forall i, size_key field j <> size_key key i).
Proof.
  intros Hnc Hf key Hk Hne. split; [split|].
  - congruence.
  - intros i. apply Hnc; assumption.
  - intros j. split.
    + intros Heq. apply (Hnc key field j Hk Hf). symmetry. exact Heq.
    + intros i Heq. apply size_key_inj in Heq. destruct Heq as (Heq & _). congruence.
Qed.

Lemma dict_find_key {V : Type} (d : dict V) (k : string) (v : V) :
  dict_find d k = Some v -> In k (keys d).
Proof.
  intros H. apply dict_find_In in H. apply (in_map fst) in H. exact H.
Qed.

Lemma tensors_of_extents (field : string) :
  forall (batch : list (record float)) (ls : list (OutputType float)) (sizes : list nat),
    tensors_of batch field = Ok ls ->
    mapM (fun v => shape_at v 0) ls = Ok sizes ->
    sizes = map (leading_extent field) batch.
Proof.
  unfold tensors_of.
  induction batch as [|r batch IH]; intros ls sizes Hls Hsz; cbn [mapM] in Hls.
  - injection Hls as <-. injection Hsz as <-. reflexivity.
  - apply bind_Ok in Hls. destruct Hls as (l & Hl & Hls).
    apply bind_Ok in Hls. destruct Hls as (ls' & Hls' & Hls). injection Hls as <-.
    cbn [mapM] in Hsz.
    apply bind_Ok in Hsz. destruct Hsz as (s & Hs & Hsz).
    apply bind_Ok in Hsz. destruct Hsz as (sizes' & Hsz' & Hsz). injection Hsz as <-.
    cbn [map]. f_equal; [|eapply IH; eauto].
    apply bind_Ok in Hl. destruct Hl as (v & Hv & Hl).
    unfold dict_get in Hv. unfold leading_extent.
    destruct (dict_find r field) as [v'|]; [|discriminate]. injection Hv as ->.
    destruct v as [a|sc]; simpl in Hl.
    + destruct (dtype a); try discriminate; injection Hl as <-;
        simpl in Hs; unfold list_index in Hs;
        destruct (shape a) as [|n tr]; simpl in Hs; try discriminate;
        injection Hs as <-; reflexivity.
    + injection Hl as <-. discriminate.
Qed.

Lemma collate_key_sizes (first : record float) (rest : list (record float))
    (field : string) (a0 : ndarray float) (res res' : dict (collated float)) :
  dict_find first field = Some (Array a0) ->
  shape a0 <> [] ->
  (forall i, field <> size_key field i) ->
  collate_key float_zero (first :: rest) res field = Ok res' ->
  dict_find res' (size_key field 1)
  = Some (CTensor (tensor_of_ints (map (leading_extent field) (first :: rest))))
  /\ dict_find res' (size_key field 0)
     = Some (CTensor (tensor_of_int (List.length (first :: rest)))).
Proof.
  intros Hfirst Hshape Hself H. unfold collate_key in H.
  apply bind_Ok in H. destruct H as (ls & Hls & H).
  pose proof (mapM_length _ _ _ Hls) as Hlen.
  assert (Hhead : exists t0 ls', ls = TensorV t0 :: ls' /\ size t0 = shape a0).
  { cbn [mapM] in Hls.
    apply bind_Ok in Hls. destruct Hls as (l & Hl & Hls).
    apply bind_Ok in Hls. destruct Hls as (ls' & _ & Hls). injection Hls as <-.
    unfold dict_get in Hl. rewrite Hfirst in Hl. cbn [bind create_tensor] in Hl.
    destruct (dtype a0); try discriminate; injection Hl as <-;
      eexists; eexists; split; reflexivity. }
  destruct Hhead as (t0 & ls' & -> & Hsize).
  apply bind_Ok in H. destruct H as ([padded res1] & Hr & H).
  injection H as <-.
  rewrite Hsize in Hr.
  destruct (shape a0) as [|n0 trailing] eqn:Hsh; [contradiction|].
  cbn [List.length Nat.ltb Nat.leb seq] in Hr.
  apply bind_Ok in Hr. destruct Hr as (p & _ & Hr).
  apply bind_Ok in Hr. destruct Hr as (res2 & Hset & Hr).
  injection Hr as _ <-.
  cbn [set_sizes] in Hset.
  apply bind_Ok in Hset. destruct Hset as (sizes & Hsizes & Hset).
  assert (Hsizes' : sizes = map (leading_extent field) (first :: rest)).
  { eapply tensors_of_extents; [exact Hls | exact Hsizes]. }
  split.
  - rewrite dict_find_set_other
      by (intros Heq; apply size_key_inj in Heq; destruct Heq; discriminate).
    rewrite dict_find_set_other by (intros Heq; apply (Hself 1%nat); symmetry; exact Heq).
    rewrite (set_sizes_frame field (size_key field 1) _ _ _ _ Hset).
    + change (0 + 1)%nat with 1%nat. rewrite dict_find_set_same, Hsizes'. reflexivity.
    + intros i Hi Heq. apply in_seq in Hi.
      apply size_key_inj in Heq. destruct Heq as (_ & Heq). lia.
  - rewrite dict_find_set_same. do 3 f_equal. exact Hlen.
Qed.

(** C4, as the code has it. In the output of [collate_batch] for a batch
    whose field names do not collide with derived names, for a field whose
    value in the first record is an array with at least one axis,
    [<field>:size1] is the tensor of the records' leading extents of the
    field, in the order of the batch, and [<field>:size0] is the number of
    records. *)
Theorem size_fields_record_extents (batch : list (record float))
    (first : record float) (rest : list (record float)) (field : string)
    (a0 : ndarray float) (res : dict (collated float)) :
  batch = first :: rest ->
  no_collision (keys first) ->
  dict_find first field = Some (Array a0) ->
  shape a0 <> [] ->
  collate_batch float_zero batch = Ok res ->
  dict_find res (size_key field 1)
  = Some (CTensor (tensor_of_ints (map (leading_extent field) batch)))
  /\ dict_find res (size_key field 0)
     = Some (CTensor (tensor_of_int (List.length batch))).
Proof.
  intros -> Hnc Hfirst Hshape H. unfold collate_batch in H.
  pose proof (dict_find_key _ _ _ Hfirst) as Hin.
  assert (Hself : forall i, field <> size_key field i).
  { intros i. apply Hnc; assumption. }
  pose proof (other_keys_apart _ _ Hnc Hin) as Hapart.
  split.
  - eapply (collate_keys_lookup (first :: rest) field); [| |exact H|left; exact Hin].
    + intros res0 res1 Hstep.
      exact (proj1 (collate_key_sizes _ _ _ _ _ _ Hfirst Hshape Hself Hstep)).
    + intros key Hk Hne. exact (proj2 (Hapart key Hk Hne) 1%nat).
  - eapply (collate_keys_lookup (first :: rest) field); [| |exact H|left; exact Hin].
    + intros res0 res1 Hstep.
      exact (proj2 (collate_key_sizes _ _ _ _ _ _ Hfirst Hshape Hself Hstep)).
    + intros key Hk Hne. exact (proj2 (Hapart key Hk Hne) 0%nat).
Qed.


(** *** Batches that collate *)

Lemma all_have_In (key : string) (p : InputType float -> bool)
    (batch : list (record float)) (r : record float) :
  all_have key p batch = true -> In r batch ->
  exists v, dict_find r key = Some v /\ p v = true.
Proof.
  unfold all_have. rewrite forallb_forall. intros H Hin.
  specialize (H r Hin). destruct (dict_find r key) as [v|]; [eauto | discriminate].
Qed.

Lemma mapM_map {A B C : Type} (f : B -> result C) (g : A -> B) (l : list A) :
  mapM f (map g l) = mapM (fun a => f (g a)) l.
Proof.
  induction l as [|a l IH]; simpl; [reflexivity | rewrite IH; reflexivity].
Qed.

Lemma tensors_of_arrays (field : string) (p : InputType float -> bool)
    (batch : list (record float)) :
  (forall v, p v = true -> exists a d, v = Array a /\ to_torch (dtype a) = Some d) ->
  all_have field p batch = true ->
  tensors_of batch field = Ok (map (fun r => TensorV (field_tensor field r)) batch).
Proof.
  intros Hp Hall. unfold tensors_of. apply mapM_total.
  intros r Hr. destruct (all_have_In _ _ _ _ Hall Hr) as (v & Hv & Hpv).
  destruct (Hp v Hpv) as (a & d & -> & Hd).
  unfold dict_get, field_tensor. rewrite Hv. cbn [bind create_tensor].
  rewrite Hd. destruct (dtype a); simpl in Hd; try discriminate;
    injection Hd as <-; reflexivity.
Qed.


Lemma paddable_field_tensor (field : string) (trailing : list nat)
    (batch : list (record float)) (r : record float) :
  all_have field (paddable trailing) batch = true -> In r batch ->
  exists a, dict_find r field = Some (Array a)
            /\ shape a = List.length (rows_of field r) :: trailing
            /\ data a = Rows (rows_of field r)
            /\ leading_extent field r = List.length (rows_of field r)
            /\ size (field_tensor field r) = leading_extent field r :: trailing
            /\ t_data (field_tensor field r) = Rows (rows_of field r).
Proof.
  intros Hall Hr. destruct (all_have_In _ _ _ _ Hall Hr) as (v & Hv & Hp).
  unfold rows_of, leading_extent, field_tensor. rewrite Hv.
  destruct v as [a|sc]; [|discriminate]. simpl in Hp.
  destruct (to_torch (dtype a)); [|discriminate].
  destruct (shape a) as [|n tr] eqn:Hshape; [discriminate|].
  destruct (data a) as [x|rs] eqn:Hdata; [discriminate|].
  apply andb_prop in Hp. destruct Hp as (Htr & Hn).
  destruct (list_eq_dec Nat.eq_dec tr trailing) as [->|]; [|discriminate].
  apply Nat.eqb_eq in Hn. subst n.
  exists a. cbn [size t_data]. rewrite ?Hshape, ?Hdata. cbn [hd].
  repeat split; reflexivity.
Qed.

Lemma pad_sequence_paddable (field : string) (first : record float)
    (rest : list (record float)) (n0 : nat) (trailing : list nat) :
  size (field_tensor field first) = n0 :: trailing ->
  all_have field (paddable trailing) (first :: rest) = true ->
  let batch := first :: rest in
  let d0 := t_dtype (field_tensor field first) in
  let max_len := list_max (map (leading_extent field) batch) in
  pad_sequence float_zero (map (fun r => TensorV (field_tensor field r)) batch)
  = Ok (mk_Tensor d0 (List.length batch :: max_len :: trailing)
          (Rows (map (fun r => Rows (padded_rows d0 (zero_of float_zero d0) max_len
                                                 trailing field r)) batch))).
Proof.
  intros Hsize Hall batch d0 max_len. unfold pad_sequence.
  rewrite mapM_map.
  rewrite (mapM_total _ (field_tensor field) batch) by (intros; reflexivity).
  cbn [bind]. unfold batch at 1. cbn [map]. rewrite Hsize.
  fold batch.
  assert (Hlens : mapM (@size0 float) (map (field_tensor field) batch)
                  = Ok (map (leading_extent field) batch)).
  { rewrite mapM_map. apply mapM_total. intros r Hr.
    destruct (paddable_field_tensor _ _ _ _ Hall Hr) as (a & _ & _ & _ & _ & Hs & _).
    unfold size0. rewrite Hs. reflexivity. }
  change (field_tensor field first :: map (field_tensor field) rest)
    with (map (field_tensor field) batch).
  rewrite Hlens. cbn [bind]. fold max_len.
  rewrite mapM_map.
  rewrite (mapM_total _ (fun r => Rows (padded_rows d0 (zero_of float_zero d0) max_len
                                                    trailing field r)) batch).
  - cbn [bind]. rewrite length_map. reflexivity.
  - intros r Hr.
    destruct (paddable_field_tensor _ _ _ _ Hall Hr) as (a & _ & _ & _ & _ & Hs & Hd).
    unfold padded_row, size0, copy_. rewrite Hs. cbn [bind].
    destruct (list_eq_dec Nat.eq_dec (leading_extent field r :: trailing)
                (leading_extent field r :: trailing)); [|contradiction].
    cbn [bind]. rewrite Hd, to_dtype_Rows. reflexivity.
Qed.

Lemma set_sizes_total (key : string) (ls : list (OutputType float)) (N : nat) :
  (forall l, In l ls -> exists t, l = TensorV t /\ List.length (size t) = N) ->
  forall (axes : list nat) (res : dict (collated float)),
    (forall i, In i axes -> (i < N)%nat) ->
    exists res', set_sizes res key ls axes = Ok res'.
Proof.
  intros Hls. induction axes as [|i axes IH]; intros res Hax; cbn [set_sizes].
  - eauto.
  - assert (Hm : mapM (fun v => shape_at v i) ls
                 = Ok (map (fun v => match shape_at v i with
                                     | Ok n => n | Raise _ => 0%nat end) ls)).
    { apply mapM_total. intros l Hl. destruct (Hls l Hl) as (t & -> & Hlen).
      unfold shape_at, list_index.
      destruct (nth_error (size t) i) eqn:Hn; [reflexivity|].
      apply nth_error_None in Hn. specialize (Hax i (or_introl eq_refl)). lia. }
    rewrite Hm. cbn [bind]. apply IH. intros j Hj. apply Hax. right. exact Hj.
Qed.

(** The step of a key whose first value is a tensor. *)
Lemma collate_key_tensor (batch : list (record float)) (key : string)
    (res : dict (collated float)) (ls ls' : list (OutputType float)) (t0 : Tensor float) :
  tensors_of batch key = Ok ls ->
  ls = TensorV t0 :: ls' ->
  collate_key float_zero batch res key
  = (r <- (if Nat.ltb 0 (List.length (size t0)) then
             padded <- pad_sequence float_zero ls ;;
             res <- set_sizes res key ls (seq 0 (List.length (size t0))) ;;
             Ok (padded, res)
           else
             padded <- stack ls ;;
             Ok (padded, res)) ;;
     Ok (dict_set (dict_set (snd r) key (CTensor (fst r))) (size_key key 0)
           (CTensor (tensor_of_int (List.length ls))))).
Proof.
  intros Hls Heq. unfold collate_key.
  change (mapM (fun sample => v <- dict_get sample key ;; create_tensor v) batch)
    with (tensors_of batch key).
  rewrite Hls. cbn [bind]. rewrite Heq.
  destruct (Nat.ltb 0 (List.length (size t0))).
  - destruct (pad_sequence float_zero (TensorV t0 :: ls')); [|reflexivity].
    cbn [bind]. destruct (set_sizes res key (TensorV t0 :: ls') _); reflexivity.
  - destruct (stack (TensorV t0 :: ls')); reflexivity.
Qed.

Lemma stackable_size (key : string) (batch : list (record float)) (r : record float) :
  all_have key stackable batch = true -> In r batch ->
  size (field_tensor key r) = [].
Proof.
  intros Hall Hr. destruct (all_have_In _ _ _ _ Hall Hr) as (v & Hv & Hp).
  unfold field_tensor. rewrite Hv.
  destruct v as [a|]; [|discriminate]. simpl in Hp. cbn [size].
  destruct (to_torch (dtype a)); [|discriminate].
  destruct (shape a); [reflexivity | discriminate].
Qed.

Lemma stack_stackable (key : string) (first : record float) (rest : list (record float)) :
  all_have key stackable (first :: rest) = true ->
  exists p, stack (map (fun r => TensorV (field_tensor key r)) (first :: rest)) = Ok p.
Proof.
  intros Hall. unfold stack. rewrite mapM_map.
  rewrite (mapM_total _ (field_tensor key) (first :: rest)) by (intros; reflexivity).
  cbn [bind map].
  assert (Hf : forallb (fun t => if list_eq_dec Nat.eq_dec (size t)
                                      (size (field_tensor key first))
                                 then true else false)
                 (field_tensor key first :: map (field_tensor key) rest) = true).
  { apply forallb_forall. intros t Ht.
    change (In t (map (field_tensor key) (first :: rest))) in Ht.
    apply in_map_iff in Ht. destruct Ht as (r & <- & Hr).
    rewrite (stackable_size key _ r Hall Hr).
    rewrite (stackable_size key _ first Hall (or_introl eq_refl)).
    destruct (list_eq_dec Nat.eq_dec (@nil nat) []); [reflexivity | contradiction]. }
  rewrite Hf. eauto.
Qed.

Lemma array_kinds (p : InputType float -> bool) :
  (p = stackable \/ exists trailing, p = paddable trailing) ->
  forall v, p v = true -> exists a d, v = Array a /\ to_torch (dtype a) = Some d.
Proof.
  intros Hp v Hv.
  assert (H : match v with
              | Array a => to_torch (dtype a) <> None
              | Plain _ => False
              end).
  { destruct Hp as [->|(trailing & ->)]; destruct v as [a|]; simpl in Hv;
      try discriminate; destruct (to_torch (dtype a)); discriminate. }
  destruct v as [a|]; [|contradiction].
  destruct (to_torch (dtype a)) as [d|] eqn:Hd; [|congruence].
  exists a, d. split; [reflexivity | exact Hd].
Qed.

Lemma plain_tensors_total (key : string) (batch : list (record float)) :
  all_have key creatable batch = true ->
  exists ls, tensors_of batch key = Ok ls.
Proof.
  unfold tensors_of, all_have.
  induction batch as [|r batch IH]; cbn [mapM forallb]; intros Hall; [eauto|].
  apply andb_prop in Hall. destruct Hall as (Hr & Hall).
  unfold dict_get at 1.
  destruct (dict_find r key) as [v|]; [|discriminate]. cbn [bind].
  destruct (IH Hall) as (ls' & ->).
  destruct v as [a|sc]; cbn [create_tensor creatable] in *.
  - destruct (dtype a); simpl in Hr; try discriminate; cbn [bind]; eauto.
  - cbn [bind]. eauto.
Qed.

Lemma collate_key_total (batch : list (record float)) (key : string) :
  collatable_field batch key = true ->
  forall res, exists res', collate_key float_zero batch res key = Ok res'.
Proof.
  unfold collatable_field. intros Hc res.
  destruct batch as [|first rest]; [discriminate|].
  destruct (dict_find first key) as [[a0|s0]|] eqn:Hfirst; [| |discriminate].
  - assert (Hs0 : size (field_tensor key first) = shape a0).
    { unfold field_tensor. rewrite Hfirst. reflexivity. }
    destruct (shape a0) as [|n0 trailing] eqn:Hshape.
    + (* 0-d arrays are stacked *)
      pose proof (tensors_of_arrays key stackable (first :: rest)
                    (array_kinds _ (or_introl eq_refl)) Hc) as Hls.
      rewrite (collate_key_tensor _ _ res _ _ _ Hls eq_refl).
      rewrite Hs0. cbn [List.length Nat.ltb Nat.leb].
      destruct (stack_stackable key first rest Hc) as (p & ->).
      cbn [bind]. eauto.
    + (* arrays with an axis are padded *)
      pose proof (tensors_of_arrays key (paddable trailing) (first :: rest)
                    (array_kinds _ (or_intror (ex_intro _ trailing eq_refl))) Hc) as Hls.
      rewrite (collate_key_tensor _ _ res _ _ _ Hls eq_refl).
      rewrite Hs0. cbn [List.length Nat.ltb Nat.leb].
      rewrite (pad_sequence_paddable key first rest n0 trailing Hs0 Hc).
      cbn [bind].
      destruct (set_sizes_total key
                  (map (fun r => TensorV (field_tensor key r)) (first :: rest))
                  (S (List.length trailing))) with
        (axes := seq 0 (S (List.length trailing))) (res := res) as (res1 & Hres1).
      * intros l Hl. apply in_map_iff in Hl. destruct Hl as (r & <- & Hr).
        eexists. split; [reflexivity|].
        destruct (paddable_field_tensor _ _ _ _ Hc Hr) as (_ & _ & _ & _ & _ & Hs & _).
        rewrite Hs. reflexivity.
      * intros i Hi. apply in_seq in Hi. lia.
      * rewrite Hres1. cbn [bind]. eauto.
  - (* plain values are passed on as a list *)
    destruct (plain_tensors_total key (first :: rest) Hc) as (ls & Hls).
    unfold collate_key.
    change (mapM (fun sample => v <- dict_get sample key ;; create_tensor v) (first :: rest))
      with (tensors_of (first :: rest) key).
    rewrite Hls. cbn [bind].
    unfold tensors_of in Hls. cbn [mapM] in Hls. unfold dict_get at 1 in Hls.
    rewrite Hfirst in Hls. cbn [bind create_tensor] in Hls.
    destruct (mapM (fun sample => v <- dict_get sample key ;; create_tensor v) rest);
      [|discriminate].
    cbn [bind] in Hls. injection Hls as <-. eauto.
Qed.

Lemma collate_keys_total (batch : list (record float)) :
  forall (ks : list string) (res : dict (collated float)),
    (forall k, In k ks -> collatable_field batch k = true) ->
    exists res', collate_keys float_zero batch res ks = Ok res'.
Proof.
  induction ks as [|k ks IH]; intros res Hall; cbn [collate_keys]; [eauto|].
  destruct (collate_key_total batch k (Hall k (or_introl eq_refl)) res) as (res1 & ->).
  cbn [bind]. apply IH. intros k' Hk'. apply Hall. right. exact Hk'.
Qed.


(** *** Padding *)

Lemma elements_full (x : number float) (dims : list nat) :
  forall y, In y (elements (full dims x)) -> y = x.
Proof.
  induction dims as [|n dims IH]; intros y Hy; cbn [full elements] in Hy.
  - destruct Hy as [<-|[]]. reflexivity.
  - apply in_flat_map in Hy. destruct Hy as (b & Hb & Hy).
    apply repeat_spec in Hb. subst b. apply IH. exact Hy.
Qed.

Lemma leading_extent_le_max (field : string) (batch : list (record float))
    (r : record float) :
  In r batch ->
  (leading_extent field r <= list_max (map (leading_extent field) batch))%nat.
Proof.
  intros Hr.
  assert (H : Forall (fun k => (k <= list_max (map (leading_extent field) batch))%nat)
                (map (leading_extent field) batch)).
  { apply list_max_le. apply Nat.le_refl. }
  rewrite Forall_forall in H. apply H. apply in_map. exact Hr.
Qed.

(** C1, as the code has it. For a non-empty batch whose field names do not
    collide with derived names, and for a field whose values are arrays with
    at least one axis that agree in every extent but the leading one: the
    entry of the field in the output of [collate_batch] is a tensor of shape
    [[len(batch), max_len] + trailing], with [max_len] the largest leading
    extent in the batch, in the dtype of the first record's array, whose
    row for record [i] is the rows of that record's array, converted to that
    dtype where the record's dtype is another one, followed by blocks of
    zeros up to [max_len]; and [collate_batch] returns when the values of
    every key are of one kind. *)
Theorem pads_leading_axis_with_zeros (batch : list (record float))
    (first : record float) (rest : list (record float)) (field : string)
    (a0 : ndarray float) (n0 : nat) (trailing : list nat) :
  batch = first :: rest ->
  no_collision (keys first) ->
  dict_find first field = Some (Array a0) ->
  shape a0 = n0 :: trailing ->
  all_have field (paddable trailing) batch = true ->
  let max_len := list_max (map (leading_extent field) batch) in
  exists d0 rows,
    to_torch (dtype a0) = Some d0
    /\ List.length rows = List.length batch
    /\ (forall i r, nth_error batch i = Some r ->
          exists a d rs prow,
            dict_find r field = Some (Array a)
            /\ to_torch (dtype a) = Some d
            /\ shape a = List.length rs :: trailing
            /\ data a = Rows rs
            /\ nth_error rows i = Some (Rows prow)
            /\ List.length prow = max_len
            /\ (forall j, (j < List.length rs)%nat ->
                  nth_error prow j = option_map (to_dtype d d0) (nth_error rs j))
            /\ (d = d0 ->
                forall j, (j < List.length rs)%nat -> nth_error prow j = nth_error rs j)
            /\ (forall j, (List.length rs <= j < max_len)%nat ->
                  nth_error prow j = Some (full trailing (zero_of float_zero d0))
                  /\ forall x, In x (elements (full trailing (zero_of float_zero d0))) ->
                               x = zero_of float_zero d0))
    /\ (forall res,
          collate_batch float_zero batch = Ok res ->
          dict_find res field
          = Some (CTensor (mk_Tensor d0 (List.length batch :: max_len :: trailing)
                             (Rows rows))))
    /\ ((forall k, In k (keys first) -> collatable_field batch k = true) ->
        exists res, collate_batch float_zero batch = Ok res).
Proof.
  intros Hbatch Hnc Hfirst Hshape Hc max_len. subst batch.
  pose proof (dict_find_key _ _ _ Hfirst) as Hin.
  assert (Hd0 : exists d0, to_torch (dtype a0) = Some d0).
  { destruct (all_have_In _ _ _ _ Hc (or_introl eq_refl)) as (v & Hv & Hp).
    rewrite Hfirst in Hv. injection Hv as <-. simpl in Hp.
    destruct (to_torch (dtype a0)); [eauto | discriminate]. }
  destruct Hd0 as (d0 & Hd0).
  assert (Hs0 : size (field_tensor field first) = n0 :: trailing).
  { unfold field_tensor. rewrite Hfirst. exact Hshape. }
  assert (Ht0 : t_dtype (field_tensor field first) = d0).
  { unfold field_tensor. rewrite Hfirst. cbn [t_dtype]. rewrite Hd0. reflexivity. }
  set (rows := map (fun r => Rows (padded_rows d0 (zero_of float_zero d0) max_len
                                                trailing field r)) (first :: rest)).
  set (V := CTensor (mk_Tensor d0 (List.length (first :: rest) :: max_len :: trailing)
                       (Rows rows))).
  exists d0, rows.
  split; [exact Hd0|]. split; [unfold rows; apply length_map|].
  split; [|split].
  - intros i r Hi.
    assert (Hr : In r (first :: rest)) by (eapply nth_error_In; exact Hi).
    destruct (paddable_field_tensor _ _ _ _ Hc Hr)
      as (a & Ha & Hsh & Hda & Hle & _ & _).
    pose proof (leading_extent_le_max field (first :: rest) r Hr) as Hmax.
    fold max_len in Hmax.
    assert (Hd : exists d, to_torch (dtype a) = Some d
                           /\ t_dtype (field_tensor field r) = d).
    { destruct (all_have_In _ _ _ _ Hc Hr) as (v & Hv & Hp).
      rewrite Ha in Hv. injection Hv as <-. simpl in Hp.
      unfold field_tensor. rewrite Ha. cbn [t_dtype].
      destruct (to_torch (dtype a)) as [d|]; [eauto | discriminate]. }
    destruct Hd as (d & Hd & Htd).
    exists a, d, (rows_of field r), (padded_rows d0 (zero_of float_zero d0) max_len
                                       trailing field r).
    split; [exact Ha|]. split; [exact Hd|]. split; [exact Hsh|]. split; [exact Hda|].
    split; [|split; [|split; [|split]]].
    + unfold rows. rewrite nth_error_map, Hi. reflexivity.
    + unfold padded_rows. rewrite length_app, length_map, repeat_length. lia.
    + intros j Hj. unfold padded_rows.
      rewrite nth_error_app1 by (rewrite length_map; exact Hj).
      rewrite nth_error_map, Htd. reflexivity.
    + intros -> j Hj. unfold padded_rows.
      rewrite nth_error_app1 by (rewrite length_map; exact Hj).
      rewrite nth_error_map, Htd.
      destruct (nth_error (rows_of field r) j); cbn [option_map];
        [rewrite to_dtype_same; reflexivity | reflexivity].
    + intros j Hj. split; [|apply elements_full].
      unfold padded_rows. rewrite nth_error_app2 by (rewrite length_map; lia).
      rewrite length_map. apply nth_error_repeat. lia.
  - intros res Hres.
    pose proof (other_keys_apart _ _ Hnc Hin) as Hapart.
    eapply (collate_keys_lookup (first :: rest) field field V);
      [| |exact Hres|left; exact Hin].
    + intros res0 res1 Hstep.
      pose proof (tensors_of_arrays field (paddable trailing) (first :: rest)
                    (array_kinds _ (or_intror (ex_intro _ trailing eq_refl))) Hc) as Hls.
      rewrite (collate_key_tensor _ _ res0 _ _ _ Hls eq_refl) in Hstep.
      rewrite Hs0 in Hstep. cbn [List.length Nat.ltb Nat.leb] in Hstep.
      rewrite (pad_sequence_paddable field first rest n0 trailing Hs0 Hc) in Hstep.
      cbn [bind] in Hstep.
      apply bind_Ok in Hstep. destruct Hstep as ([p r2] & Hr & Hstep).
      apply bind_Ok in Hr. destruct Hr as (res2 & _ & Hr).
      injection Hr as <- <-. injection Hstep as <-. cbn [fst snd].
      rewrite dict_find_set_other by (apply Hnc; assumption).
      rewrite dict_find_set_same. rewrite Ht0. reflexivity.
    + intros key Hk Hne. exact (proj1 (Hapart key Hk Hne)).
  - intros Hcoll. exact (collate_keys_total (first :: rest) (keys first) [] Hcoll).
Qed.

End CollationProperties.

(* ------------------------------------------------------------------ *)
(** * Worked examples *)


Import Examples.


Lemma mismatch_is_fatal_witness :
  exists e,
    chunking_loop (chunker [x7_y4] (NumbersDict.of_dict [("x", 3%Z); ("y", 3%Z)]))
      ["x"; "y"] [x7_y4] = ([], Some e).
Proof.
  destruct (mismatch_is_fatal unit
              (chunker [x7_y4] (NumbersDict.of_dict [("x", 3%Z); ("y", 3%Z)]))
              ["x"; "y"] ["x"; "y"] x7_y4 [] "x" "y"
              [vector [0; 1; 2]%Z; vector [3; 4; 5]%Z; vector [6]%Z]
              [vector [0; 1; 2]%Z; vector [3]%Z])
    as (e & _ & H & _).
  - reflexivity.
  - left. reflexivity.
  - right. left. reflexivity.
  - reflexivity.
  - reflexivity.
  - discriminate.
  - exists e. exact H.
Defined.

Lemma reserved_keys_required_witness :
  ChunkingIterDataPipe_iter (chunker [no_seq_idx] (NumbersDict.of_int 3))
  = ([], Some ValueError).
Proof.
  apply (reserved_keys_required unit (chunker [no_seq_idx] (NumbersDict.of_int 3))
           no_seq_idx []).
  - reflexivity.
  - reflexivity.
  - right. intros [H|[H|[]]]; discriminate.
Defined.

(** C6 as the specification states it fails: construction accepts a dataset
    whose record has only the reserved fields, and the failure comes with the
    first record, during iteration. *)
Lemma construction_accepts_records_without_data :
  ChunkingIterDataPipe_init [only_reserved] (ChunkingOne (SpecInt 3))
  = Ok (chunker [only_reserved] (NumbersDict.of_int 3))
  /\ ChunkingIterDataPipe_iter (chunker [only_reserved] (NumbersDict.of_int 3))
     = ([], Some (AssertionError no_data_msg)).
Proof.
  split; reflexivity.
Qed.

Lemma no_data_detected_at_first_record_witness :
  ChunkingIterDataPipe_iter (chunker [only_reserved] (NumbersDict.of_int 3))
  = ([], Some (AssertionError no_data_msg)).
Proof.
  apply (no_data_detected_at_first_record unit (ChunkingOne (SpecInt 3))
           only_reserved [] (chunker [only_reserved] (NumbersDict.of_int 3))).
  - reflexivity.
  - reflexivity.
  - repeat constructor; simpl; intuition discriminate.
  - left. reflexivity.
  - right. left. reflexivity.
  - reflexivity.
Defined.

Lemma budget_bound_or_singleton_witness :
  (max_length_in_batch "x" [x3; x2] * Z.of_nat (List.length [x3; x2]) <= 10)%Z
  /\ BatchingIterDataPipe_iter (batcher [x3] (NumbersDict.of_dict [("x", 2%Z)]) false)
     = [[x3]].
Proof.
  split.
  - apply (proj1 (budget_bound_or_singleton unit [x3; x2] (SpecDict [("x", 10%Z)])
                    (Some 10%Z) false
                    (batcher [x3; x2] (NumbersDict.of_dict [("x", 10%Z)]) false)
                    eq_refl)
             [x3; x2] "x" 10%Z).
    + left. reflexivity.
    + simpl. lia.
    + reflexivity.
  - apply (proj2 (proj2 (budget_bound_or_singleton unit [x3] (SpecDict [("x", 2%Z)])
                           (Some 10%Z) false
                           (batcher [x3] (NumbersDict.of_dict [("x", 2%Z)]) false)
                           eq_refl))
             eq_refl).
    reflexivity.
Defined.

Lemma exact_fill_is_accepted_witness :
  budget_step (batcher [x3; x2] (NumbersDict.of_dict [("x", 6%Z)]) false)
    (mk_state [x3] (NumbersDict.mk [("x", 3%Z)] (Some 0%Z))) x2
  = ([], mk_state [x3; x2] (NumbersDict.mk [("x", 3%Z)] (Some 0%Z))).
Proof.
  refine (proj1 (exact_fill_is_accepted unit [x3; x2] (SpecDict [("x", 6%Z)])
                   (Some 10%Z) false
                   (batcher [x3; x2] (NumbersDict.of_dict [("x", 6%Z)]) false)
                   [x3] x2
                   (mk_state [x3] (NumbersDict.mk [("x", 3%Z)] (Some 0%Z)))
                   eq_refl eq_refl _) _).
  - discriminate.
  - intros field budget H.
    change (NumbersDict.get (NumbersDict.of_dict [("x", 6%Z)]) field = Some budget) in H.
    unfold NumbersDict.get, NumbersDict.of_dict in H.
    cbn [NumbersDict.dict_ NumbersDict.value dict_find] in H.
    destruct (String.eqb_spec "x" field) as [<-|Hne]; [|discriminate].
    injection H as <-. vm_compute. discriminate.
Defined.

Lemma drop_last_drops_only_final_witness :
  BatchingIterDataPipe_iter (batcher [x3; x2] (NumbersDict.of_dict [("x", 10%Z)]) true) = []
  /\ BatchingIterDataPipe_iter (batcher [x3; x2] (NumbersDict.of_dict [("x", 10%Z)]) false)
     = [[x3; x2]].
Proof.
  destruct (drop_last_drops_only_final unit [x3; x2] (SpecDict [("x", 10%Z)]) (Some 10%Z)
              (batcher [x3; x2] (NumbersDict.of_dict [("x", 10%Z)]) false)
              (batcher [x3; x2] (NumbersDict.of_dict [("x", 10%Z)]) true)
              eq_refl eq_refl)
    as (_ & Hdrop & Hkeep & _ & _).
  split; [exact Hdrop | apply Hkeep; discriminate].
Defined.

(** C9 as stated fails: with the limit 1 for every field, three records
    whose only field is an empty array (length 0) form one batch of three. *)
Lemma empty_arrays_exceed_int_limit :
  BatchingIterDataPipe_init [x0; x0; x0] (SpecInt 1) None false
  = Ok (mk_batching [x0; x0; x0] (NumbersDict.of_int 1) sys_maxsize false)
  /\ BatchingIterDataPipe_iter
       (mk_batching [x0; x0; x0] (NumbersDict.of_int 1) sys_maxsize false)
     = [[x0; x0; x0]]
  /\ (1 < Z.of_nat (List.length [x0; x0; x0]))%Z.
Proof.
  split; [reflexivity|]. split; [reflexivity | reflexivity].
Qed.

Lemma int_limit_bounds_count_witness :
  (Z.of_nat (List.length [x3; x2]) <= 10)%Z.
Proof.
  apply (int_limit_bounds_count unit [x3; x2] 10 (Some 10%Z) false
           (batcher [x3; x2] (NumbersDict.of_int 10) false) [x3; x2] x3 "x").
  - reflexivity.
  - left. reflexivity.
  - simpl. lia.
  - left. reflexivity.
  - vm_compute. discriminate.
Defined.

Lemma colon_free_app (a b : string) :
  colon_free (a ++ String ":" b) = false.
Proof.
  induction a as [|c a IH]; simpl; [reflexivity|].
  rewrite IH. apply andb_false_r.
Qed.

Lemma colon_free_no_collision (ks : list string) :
  Forall (fun k => colon_free k = true) ks -> no_collision ks.
Proof.
  intros Hall k k' i Hk _ Heq.
  rewrite Forall_forall in Hall. specialize (Hall k Hk).
  rewrite Heq in Hall. unfold size_key in Hall.
  change (":size" ++ string_of_nat i)
    with (String ":" ("size" ++ string_of_nat i)) in Hall.
  rewrite colon_free_app in Hall. discriminate.
Qed.

(** C4 as stated fails when a field bears the derived name of an earlier
    one: for [x] of length 2 next to a field named [x:size1], the entry
    [x:size1] of the output is the collated second field, not the extents
    of [x]. *)
Lemma derived_name_is_overwritten :
  match collate_batch tt [x_then_size1] with
  | Ok res => dict_find res (size_key "x" 1)
  | Raise _ => None
  end = Some (CTensor (mk_Tensor int64 [1; 1]%nat (Rows [Rows [Elem (NInt 9%Z)]])))
  /\ leading_extent "x" x_then_size1 = 2%nat.
Proof.
  split; reflexivity.
Qed.

Lemma size_fields_record_extents_witness :
  dict_find collated_x3_x2 "x:size1" = Some (CTensor (tensor_of_ints [3; 2]%nat))
  /\ dict_find collated_x3_x2 "x:size0" = Some (CTensor (tensor_of_int 2)).
Proof.
  apply (size_fields_record_extents unit tt [x3; x2] x3 [x2] "x"
           (mk_ndarray (np_same int64) [3%nat]
              (Rows [Elem (NInt 1%Z); Elem (NInt 2%Z); Elem (NInt 3%Z)]))
           collated_x3_x2).
  - reflexivity.
  - apply colon_free_no_collision. repeat constructor.
  - reflexivity.
  - discriminate.
  - reflexivity.
Defined.

(** C1 as stated fails in two ways.  Arrays whose second axis has the
    extents 2 and 3 are not padded to 3 along that axis: [pad_sequence]
    cannot copy the second into a row shaped after the first, and
    [collate_batch] raises.  And the entry of a field named like the derived
    name of a later field is overwritten: for the one-axis array [[7, 8]]
    under the name [y:size1] the output holds the extents of [y], not the
    stacked array. *)
Lemma trailing_axes_are_not_padded :
  collate_batch tt [wide2; wide3] = Raise RuntimeError
  /\ collate_batch tt [wide3; wide2] = Raise RuntimeError
  /\ match collate_batch tt [size1_then_y] with
     | Ok res => dict_find res "y:size1"
     | Raise _ => None
     end = Some (CTensor (tensor_of_ints [3%nat])).
Proof.
  split; [reflexivity|]. split; reflexivity.
Qed.

Lemma pads_leading_axis_with_zeros_witness :
  exists res rows,
    collate_batch tt [x_int8; x_300] = Ok res
    /\ dict_find res "x" = Some (CTensor (mk_Tensor int8 [2; 3]%nat (Rows rows)))
    /\ nth_error rows 1
       = Some (Rows [Elem (NInt 44%Z); Elem (NInt 4%Z); Elem (NInt 0%Z)]).
Proof.
  destruct (pads_leading_axis_with_zeros unit tt [x_int8; x_300] x_int8 [x_300] "x"
              (mk_ndarray (np_same int8) [3%nat]
                 (Rows [Elem (NInt 1%Z); Elem (NInt 2%Z); Elem (NInt 3%Z)]))
              3 [] eq_refl)
    as (d0 & rows & Hd0 & _ & Hrows & Hfind & Hres).
  - apply colon_free_no_collision. repeat constructor.
  - reflexivity.
  - reflexivity.
  - reflexivity.
  - injection Hd0 as <-.
    destruct Hres as (res & Hres); [intros k [<-|[]]; reflexivity|].
    destruct (Hrows 1%nat x_300 eq_refl)
      as (a & d & rs & prow & Ha & Hd & _ & Hda & Hnth & Hlen & Hpre & _ & Hpad).
    injection Ha as <-. injection Hd as <-. injection Hda as <-.
    exists res, rows. split; [exact Hres|]. split; [exact (Hfind res Hres)|].
    rewrite Hnth. do 2 f_equal.
    destruct prow as [|p0 [|p1 [|p2 [|p3 prow]]]]; try discriminate.
    pose proof (Hpre 0%nat ltac:(simpl; lia)) as H0.
    pose proof (Hpre 1%nat ltac:(simpl; lia)) as H1.
    destruct (Hpad 2%nat) as (H2 & _); [simpl; lia|].
    vm_compute in H0, H1, H2.
    injection H0 as ->. injection H1 as ->. injection H2 as ->. reflexivity.
Defined.

(* ------------------------------------------------------------------ *)
(** * Further properties *)

Close Scope string_scope.

(** ** Batching: cardinality, constructor, batches that fit *)

Section FurtherBatching.

Variable float : Type.

Lemma batcher_step_cardinality (self : BatchingIterDataPipe float)
    (st : batcher_state float) (r : record float) :
  (0 < _max_seqs self)%Z ->
  (Z.of_nat (List.length (current_batch st)) <= _max_seqs self)%Z ->
  Forall (fun b => b <> [] /\ (Z.of_nat (List.length b) <= _max_seqs self)%Z)
         (fst (batcher_step self st r))
  /\ (Z.of_nat (List.length (current_batch (snd (batcher_step self st r))))
      <= _max_seqs self)%Z.
Proof.
  intros Hpos Hle. unfold batcher_step, flush_if_full.
  destruct (Z.eqb_spec (Z.of_nat (List.length (current_batch st))) (_max_seqs self))
    as [Heq|Hne].
  - unfold budget_step. cbn [initial_state current_batch List.length Nat.eqb negb andb].
    cbn [fst snd app current_batch List.length]. split.
    + constructor; [|constructor]. split; [|lia].
      intros Hnil. rewrite Hnil in Heq. simpl in Heq. lia.
    + simpl. lia.
  - unfold budget_step.
    destruct (negb (Nat.eqb (List.length (current_batch st)) 0)
              && NumbersDict.any_compare (batch_size_if_included st r)
                   (_max_batch_size self) Z.gtb) eqn:Hc;
      cbn [fst snd app current_batch].
    + apply andb_prop in Hc. destruct Hc as (Hnz & _).
      split; [|simpl; lia].
      constructor; [|constructor]. split; [|exact Hle].
      intros Hnil. rewrite Hnil in Hnz. discriminate.
    + split; [constructor|]. rewrite length_app. cbn [List.length]. lia.
Qed.

Lemma batcher_loop_cardinality (self : BatchingIterDataPipe float)
    (dataset : list (record float)) :
  (0 < _max_seqs self)%Z ->
  forall st,
    (Z.of_nat (List.length (current_batch st)) <= _max_seqs self)%Z ->
    Forall (fun b => b <> [] /\ (Z.of_nat (List.length b) <= _max_seqs self)%Z)
           (fst (batcher_loop self st dataset))
    /\ (Z.of_nat (List.length (current_batch (snd (batcher_loop self st dataset))))
        <= _max_seqs self)%Z.
Proof.
  intros Hpos. induction dataset as [|r rest IH]; intros st Hle; cbn [batcher_loop].
  - split; [constructor | exact Hle].
  - destruct (batcher_step_cardinality self st r Hpos Hle) as (H1 & H2).
    destruct (batcher_step self st r) as [out st']. cbn [fst snd] in *.
    destruct (IH st' H2) as (H3 & H4).
    destruct (batcher_loop self st' rest) as [outs st'']. cbn [fst snd] in *.
    split; [apply Forall_app; auto | exact H4].
Qed.

(** X1. No batch the batcher yields is empty, and none has more than
    [max_seqs] records ([sys.maxsize] for [None] and for [-1]). *)
Theorem batches_nonempty_and_capped (dataset : list (record float))
    (batch_size : size_spec) (max_seqs : option Z) (drop_last : bool)
    (self : BatchingIterDataPipe float) (batch : list (record float)) :
  BatchingIterDataPipe_init dataset batch_size max_seqs drop_last = Ok self ->
  In batch (BatchingIterDataPipe_iter self) ->
  batch <> [] /\ (Z.of_nat (List.length batch) <= seqs_of max_seqs)%Z.
Proof.
  intros Hinit Hin.
  destruct (batching_init_spec float _ _ _ _ _ Hinit) as (_ & _ & _ & _ & Hpos & Hseqs).
  rewrite <- Hseqs.
  unfold BatchingIterDataPipe_iter in Hin.
  destruct (batcher_loop_cardinality self (_dataset self) Hpos initial_state)
    as (Hout & Hfin); [simpl; lia|].
  destruct (batcher_loop self initial_state (_dataset self)) as [out st].
  cbn [fst snd] in *.
  rewrite Forall_forall in Hout.
  destruct (negb (Nat.eqb (List.length (current_batch st)) 0) && negb (_drop_last self))
    eqn:Hc; [|exact (Hout batch Hin)].
  apply in_app_or in Hin. destruct Hin as [Hin|[<-|[]]]; [exact (Hout batch Hin)|].
  apply andb_prop in Hc. destruct Hc as (Hnz & _).
  split; [|exact Hfin].
  intros Hnil. rewrite Hnil in Hnz. discriminate.
Qed.

Lemma fold_min_positive (vs : list Z) :
  forall v, (0 <? fold_left Z.min vs v)%Z = forallb (fun x => (0 <? x)%Z) (v :: vs).
Proof.
  induction vs as [|w vs IH]; intros v; cbn [fold_left forallb].
  - rewrite andb_true_r. reflexivity.
  - rewrite IH. cbn [forallb].
    destruct (Z.ltb_spec 0 (Z.min v w)), (Z.ltb_spec 0 v), (Z.ltb_spec 0 w);
      simpl; try reflexivity; lia.
Qed.

(** X2. What the constructor of the batcher accepts.  Limits without any
    value (an empty dict) are a [ValueError]; a limit or a [max_seqs] that
    is not positive is an assertion error, where [max_seqs = -1] counts as
    unlimited like [None]; everything else is stored as given. *)
Theorem batching_init_cases (dataset : list (record float))
    (batch_size : size_spec) (max_seqs : option Z) (drop_last : bool) :
  BatchingIterDataPipe_init dataset batch_size max_seqs drop_last
  = match NumbersDict.values (limits_of batch_size) with
    | [] => Raise ValueError
    | vs =>
        if forallb (fun x => (0 <? x)%Z) vs && (0 <? seqs_of max_seqs)%Z
        then Ok (mk_batching dataset (limits_of batch_size) (seqs_of max_seqs) drop_last)
        else Raise (AssertionError "")
    end.
Proof.
  unfold BatchingIterDataPipe_init, min_value_positive, NumbersDict.min_value.
  fold (limits_of batch_size). fold (seqs_of max_seqs).
  destruct (NumbersDict.values (limits_of batch_size)) as [|v vs]; [reflexivity|].
  cbn [bind]. rewrite fold_min_positive. unfold py_assert.
  destruct (forallb (fun x => (0 <? x)%Z) (v :: vs)); cbn [bind andb]; [|reflexivity].
  destruct (0 <? seqs_of max_seqs)%Z; reflexivity.
Qed.

Lemma max_length_app_list (f : string) (a b : list (record float)) :
  max_length_in_batch f (a ++ b)
  = Z.max (max_length_in_batch f a) (max_length_in_batch f b).
Proof.
  induction a as [|r a IH]; simpl.
  - pose proof (max_length_nonneg float f b). lia.
  - rewrite IH. lia.
Qed.

Lemma batcher_loop_fits (self : BatchingIterDataPipe float) :
  (forall b, In b (NumbersDict.values (_max_batch_size self)) -> (0 < b)%Z) ->
  forall (rest : list (record float)) (st : batcher_state float),
    invariant self st ->
    within_budget self (current_batch st ++ rest) ->
    (Z.of_nat (List.length (current_batch st ++ rest)) <= _max_seqs self)%Z ->
    fst (batcher_loop self st rest) = []
    /\ current_batch (snd (batcher_loop self st rest)) = current_batch st ++ rest.
Proof.
  intros Hpos. induction rest as [|r rest IH]; intros st Hinv Hfit Hlen;
    cbn [batcher_loop].
  - cbn [fst snd]. rewrite app_nil_r. split; reflexivity.
  - rewrite length_app in Hlen. cbn [List.length] in Hlen.
    assert (Hstep : batcher_step self st r
                    = ([], mk_state (current_batch st ++ [r])
                                    (max_sequence_lengths_if_included st r))).
    { unfold batcher_step, flush_if_full.
      destruct (Z.eqb_spec (Z.of_nat (List.length (current_batch st))) (_max_seqs self));
        [lia|].
      unfold budget_step.
      rewrite (within_budget_accepts float self Hpos st r Hinv).
      - rewrite andb_false_r. reflexivity.
      - intros f b Hb. specialize (Hfit f b Hb).
        rewrite max_length_app_list, length_app in Hfit.
        cbn [List.length max_length_in_batch fold_right] in Hfit.
        unfold candidate_cost.
        pose proof (max_length_nonneg float f (current_batch st)).
        pose proof (max_length_nonneg float f rest).
        pose proof (field_length_nonneg float r f).
        nia. }
    rewrite Hstep.
    assert (Hinv' : invariant self (mk_state (current_batch st ++ [r])
                                     (max_sequence_lengths_if_included st r))).
    { apply (batcher_step_invariant float self Hpos st r) in Hinv.
      rewrite Hstep in Hinv. exact (proj1 Hinv). }
    specialize (IH _ Hinv'). cbn [current_batch] in IH.
    rewrite <- app_assoc in IH. cbn [app] in IH.
    assert (Hlen' : (Z.of_nat (List.length (current_batch st ++ r :: rest))
                     <= _max_seqs self)%Z)
      by (rewrite length_app; cbn [List.length]; lia).
    destruct (IH Hfit Hlen') as (H1 & H2).
    destruct (batcher_loop self
                (mk_state (current_batch st ++ [r])
                   (max_sequence_lengths_if_included st r)) rest) as [outs st''].
    cbn [fst snd] in *. rewrite H1. split; [reflexivity | exact H2].
Qed.

(** X3. When the whole source fits into one batch (it has at most
    [max_seqs] records, and for every field with a limit the largest length
    times the number of records is within the limit), the batcher without
    [drop_last] yields the source as its only batch. *)
Theorem fitting_source_is_one_batch (dataset : list (record float))
    (batch_size : size_spec) (max_seqs : option Z)
    (self : BatchingIterDataPipe float) :
  BatchingIterDataPipe_init dataset batch_size max_seqs false = Ok self ->
  dataset <> [] ->
  within_budget self dataset ->
  (Z.of_nat (List.length dataset) <= seqs_of max_seqs)%Z ->
  BatchingIterDataPipe_iter self = [dataset].
Proof.
  intros Hinit Hne Hfit Hlen.
  destruct (batching_init_spec float _ _ _ _ _ Hinit) as (Hds & Hdl & _ & Hpos & _ & Hseqs).
  rewrite <- Hseqs in Hlen.
  destruct (batcher_loop_fits self Hpos dataset initial_state
              (invariant_initial float self) Hfit Hlen) as (H1 & H2).
  unfold BatchingIterDataPipe_iter. rewrite Hds, Hdl.
  destruct (batcher_loop self initial_state dataset) as [out st].
  cbn [fst snd initial_state current_batch app] in *. subst out. rewrite H2.
  destruct dataset; [contradiction | reflexivity].
Qed.

Lemma singletons_of_concat (l : list (list (record float))) :
  Forall (fun b => exists r, b = [r]) l ->
  l = map (fun r => [r]) (List.concat l).
Proof.
  induction 1 as [|b l (r & ->) _ IH]; [reflexivity|].
  simpl. f_equal. exact IH.
Qed.

(** X4. With the limit 1 for every field (the default [batch_size]) and
    records that each have a field of length at least 1, the batcher without
    [drop_last] yields every record as a batch of its own, in the order of
    the source. *)
Theorem limit_one_gives_singletons (dataset : list (record float))
    (max_seqs : option Z) (self : BatchingIterDataPipe float) :
  BatchingIterDataPipe_init dataset (SpecInt 1) max_seqs false = Ok self ->
  (forall r, In r dataset -> exists f, (1 <= field_length r f)%Z) ->
  BatchingIterDataPipe_iter self = map (fun r => [r]) dataset.
Proof.
  intros Hinit Hpos1.
  destruct (batching_init_spec float _ _ _ _ _ Hinit) as (Hds & Hdl & Hlim & Hpos & Hms & _).
  assert (Hcat : List.concat (BatchingIterDataPipe_iter self) = dataset).
  { unfold BatchingIterDataPipe_iter. rewrite Hdl, Hds.
    pose proof (batcher_loop_concat float self dataset initial_state) as Hc.
    destruct (batcher_loop self initial_state dataset) as [out st].
    cbn [fst snd current_batch initial_state app] in Hc.
    destruct (current_batch st) as [|r0 b0] eqn:Hcb; cbn [List.length Nat.eqb negb andb].
    - rewrite app_nil_r in Hc. exact Hc.
    - rewrite concat_app. cbn [List.concat]. rewrite app_nil_r. exact Hc. }
  rewrite <- Hcat. apply singletons_of_concat.
  apply Forall_forall. intros b Hb.
  pose proof (iter_good float self Hpos) as Hgood. rewrite Forall_forall in Hgood.
  specialize (Hgood b Hb).
  assert (Hsub : forall r, In r b -> In r dataset).
  { intros r Hr. rewrite <- Hcat. apply in_concat. exists b. split; assumption. }
  assert (Hne : b <> []).
  { unfold BatchingIterDataPipe_iter in Hb.
    destruct (batcher_loop_cardinality self (_dataset self) Hms initial_state)
      as (Hout & _); [simpl; lia|].
    destruct (batcher_loop self initial_state (_dataset self)) as [out st].
    cbn [fst snd] in *. rewrite Forall_forall in Hout.
    destruct (negb (Nat.eqb (List.length (current_batch st)) 0) && negb (_drop_last self))
      eqn:Hc; [|exact (proj1 (Hout b Hb))].
    apply in_app_or in Hb. destruct Hb as [Hb|[<-|[]]]; [exact (proj1 (Hout b Hb))|].
    apply andb_prop in Hc. destruct Hc as (Hnz & _).
    intros Hnil. rewrite Hnil in Hnz. discriminate. }
  destruct b as [|r0 [|r1 b']]; [contradiction | eauto |].
  exfalso.
  destruct (Hpos1 r0 (Hsub r0 (or_introl eq_refl))) as (f & Hf).
  assert (Hget : NumbersDict.get (_max_batch_size self) f = Some 1%Z)
    by (rewrite Hlim; reflexivity).
  specialize (Hgood ltac:(simpl; lia) f 1%Z Hget).
  pose proof (max_length_ge float f (r0 :: r1 :: b') r0 (or_introl eq_refl)).
  cbn [List.length] in Hgood. nia.
Qed.

End FurtherBatching.

(** ** Chunking: what the windows hold *)

Section FurtherChunking.

Variable float : Type.

Lemma firstn_min_length {A : Type} (n : nat) (l : list A) :
  firstn (Nat.min n (List.length l)) l = firstn n l.
Proof.
  destruct (Nat.le_ge_cases n (List.length l)) as [H|H].
  - rewrite Nat.min_l by exact H. reflexivity.
  - rewrite Nat.min_r by exact H. rewrite !firstn_all2 by lia. reflexivity.
Qed.

Lemma py_getslice_window (a : ndarray float) (trailing : list nat)
    (rs : list (nested float)) (lo size_ : Z) :
  rows_agree a trailing rs ->
  (0 <= lo < Z.of_nat (List.length rs))%Z ->
  (0 < size_)%Z ->
  py_getslice (Array a) lo (lo + size_)
  = Ok (window a trailing rs (Z.to_nat size_) (Z.to_nat lo)).
Proof.
  intros (Hshape & Hdata) Hlo Hsize. unfold py_getslice, window.
  rewrite Hshape, Hdata.
  rewrite (window_extent (List.length rs) lo size_ Hlo Hsize).
  assert (Hlo' : slice_index (List.length rs) lo = Z.to_nat lo).
  { unfold slice_index. destruct (Z.ltb_spec lo 0); lia. }
  rewrite Hlo'.
  assert (Hmin : Z.to_nat (Z.min size_ (Z.of_nat (List.length rs) - lo))
                 = Nat.min (Z.to_nat size_) (List.length (skipn (Z.to_nat lo) rs))).
  { rewrite length_skipn. lia. }
  rewrite Hmin, firstn_min_length.
  rewrite length_firstn. reflexivity.
Qed.

Lemma num_windows_zero (step : Z) : (0 < step)%Z -> num_windows 0 step = 0%nat.
Proof.
  intros Hstep. unfold num_windows. change (Z.of_nat 0) with 0%Z.
  assert ((0 - 1) / step < 0)%Z by (apply Z.div_lt_upper_bound; lia). lia.
Qed.

Lemma window_start_in_bounds (L : nat) (step : Z) (k : nat) :
  (0 < step)%Z -> (k < num_windows L step)%nat ->
  (Z.of_nat k * step < Z.of_nat L)%Z.
Proof.
  intros Hstep Hk. destruct L as [|L'].
  - rewrite (num_windows_zero step Hstep) in Hk. lia.
  - destruct (num_windows_bounds (S L') step Hstep ltac:(lia)) as (_ & Hlast & _). nia.
Qed.

(** The windows of an array, as a list. *)
Lemma chunks_of_array (a : ndarray float) (trailing : list nat)
    (rs : list (nested float)) (chunk_size chunk_step : Z)
    (chunks : list (InputType float)) :
  rows_agree a trailing rs ->
  (0 < chunk_size)%Z -> (0 < chunk_step)%Z ->
  chunks_of chunk_size chunk_step (Array a) = Ok chunks ->
  chunks = map (fun k => window a trailing rs (Z.to_nat chunk_size)
                           (k * Z.to_nat chunk_step))
               (seq 0 (num_windows (List.length rs) chunk_step)).
Proof.
  intros Hwf Hsize Hstep H. unfold chunks_of in H.
  assert (Hlen : py_len (Array a) = Ok (List.length rs)).
  { unfold py_len. rewrite (proj1 Hwf). reflexivity. }
  rewrite Hlen in H. cbn [bind] in H.
  destruct (List.length rs) as [|L'] eqn:HL.
  - unfold py_range0 in H.
    destruct (Z.eqb_spec chunk_step 0); [lia|].
    destruct (Z.ltb_spec chunk_step 0); [lia|].
    cbn in H. injection H as <-.
    rewrite (num_windows_zero chunk_step Hstep). reflexivity.
  - rewrite <- HL in *.
    assert (HL1 : (1 <= List.length rs)%nat) by lia.
    rewrite (py_range0_spec (List.length rs) chunk_step Hstep HL1) in H.
    cbn [bind] in H. rewrite mapM_map in H.
    rewrite (mapM_total _ (fun k => window a trailing rs (Z.to_nat chunk_size)
                                      (k * Z.to_nat chunk_step))) in H.
    + injection H as <-. reflexivity.
    + intros k Hk. apply in_seq in Hk.
      destruct (num_windows_bounds (List.length rs) chunk_step Hstep HL1)
        as (_ & Hlast & _).
      rewrite (py_getslice_window a trailing rs (Z.of_nat k * chunk_step) chunk_size Hwf);
        [|nia|exact Hsize].
      f_equal. f_equal. nia.
Qed.

(** X5. Window [k] of an array holds the rows [k*step], [k*step + 1], ...
    of the array, at most [size] of them and none from beyond its end; it
    keeps the dtype and the trailing extents. *)
Theorem window_rows_come_from_source (a : ndarray float) (trailing : list nat)
    (rs : list (nested float)) (chunk_size chunk_step : Z)
    (chunks : list (InputType float)) (k : nat) (w : InputType float) :
  rows_agree a trailing rs ->
  (0 < chunk_size)%Z -> (0 < chunk_step)%Z ->
  chunks_of chunk_size chunk_step (Array a) = Ok chunks ->
  nth_error chunks k = Some w ->
  (forall i, (i < Z.to_nat chunk_size)%nat ->
             nth_error (array_rows w) i = nth_error rs (k * Z.to_nat chunk_step + i))
  /\ (List.length (array_rows w) <= Z.to_nat chunk_size)%nat
  /\ (k * Z.to_nat chunk_step + List.length (array_rows w) <= List.length rs)%nat
  /\ exists a', w = Array a' /\ dtype a' = dtype a
                /\ rows_agree a' trailing (array_rows w).
Proof.
  intros Hwf Hsize Hstep Hc Hk.
  rewrite (chunks_of_array a trailing rs chunk_size chunk_step chunks Hwf Hsize Hstep Hc)
    in Hk.
  rewrite nth_error_map in Hk.
  destruct (nth_error (seq 0 (num_windows (List.length rs) chunk_step)) k) as [k'|] eqn:Hs;
    [|discriminate].
  rewrite nth_error_seq in Hs.
  destruct (Nat.ltb_spec k (num_windows (List.length rs) chunk_step)) as [Hklt|];
    [|discriminate].
  injection Hs as <-. cbn [Nat.add] in Hk.
  pose proof (window_start_in_bounds (List.length rs) chunk_step k Hstep Hklt) as Hstart.
  injection Hk as <-. unfold window, array_rows. cbn [data].
  split; [|split; [|split]].
  - intros i Hi. rewrite nth_error_firstn.
    destruct (Nat.ltb_spec i (Z.to_nat chunk_size)); [|lia].
    apply nth_error_skipn.
  - apply firstn_le_length.
  - rewrite length_firstn, length_skipn. nia.
  - eexists. split; [reflexivity|]. split; [reflexivity|].
    split; reflexivity.
Qed.

Lemma concat_windows {A : Type} (S0 : nat) :
  (0 < S0)%nat ->
  forall (n : nat) (l : list A),
    (List.length l <= n * S0)%nat ->
    List.concat (map (fun k => firstn S0 (skipn (k * S0) l)) (seq 0 n)) = l.
Proof.
  intros HS. induction n as [|n IH]; intros l Hl.
  - destruct l; [reflexivity | simpl in Hl; lia].
  - cbn [seq map List.concat]. rewrite <- seq_shift, map_map.
    rewrite (map_ext _ (fun k => firstn S0 (skipn (k * S0) (skipn S0 l)))).
    + rewrite IH by (rewrite length_skipn; lia).
      cbn [Nat.mul skipn]. apply firstn_skipn.
    + intros k. rewrite skipn_skipn. do 2 f_equal. lia.
Qed.

(** X6. With a step equal to the size, the windows of an array, joined in
    order, are the rows of the array: nothing is lost and nothing is
    repeated, the last window being the shorter rest. *)
Theorem nonoverlapping_windows_join_to_source (a : ndarray float)
    (trailing : list nat) (rs : list (nested float)) (chunk_size : Z)
    (chunks : list (InputType float)) :
  rows_agree a trailing rs ->
  (0 < chunk_size)%Z ->
  chunks_of chunk_size chunk_size (Array a) = Ok chunks ->
  List.concat (map (@array_rows float) chunks) = rs.
Proof.
  intros Hwf Hsize Hc.
  rewrite (chunks_of_array a trailing rs chunk_size chunk_size chunks Hwf Hsize Hsize Hc).
  rewrite map_map. unfold window, array_rows. cbn [data].
  apply concat_windows; [lia|].
  destruct (List.length rs) as [|L'] eqn:HL; [lia|]. rewrite <- HL.
  destruct (num_windows_bounds (List.length rs) chunk_size Hsize ltac:(lia)) as (H1 & _).
  nia.
Qed.

End FurtherChunking.

(** ** Chunking: the constructor *)

Section FurtherChunkingInit.

Variable float : Type.

Lemma min_value_positive_cases (nd : NumbersDict.t) (msg : string) :
  min_value_positive nd msg
  = match NumbersDict.values nd with
    | [] => Raise ValueError
    | vs => if forallb (fun x => (0 <? x)%Z) vs then Ok tt
            else Raise (AssertionError msg)
    end.
Proof.
  unfold min_value_positive, NumbersDict.min_value.
  destruct (NumbersDict.values nd) as [|v vs]; [reflexivity|].
  cbn [bind]. rewrite fold_min_positive. unfold py_assert.
  destruct (forallb (fun x => (0 <? x)%Z) (v :: vs)); reflexivity.
Qed.

Lemma min_value_positive_msg (nd : NumbersDict.t) (msg msg' : string) :
  min_value_positive nd msg = Ok tt -> min_value_positive nd msg' = Ok tt.
Proof.
  rewrite !min_value_positive_cases.
  destruct (NumbersDict.values nd) as [|v vs]; [discriminate|].
  destruct (forallb (fun x => (0 <? x)%Z) (v :: vs)); [reflexivity | discriminate].
Qed.

Lemma list_string_eqb_refl (l : list string) : list_string_eqb l l = true.
Proof.
  unfold list_string_eqb. destruct (list_eq_dec string_dec l l); congruence.
Qed.

Lemma list_string_eqb_eq (a b : list string) : list_string_eqb a b = true -> a = b.
Proof.
  unfold list_string_eqb. destruct (list_eq_dec string_dec a b); [auto | discriminate].
Qed.

Lemma In_insert_sorted (x k : string) (l : list string) :
  In k (insert_sorted x l) <-> k = x \/ In k l.
Proof.
  induction l as [|y l IH]; cbn [insert_sorted].
  - simpl. intuition congruence.
  - destruct (String.leb x y); simpl in *; intuition congruence.
Qed.

Lemma In_sorted (k : string) (l : list string) : In k (sorted l) <-> In k l.
Proof.
  induction l as [|x l IH]; [reflexivity|].
  unfold sorted in *. cbn [fold_right]. rewrite In_insert_sorted, IH.
  simpl. intuition congruence.
Qed.

(** What [_parse_chunking] makes of a size that passes its check, with the
    size itself as the step. *)
Lemma parse_with_own_step (size_ : NumbersDict.t) :
  (_ <- min_value_positive size_ "chunk size must not be negative" ;;
   _ <- py_assert (list_string_eqb (sorted (NumbersDict.keys size_))
                                   (sorted (NumbersDict.keys size_))) "" ;;
   _ <- min_value_positive size_ "chunking step must be positive" ;;
   Ok (Parsed size_ size_))
  = match NumbersDict.values size_ with
    | [] => Raise ValueError
    | vs => if forallb (fun x => (0 <? x)%Z) vs then Ok (Parsed size_ size_)
            else Raise (AssertionError "chunk size must not be negative")
    end.
Proof.
  rewrite list_string_eqb_refl. rewrite !min_value_positive_cases.
  destruct (NumbersDict.values size_) as [|v vs]; [reflexivity|].
  destruct (forallb (fun x => (0 <? x)%Z) (v :: vs)); reflexivity.
Qed.

Lemma parse_chunking_one (s : size_spec) :
  parse_chunking (ChunkingOne s)
  = match NumbersDict.values (sizes_of s) with
    | [] => Raise ValueError
    | vs => if forallb (fun x => (0 <? x)%Z) vs
            then Ok (Parsed (sizes_of s) (sizes_of s))
            else Raise (AssertionError "chunk size must not be negative")
    end.
Proof.
  rewrite <- parse_with_own_step. destruct s; reflexivity.
Qed.

(** X7. A single value as [chunking] stands for both the size and the step:
    it gives what the pair of the value with itself gives.  The constructor
    accepts it when it holds at least one number and all its numbers are
    positive; [None] (which stands for the size 0), an int below 1 and a
    dict with such an entry fail the assertion on the size, and an empty
    dict is a [ValueError]. *)
Theorem single_value_is_size_and_step (dataset : list (record float)) (s : size_spec) :
  ChunkingIterDataPipe_init dataset (ChunkingOne s)
  = ChunkingIterDataPipe_init dataset (ChunkingPair s s)
  /\ ChunkingIterDataPipe_init dataset (ChunkingOne s)
     = match NumbersDict.values (sizes_of s) with
       | [] => Raise ValueError
       | vs => if forallb (fun x => (0 <? x)%Z) vs
               then Ok (mk_chunking dataset (sizes_of s) (sizes_of s))
               else Raise (AssertionError "chunk size must not be negative")
       end.
Proof.
  split.
  - unfold ChunkingIterDataPipe_init. f_equal.
    destruct s as [|n|d]; [reflexivity| |reflexivity].
    destruct n as [|p|p]; [reflexivity| |reflexivity].
    rewrite parse_chunking_one. cbn [sizes_of].
    unfold parse_chunking. rewrite parse_with_own_step. reflexivity.
  - unfold ChunkingIterDataPipe_init. rewrite parse_chunking_one.
    destruct (NumbersDict.values (sizes_of s)) as [|v vs]; [reflexivity|].
    destruct (forallb (fun x => (0 <? x)%Z) (v :: vs)); reflexivity.
Qed.

Lemma min_value_positive_of_int (n : Z) (msg : string) :
  min_value_positive (NumbersDict.of_int n) msg
  = if (0 <? n)%Z then Ok tt else Raise (AssertionError msg).
Proof.
  rewrite min_value_positive_cases.
  change (NumbersDict.values (NumbersDict.of_int n)) with [n].
  cbn [forallb]. rewrite andb_true_r. reflexivity.
Qed.

Lemma sorted_nil (l : list string) : sorted l = [] -> l = [].
Proof.
  destruct l as [|x l]; [reflexivity|]. intros H.
  assert (Hin : In x (sorted (x :: l))) by (apply In_sorted; left; reflexivity).
  rewrite H in Hin. contradiction.
Qed.

(** X8. An int and a dict do not mix as chunk size and chunk step: an int
    size with a dict step is always rejected, and a dict size with an int
    step is rejected unless the step is 0, which stands for the sizes. *)
Theorem int_and_dict_do_not_mix (dataset : list (record float)) (n : Z) (d : dict Z) :
  (exists e, ChunkingIterDataPipe_init dataset (ChunkingPair (SpecInt n) (SpecDict d))
             = Raise e)
  /\ (exists e, ChunkingIterDataPipe_init dataset (ChunkingPair (SpecDict d) (SpecInt n))
                = if (n =? 0)%Z
                  then ChunkingIterDataPipe_init dataset (ChunkingOne (SpecDict d))
                  else Raise e).
Proof.
  split.
  - unfold ChunkingIterDataPipe_init, parse_chunking.
    rewrite (min_value_positive_of_int n).
    destruct (0 <? n)%Z; cbn [bind]; [|eexists; reflexivity].
    destruct (list_string_eqb (sorted (NumbersDict.keys (NumbersDict.of_dict d)))
                (sorted (NumbersDict.keys (NumbersDict.of_int n)))) eqn:He.
    + apply list_string_eqb_eq in He. apply sorted_nil in He.
      destruct d; [|discriminate]. eexists. reflexivity.
    + eexists. reflexivity.
  - destruct n as [|p|p]; cbn [Z.eqb].
    + exists ValueError. reflexivity.
    + unfold ChunkingIterDataPipe_init, parse_chunking.
      rewrite (min_value_positive_cases (NumbersDict.of_dict d)).
      destruct (NumbersDict.values (NumbersDict.of_dict d)) as [|v vs] eqn:Hv;
        [eexists; reflexivity|].
      destruct (forallb (fun x => (0 <? x)%Z) (v :: vs)); cbn [bind];
        [|eexists; reflexivity].
      destruct (list_string_eqb (sorted (NumbersDict.keys (NumbersDict.of_int (Z.pos p))))
                  (sorted (NumbersDict.keys (NumbersDict.of_dict d)))) eqn:He.
      * apply list_string_eqb_eq in He. symmetry in He. apply sorted_nil in He.
        destruct d; discriminate.
      * eexists. reflexivity.
    + unfold ChunkingIterDataPipe_init, parse_chunking.
      rewrite (min_value_positive_cases (NumbersDict.of_dict d)).
      destruct (NumbersDict.values (NumbersDict.of_dict d)) as [|v vs] eqn:Hv;
        [eexists; reflexivity|].
      destruct (forallb (fun x => (0 <? x)%Z) (v :: vs)); cbn [bind];
        [|eexists; reflexivity].
      destruct (list_string_eqb (sorted (NumbersDict.keys (NumbersDict.of_int (Z.neg p))))
                  (sorted (NumbersDict.keys (NumbersDict.of_dict d)))) eqn:He.
      * apply list_string_eqb_eq in He. symmetry in He. apply sorted_nil in He.
        destruct d; discriminate.
      * eexists. reflexivity.
Qed.

Lemma step_keys_are_size_keys (chunking : chunking_spec) (cs ct : NumbersDict.t) :
  parse_chunking chunking = Ok (Parsed cs ct) ->
  forall k, In k (NumbersDict.keys ct) <-> In k (NumbersDict.keys cs).
Proof.
  intros H k. destruct (parse_chunking_Parsed chunking cs ct H) as (_ & _ & He).
  apply list_string_eqb_eq in He.
  rewrite <- (In_sorted k (NumbersDict.keys ct)), He, In_sorted. reflexivity.
Qed.

(** A lookup in numbers that passed the positivity check cannot fail for a
    key they list, nor for any key when they list none. *)
Lemma getitem_checked (nd : NumbersDict.t) (msg k : string) :
  min_value_positive nd msg = Ok tt ->
  NumbersDict.keys nd = [] \/ In k (NumbersDict.keys nd) ->
  exists v, NumbersDict.getitem nd k = Ok v /\ (0 < v)%Z.
Proof.
  intros Hm Hk. unfold NumbersDict.getitem.
  destruct (NumbersDict.get nd k) as [v|] eqn:Hg.
  - exists v. split; [reflexivity|]. exact (min_value_positive_get nd msg k v Hm Hg).
  - exfalso. unfold NumbersDict.get in Hg.
    destruct (dict_find (NumbersDict.dict_ nd) k) eqn:Hf; [discriminate|].
    destruct Hk as [Hk|Hk].
    + rewrite min_value_positive_cases in Hm. unfold NumbersDict.values in Hm.
      rewrite Hg in Hm. unfold NumbersDict.keys, keys in Hk.
      destruct (NumbersDict.dict_ nd); [|discriminate]. discriminate.
    + apply dict_find_None in Hf. contradiction.
Qed.

Lemma lookups_in_force (dataset : list (record float)) (chunking : chunking_spec)
    (self : ChunkingIterDataPipe float) (k : string) :
  ChunkingIterDataPipe_init dataset chunking = Ok self ->
  NumbersDict.keys (_chunk_size self) = [] \/ In k (NumbersDict.keys (_chunk_size self)) ->
  exists cs st,
    NumbersDict.getitem (_chunk_size self) k = Ok cs
    /\ NumbersDict.getitem (_chunk_step self) k = Ok st
    /\ (0 < cs)%Z /\ (0 < st)%Z.
Proof.
  intros Hinit Hk.
  destruct (init_Parsed float dataset chunking self Hinit) as (Hp & _).
  destruct (parse_chunking_Parsed _ _ _ Hp) as (Hs & Ht & _).
  pose proof (step_keys_are_size_keys _ _ _ Hp) as Hkeys.
  destruct (getitem_checked _ _ k Hs Hk) as (cs & Hcs & Hcs0).
  assert (Hk' : NumbersDict.keys (_chunk_step self) = []
                \/ In k (NumbersDict.keys (_chunk_step self))).
  { destruct Hk as [Hk|Hk].
    - left. destruct (NumbersDict.keys (_chunk_step self)) as [|k' l] eqn:E; [reflexivity|].
      exfalso. assert (Hin : In k' (NumbersDict.keys (_chunk_size self)))
        by (apply Hkeys; left; reflexivity).
      rewrite Hk in Hin. contradiction.
    - right. apply Hkeys. exact Hk. }
  destruct (getitem_checked _ _ k Ht Hk') as (st & Hst & Hst0).
  exists cs, st. auto.
Qed.

(** X9. In a chunker that was constructed, the lookups of the chunk size and
    of the chunk step cannot fail for a key in force (a key the sizes list,
    or any key when they list none), and both are positive: the step given
    to [range] is never 0.  A key has a size of its own exactly when it has
    a step of its own. *)
Theorem lookups_of_keys_in_force (dataset : list (record float))
    (chunking : chunking_spec) (self : ChunkingIterDataPipe float) (k : string) :
  ChunkingIterDataPipe_init dataset chunking = Ok self ->
  (In k (NumbersDict.keys (_chunk_step self))
   <-> In k (NumbersDict.keys (_chunk_size self)))
  /\ (NumbersDict.keys (_chunk_size self) = []
      \/ In k (NumbersDict.keys (_chunk_size self)) ->
      exists cs st starts,
        NumbersDict.getitem (_chunk_size self) k = Ok cs
        /\ NumbersDict.getitem (_chunk_step self) k = Ok st
        /\ (0 < cs)%Z /\ (0 < st)%Z
        /\ forall stop, py_range0 stop st = Ok (starts stop)).
Proof.
  intros Hinit. split.
  - destruct (init_Parsed float dataset chunking self Hinit) as (Hp & _).
    exact (step_keys_are_size_keys _ _ _ Hp k).
  - intros Hk.
    destruct (lookups_in_force dataset chunking self k Hinit Hk)
      as (cs & st & Hcs & Hst & Hcs0 & Hst0).
    exists cs, st, (fun stop => range_from (Z.to_nat stop) 0 stop st).
    repeat (split; [assumption|]).
    intros stop. unfold py_range0.
    destruct (Z.eqb_spec st 0); [lia|]. destruct (Z.ltb_spec st 0); [lia|]. reflexivity.
Qed.

End FurtherChunkingInit.

(** ** Chunking: the records yielded *)

Section FurtherChunkingIter.

Variable float : Type.

Lemma chunk_fields_dict (self : ChunkingIterDataPipe float) (data_dict : record float) :
  forall (ks : list string) (dc dc' : dict (list (InputType float)))
         (nc nc' : option nat),
    chunk_fields self data_dict ks dc nc = Ok (dc', nc') ->
    (forall k, In k ks ->
       exists chunks, field_chunks self data_dict k = Ok chunks
                      /\ dict_find dc' k = Some chunks)
    /\ (forall k, ~ In k ks -> dict_find dc' k = dict_find dc k).
Proof.
  induction ks as [|k0 ks IH]; intros dc dc' nc nc' H; cbn [chunk_fields] in H.
  - injection H as <- <-. split; [intros k []|reflexivity].
  - inv_bind H. inv_bind H.
    destruct (IH _ _ _ _ H) as (H1 & H2).
    split.
    + intros k [<-|Hk].
      * destruct (in_dec string_dec k0 ks) as [Hin|Hnin]; [exact (H1 k0 Hin)|].
        exists a. split; [exact Ha|]. rewrite (H2 k0 Hnin). apply dict_find_set_same.
      * exact (H1 k Hk).
    + intros k Hk. rewrite H2 by (intros Hin; apply Hk; right; exact Hin).
      apply dict_find_set_other. intros ->. apply Hk. left. reflexivity.
Qed.

Lemma Forall_dict_set {V : Type} (P : string * V -> Prop) (d : dict V)
    (k : string) (v : V) :
  Forall P d -> P (k, v) -> Forall P (dict_set d k v).
Proof.
  intros Hd Hkv. induction Hd as [|[k' v'] d Hx Hd IH]; cbn [dict_set].
  - constructor; [exact Hkv | constructor].
  - destruct (String.eqb k' k); constructor; assumption.
Qed.

(** All lists of windows that the loop over the keys has stored have the
    length it holds in [num_chunks]. *)
Lemma chunk_fields_lengths (self : ChunkingIterDataPipe float)
    (data_dict : record float) :
  forall (ks : list string) (dc dc' : dict (list (InputType float)))
         (nc nc' : option nat),
    chunk_fields self data_dict ks dc nc = Ok (dc', nc') ->
    (forall n, nc = Some n -> Forall (fun kv => List.length (snd kv) = n) dc) ->
    (nc = None -> dc = []) ->
    (forall n, nc' = Some n -> Forall (fun kv => List.length (snd kv) = n) dc')
    /\ (nc' = None -> dc' = []).
Proof.
  induction ks as [|k0 ks IH]; intros dc dc' nc nc' H Hsome Hnone; cbn [chunk_fields] in H.
  - injection H as <- <-. split; assumption.
  - inv_bind H. inv_bind H.
    apply (IH _ _ _ _ H).
    + intros n Hn. injection Hn as <-.
      destruct nc as [m|].
      * inv_bind Ha0. injection Ha0 as <-.
        unfold py_assert in Ha1.
        destruct (Nat.eqb_spec m (List.length a)) as [Heq|]; [|discriminate].
        apply Forall_dict_set; [exact (Hsome m eq_refl) | exact (eq_sym Heq)].
      * injection Ha0 as <-. rewrite (Hnone eq_refl). cbn [dict_set].
        constructor; [reflexivity | constructor].
    + discriminate.
Qed.

Lemma Forall2_In_l {A B : Type} (R : A -> B -> Prop) (l : list A) (l' : list B) (a : A) :
  Forall2 R l l' -> In a l -> exists b, In b l' /\ R a b.
Proof.
  induction 1 as [|x y l l' Hxy _ IH]; intros Hin; [contradiction|].
  destruct Hin as [<-|Hin].
  - exists y. split; [left; reflexivity | exact Hxy].
  - destruct (IH Hin) as (b & Hb & HR). exists b. split; [right; exact Hb | exact HR].
Qed.

Lemma mapM_exists {A B : Type} (f : A -> result B) (l : list A) :
  (forall a, In a l -> exists b, f a = Ok b) -> exists bs, mapM f l = Ok bs.
Proof.
  induction l as [|a l IH]; intros H; cbn [mapM].
  - eexists. reflexivity.
  - destruct (H a (or_introl eq_refl)) as (b & Hb).
    destruct IH as (bs & Hbs); [intros x Hx; apply H; right; exact Hx|].
    rewrite Hb, Hbs. eexists. reflexivity.
Qed.

(** The dict comprehension of the loop over [chunk_index]: what it maps a
    key to. *)
Lemma chunk_data_lookup (i : nat) :
  forall (dc : dict (list (InputType float))) (cd : record float),
    mapM (fun kv => c <- list_index (snd kv) i ;; Ok (fst kv, c)) dc = Ok cd ->
    forall k, dict_find cd k
              = match dict_find dc k with
                | Some chunks => nth_error chunks i
                | None => None
                end.
Proof.
  induction dc as [|[k0 chunks0] dc IH]; intros cd H k; cbn [mapM] in H.
  - injection H as <-. reflexivity.
  - inv_bind H. inv_bind H. injection H as <-.
    cbn [fst snd] in Ha. inv_bind Ha. injection Ha as <-.
    unfold list_index in Ha1.
    destruct (nth_error chunks0 i) as [c|] eqn:Hn; [|discriminate].
    injection Ha1 as <-. cbn [dict_find].
    destruct (String.eqb k0 k); [symmetry; exact Hn | exact (IH _ Ha0 k)].
Qed.

Lemma dict_find_update {V : Type} (o : dict V) :
  forall (d : dict V) (k : string),
    NoDup (keys o) ->
    dict_find (dict_update d o) k
    = match dict_find o k with
      | Some v => Some v
      | None => dict_find d k
      end.
Proof.
  unfold dict_update.
  induction o as [|[k0 v0] o IH]; intros d k Hnd; cbn [fold_left dict_find fst snd].
  - reflexivity.
  - cbn [keys map fst] in Hnd. inversion Hnd as [|x l Hnotin Hnd']; subst.
    rewrite (IH _ k Hnd'). rewrite dict_find_set.
    destruct (String.eqb_spec k0 k) as [<-|Hne]; [|reflexivity].
    apply dict_find_None in Hnotin. rewrite Hnotin. reflexivity.
Qed.

Lemma dict_find_filter {V : Type} (p : string -> bool) (d : dict V) (k : string) :
  dict_find (filter (fun kv => p (fst kv)) d) k
  = if p k then dict_find d k else None.
Proof.
  induction d as [|[k0 v0] d IH]; cbn [filter dict_find fst].
  - destruct (p k); reflexivity.
  - destruct (p k0) eqn:Hp0; cbn [dict_find]; rewrite IH;
      destruct (String.eqb_spec k0 k) as [<-|Hne]; try reflexivity.
    + rewrite Hp0. reflexivity.
    + rewrite Hp0. reflexivity.
Qed.

Lemma NoDup_keys_filter {V : Type} (f : string * V -> bool) (d : dict V) :
  NoDup (keys d) -> NoDup (keys (filter f d)).
Proof.
  unfold keys. induction d as [|kv d IH]; intros Hnd; cbn [filter map].
  - constructor.
  - cbn [map] in Hnd. inversion Hnd as [|x l Hnotin Hnd']; subst.
    destruct (f kv); cbn [map]; [|exact (IH Hnd')].
    constructor; [|exact (IH Hnd')].
    intros Hin. apply Hnotin. apply in_map_iff in Hin.
    destruct Hin as (kv' & Hfst & Hin). apply filter_In in Hin.
    apply in_map_iff. exists kv'. split; [exact Hfst | exact (proj1 Hin)].
Qed.

(** The loop over [chunk_index] when every stored list of windows has [n]
    entries and every index is below [n]: it raises nothing and yields one
    record per index. *)
Lemma emit_chunks_spec (data_dict : record float)
    (dc : dict (list (InputType float))) (n : nat) :
  Forall (fun kv => List.length (snd kv) = n) dc ->
  forall indices, (forall i, In i indices -> (i < n)%nat) ->
    exists recs,
      emit_chunks data_dict dc indices = (recs, None)
      /\ Forall2 (fun i r =>
            exists cd,
              mapM (fun kv => c <- list_index (snd kv) i ;; Ok (fst kv, c)) dc = Ok cd
              /\ r = dict_update cd
                        (filter (fun kv => negb (dict_mem cd (fst kv))) data_dict))
           indices recs.
Proof.
  intros Hlen. induction indices as [|i indices IH]; intros Hi; cbn [emit_chunks].
  - exists []. split; [reflexivity | constructor].
  - destruct IH as (recs & Hrecs & HF); [intros j Hj; apply Hi; right; exact Hj|].
    destruct (mapM_exists (fun kv => c <- list_index (snd kv) i ;; Ok (fst kv, c)) dc)
      as (cd & Hcd).
    { intros kv Hkv. rewrite Forall_forall in Hlen. specialize (Hlen kv Hkv).
      unfold list_index.
      destruct (nth_error (snd kv) i) as [c|] eqn:Hn.
      - eexists. reflexivity.
      - exfalso. apply nth_error_None in Hn.
        specialize (Hi i (or_introl eq_refl)). lia. }
    rewrite Hcd. cbn [gen_try]. rewrite Hrecs. unfold gen_then. cbn [fst snd app].
    eexists. split; [reflexivity|].
    constructor; [|exact HF].
    exists cd. split; [exact Hcd|].
    destruct (filter (fun kv => negb (dict_mem cd (fst kv))) data_dict); reflexivity.
Qed.

(** What a step of the loop over the dataset that raises nothing has done:
    it has stored [n >= 1] windows for every key, and yielded one record per
    index, made by the dict comprehension and the update. *)
Lemma chunk_record_emitted (self : ChunkingIterDataPipe float)
    (chunking_data_keys ks : list string) (data_dict : record float)
    (g : gen (record float)) :
  chunk_record self chunking_data_keys data_dict = Ok (ks, g) ->
  exists dc n recs,
    active_keys chunking_data_keys data_dict = Ok ks
    /\ chunk_fields self data_dict ks [] None = Ok (dc, Some (S n))
    /\ g = (recs, None)
    /\ List.length recs = S n
    /\ Forall (fun kv => List.length (snd kv) = S n) dc
    /\ forall i r, nth_error recs i = Some r ->
         exists cd,
           mapM (fun kv => c <- list_index (snd kv) i ;; Ok (fst kv, c)) dc = Ok cd
           /\ r = dict_update cd
                     (filter (fun kv => negb (dict_mem cd (fst kv))) data_dict).
Proof.
  intros H. unfold chunk_record in H.
  inv_bind H. inv_bind H. destruct a0 as [dc nc].
  destruct nc as [[|n]|]; try discriminate.
  assert (Hg : g = emit_chunks data_dict dc (seq 0 (S n)) /\ ks = a)
    by (split; congruence).
  destruct Hg as (-> & ->). clear H.
  destruct (chunk_fields_lengths self data_dict _ _ _ _ _ Ha0) as (Hlen & _);
    [discriminate | reflexivity |].
  specialize (Hlen (S n) eq_refl).
  destruct (emit_chunks_spec data_dict dc (S n) Hlen (seq 0 (S n)))
    as (recs & Hrecs & HF); [intros i Hi; apply in_seq in Hi; lia|].
  pose proof (Forall2_length HF) as HL. rewrite length_seq in HL.
  exists dc, n, recs.
  split; [exact Ha|]. split; [exact Ha0|]. split; [exact Hrecs|].
  split; [symmetry; exact HL|]. split; [exact Hlen|].
  intros i r Hr.
  assert (Hi : (i < S n)%nat).
  { rewrite HL. apply nth_error_Some. intros Hnone.
    pose proof (eq_trans (eq_sym Hr) Hnone) as Hx. discriminate Hx. }
  assert (Hs : nth_error (seq 0 (S n)) i = Some i).
  { rewrite nth_error_seq. destruct (Nat.ltb_spec i (S n)); [reflexivity | lia]. }
  exact (Forall2_nth_error _ _ _ HF i i r Hs Hr).
Qed.

(** What a yielded record maps a key to. *)
Lemma emitted_record_lookup (self : ChunkingIterDataPipe float)
    (data_dict : record float) (ks : list string)
    (dc : dict (list (InputType float))) (nc : option nat) (i : nat)
    (cd : record float) :
  NoDup (keys data_dict) ->
  chunk_fields self data_dict ks [] None = Ok (dc, nc) ->
  mapM (fun kv => c <- list_index (snd kv) i ;; Ok (fst kv, c)) dc = Ok cd ->
  (forall k, In k ks ->
     exists chunks w,
       field_chunks self data_dict k = Ok chunks
       /\ nth_error chunks i = Some w
       /\ dict_find (dict_update cd
                       (filter (fun kv => negb (dict_mem cd (fst kv))) data_dict)) k
          = Some w)
  /\ (forall k, ~ In k ks ->
        dict_find (dict_update cd
                     (filter (fun kv => negb (dict_mem cd (fst kv))) data_dict)) k
        = dict_find data_dict k).
Proof.
  intros Hnd Hcf Hcd.
  destruct (chunk_fields_dict self data_dict _ _ _ _ _ Hcf) as (Hin & Hout).
  pose proof (chunk_data_lookup i dc cd Hcd) as Hlook.
  assert (Hfind : forall k,
             dict_find (dict_update cd
                          (filter (fun kv => negb (dict_mem cd (fst kv))) data_dict)) k
             = match dict_find cd k with
               | Some v => Some v
               | None => dict_find data_dict k
               end).
  { intros k. rewrite dict_find_update by (apply NoDup_keys_filter; exact Hnd).
    rewrite (dict_find_filter (fun k' => negb (dict_mem cd k')) data_dict k).
    unfold dict_mem. destruct (dict_find cd k); cbn [negb]; [reflexivity|].
    destruct (dict_find data_dict k); reflexivity. }
  split.
  - intros k Hk. destruct (Hin k Hk) as (chunks & Hfc & Hdc).
    assert (Hw : exists w, nth_error chunks i = Some w).
    { pose proof (mapM_Forall2 _ _ _ Hcd) as HF.
      destruct (Forall2_In_l _ _ _ (k, chunks) HF (dict_find_In dc k chunks Hdc))
        as (kv' & _ & Hkv).
      cbn [fst snd] in Hkv. apply bind_Ok in Hkv. destruct Hkv as (c & Hc & _).
      unfold list_index in Hc.
      destruct (nth_error chunks i) as [w|]; [eauto | discriminate]. }
    destruct Hw as (w & Hw).
    exists chunks, w. split; [exact Hfc|]. split; [exact Hw|].
    rewrite Hfind, Hlook, Hdc, Hw. reflexivity.
  - intros k Hk. rewrite Hfind, Hlook, (Hout k Hk). reflexivity.
Qed.

(** X10. What the chunker yields for one source record: at least one
    record and no exception; as many records as every field in force has
    windows; record [i] holds window [i] of every field in force and the
    other fields of the source record as they are. *)
Theorem chunked_records (self : ChunkingIterDataPipe float)
    (chunking_data_keys ks : list string) (data_dict : record float)
    (g : gen (record float)) :
  NoDup (keys data_dict) ->
  chunk_record self chunking_data_keys data_dict = Ok (ks, g) ->
  snd g = None
  /\ (1 <= List.length (fst g))%nat
  /\ forall i r, nth_error (fst g) i = Some r ->
       (forall k, In k ks ->
          exists chunks w,
            field_chunks self data_dict k = Ok chunks
            /\ List.length chunks = List.length (fst g)
            /\ nth_error chunks i = Some w
            /\ dict_find r k = Some w)
       /\ (forall k, ~ In k ks -> dict_find r k = dict_find data_dict k).
Proof.
  intros Hnd H.
  destruct (chunk_record_emitted _ _ _ _ _ H)
    as (dc & n & recs & _ & Hcf & -> & HL & _ & Hrecs).
  cbn [fst snd]. split; [reflexivity|]. split; [lia|].
  intros i r Hr. destruct (Hrecs i r Hr) as (cd & Hcd & ->).
  destruct (emitted_record_lookup self data_dict ks dc _ i cd Hnd Hcf Hcd)
    as (Hin & Hout).
  split; [|exact Hout].
  intros k Hk. destruct (Hin k Hk) as (chunks & w & Hfc & Hw & Hfind).
  exists chunks, w. split; [exact Hfc|]. split; [|split; assumption].
  destruct (chunk_fields_counts float self data_dict _ _ _ _ _ Hcf) as (_ & Hcount).
  destruct (Hcount k Hk) as (chunks' & Hfc' & Hn).
  rewrite Hfc in Hfc'. injection Hfc' as <-. injection Hn as Hn. lia.
Qed.

(** With a positive step, an empty sequence has no window. *)
Lemma chunks_of_empty (chunk_size chunk_step : Z) (v : InputType float) :
  (0 < chunk_step)%Z -> py_len v = Ok 0%nat ->
  chunks_of chunk_size chunk_step v = Ok [].
Proof.
  intros Hstep Hlen. unfold chunks_of. rewrite Hlen. cbn [bind].
  unfold py_range0. destruct (Z.eqb_spec chunk_step 0); [lia|].
  destruct (Z.ltb_spec chunk_step 0); [lia|]. reflexivity.
Qed.

Lemma chunk_fields_all_empty (self : ChunkingIterDataPipe float)
    (data_dict : record float) :
  forall (ks : list string) (dc : dict (list (InputType float))) (nc : option nat),
    (forall k, In k ks -> field_chunks self data_dict k = Ok []) ->
    nc = None \/ nc = Some 0%nat ->
    exists dc' nc', chunk_fields self data_dict ks dc nc = Ok (dc', nc')
                    /\ (nc' = None \/ nc' = Some 0%nat).
Proof.
  induction ks as [|k0 ks IH]; intros dc nc Hall Hnc; cbn [chunk_fields].
  - exists dc, nc. split; [reflexivity | exact Hnc].
  - rewrite (Hall k0 (or_introl eq_refl)). cbn [bind List.length].
    destruct Hnc as [->| ->]; cbn [bind py_assert Nat.eqb];
      apply IH; auto; intros k Hk; apply Hall; right; exact Hk.
Qed.

(** X11. A first record in which every field in force is an empty sequence
    stops the chunker: no window is made of it, and the iteration ends with
    the assertion on the number of chunks before anything is yielded. *)
Theorem empty_sequence_stops_the_chunker (chunking : chunking_spec)
    (self : ChunkingIterDataPipe float) (data_dict : record float)
    (rest : list (record float)) (ks : list string) :
  ChunkingIterDataPipe_init (data_dict :: rest) chunking = Ok self ->
  active_keys (NumbersDict.keys (_chunk_size self)) data_dict = Ok ks ->
  (forall k, In k ks ->
     exists v, dict_find data_dict k = Some v /\ py_len v = Ok 0%nat) ->
  ChunkingIterDataPipe_iter self = ([], Some (AssertionError no_chunk_msg)).
Proof.
  intros Hinit Hks Hempty.
  destruct (init_Parsed float _ _ _ Hinit) as (Hp & Hds).
  assert (Hfc : forall k, In k ks -> field_chunks self data_dict k = Ok []).
  { intros k Hk.
    assert (Hforce : NumbersDict.keys (_chunk_size self) = []
                     \/ In k (NumbersDict.keys (_chunk_size self))).
    { unfold active_keys in Hks.
      destruct (NumbersDict.keys (_chunk_size self)) as [|k' l];
        [left; reflexivity|]. injection Hks as <-. right. exact Hk. }
    destruct (lookups_in_force float _ _ _ k Hinit Hforce)
      as (cs & st & Hcs & Hst & _ & Hst0).
    destruct (Hempty k Hk) as (v & Hv & Hlen).
    unfold field_chunks, dict_get. rewrite Hcs, Hst, Hv. cbn [bind].
    exact (chunks_of_empty cs st v Hst0 Hlen). }
  destruct (chunk_fields_all_empty self data_dict ks [] None Hfc (or_introl eq_refl))
    as (dc' & nc' & Hcf & Hnc).
  unfold ChunkingIterDataPipe_iter. rewrite Hds. cbn [chunking_loop].
  unfold chunk_record. rewrite Hks. cbn [bind]. rewrite Hcf. cbn [bind].
  destruct Hnc as [->| ->]; reflexivity.
Qed.

Lemma active_keys_nonempty (chunking_data_keys ks : list string)
    (data_dict : record float) (other : record float) :
  active_keys chunking_data_keys data_dict = Ok ks ->
  ks <> [] /\ active_keys ks other = Ok ks.
Proof.
  unfold active_keys. intros H.
  assert (Hne : ks <> []).
  { destruct chunking_data_keys as [|k0 l]; [|injection H as <-; discriminate].
    unfold infer_chunking_data_keys in H.
    inv_bind H. inv_bind H. inv_bind H. injection H as <-.
    unfold py_assert in Ha1. intros ->. discriminate. }
  split; [exact Hne|]. destruct ks; [contradiction | reflexivity].
Qed.

Lemma chunk_fields_total (self : ChunkingIterDataPipe float)
    (data_dict : record float) (n : nat) :
  forall (ks : list string) (dc : dict (list (InputType float))) (nc : option nat),
    (forall k, In k ks ->
       exists chunks, field_chunks self data_dict k = Ok chunks
                      /\ List.length chunks = n) ->
    nc = None \/ nc = Some n ->
    exists dc', chunk_fields self data_dict ks dc nc
                = Ok (dc', match ks with [] => nc | _ :: _ => Some n end).
Proof.
  induction ks as [|k0 ks IH]; intros dc nc Hall Hnc; cbn [chunk_fields].
  - eexists. reflexivity.
  - destruct (Hall k0 (or_introl eq_refl)) as (chunks & Hfc & Hlen).
    rewrite Hfc. cbn [bind].
    assert (Hnum : match nc with
                   | None => Ok (List.length chunks)
                   | Some m =>
                       _ <- py_assert (Nat.eqb m (List.length chunks)) chunks_differ_msg ;;
                       Ok m
                   end = Ok n).
    { destruct Hnc as [->| ->]; [rewrite Hlen; reflexivity|].
      rewrite Hlen, Nat.eqb_refl. reflexivity. }
    rewrite Hnum. cbn [bind].
    destruct (IH (dict_set dc k0 chunks) (Some n)
                (fun k Hk => Hall k (or_intror Hk)) (or_intror eq_refl)) as (dc' & Hdc').
    rewrite Hdc'. exists dc'. destruct ks; reflexivity.
Qed.

(** A record with [n >= 1] windows in every field in force yields [n]
    records and raises nothing. *)
Lemma chunk_record_total (self : ChunkingIterDataPipe float)
    (chunking_data_keys ks : list string) (data_dict : record float) (n : nat) :
  active_keys chunking_data_keys data_dict = Ok ks ->
  (1 <= n)%nat ->
  (forall k, In k ks ->
     exists chunks, field_chunks self data_dict k = Ok chunks
                    /\ List.length chunks = n) ->
  exists g, chunk_record self chunking_data_keys data_dict = Ok (ks, g)
            /\ snd g = None /\ List.length (fst g) = n.
Proof.
  intros Hks Hn Hall.
  destruct (active_keys_nonempty _ _ _ data_dict Hks) as (Hne & _).
  destruct (chunk_fields_total self data_dict n ks [] None Hall (or_introl eq_refl))
    as (dc & Hdc).
  destruct ks as [|k0 ks']; [contradiction|].
  destruct (chunk_fields_lengths self data_dict _ _ _ _ _ Hdc) as (Hlen & _);
    [discriminate | reflexivity |].
  specialize (Hlen n eq_refl).
  destruct n as [|m]; [lia|].
  destruct (emit_chunks_spec data_dict dc (S m) Hlen (seq 0 (S m)))
    as (recs & Hrecs & HF); [intros i Hi; apply in_seq in Hi; lia|].
  unfold chunk_record. rewrite Hks. cbn [bind]. rewrite Hdc. cbn [bind].
  eexists. split; [reflexivity|]. rewrite Hrecs. cbn [fst snd].
  split; [reflexivity|].
  pose proof (Forall2_length HF) as HL. rewrite length_seq in HL.
  symmetry. exact HL.
Qed.

Lemma chunking_loop_total (self : ChunkingIterDataPipe float) (ks : list string)
    (n_of : record float -> nat) :
  ks <> [] ->
  forall dataset : list (record float),
    (forall data_dict, In data_dict dataset ->
       (1 <= n_of data_dict)%nat
       /\ forall k, In k ks ->
            exists chunks, field_chunks self data_dict k = Ok chunks
                           /\ List.length chunks = n_of data_dict) ->
    snd (chunking_loop self ks dataset) = None
    /\ List.length (fst (chunking_loop self ks dataset)) = list_sum (map n_of dataset).
Proof.
  intros Hne. induction dataset as [|data_dict rest IH]; intros Hall;
    cbn [chunking_loop map list_sum].
  - split; reflexivity.
  - destruct (Hall data_dict (or_introl eq_refl)) as (Hn & Hk).
    assert (Hks : active_keys ks data_dict = Ok ks)
      by (destruct ks; [contradiction | reflexivity]).
    destruct (chunk_record_total self ks ks data_dict _ Hks Hn Hk)
      as (g & Hg & Hsnd & Hlen).
    rewrite Hg. cbn [gen_try fst snd]. unfold gen_then. rewrite Hsnd.
    destruct (IH (fun d Hd => Hall d (or_intror Hd))) as (IH1 & IH2).
    cbn [fst snd]. split; [exact IH1|].
    rewrite length_app, Hlen, IH2. reflexivity.
Qed.

(** X12. The chunker on a source all of whose records have windows: when
    every record has the same number [n_of record >= 1] of windows in every
    field in force (the keys the sizes list, else those inferred from the
    first record, which stay in force for all later records), the iteration
    ends normally and yields [n_of record] records for each record of the
    source. *)
Theorem chunker_yields_all_windows (chunking : chunking_spec)
    (self : ChunkingIterDataPipe float) (first : record float)
    (rest : list (record float)) (ks : list string) (n_of : record float -> nat) :
  ChunkingIterDataPipe_init (first :: rest) chunking = Ok self ->
  active_keys (NumbersDict.keys (_chunk_size self)) first = Ok ks ->
  (forall data_dict, In data_dict (first :: rest) ->
     (1 <= n_of data_dict)%nat
     /\ forall k, In k ks ->
          exists chunks, field_chunks self data_dict k = Ok chunks
                         /\ List.length chunks = n_of data_dict) ->
  snd (ChunkingIterDataPipe_iter self) = None
  /\ List.length (fst (ChunkingIterDataPipe_iter self))
     = list_sum (map n_of (first :: rest)).
Proof.
  intros Hinit Hks Hall.
  destruct (init_Parsed float _ _ _ Hinit) as (_ & Hds).
  destruct (active_keys_nonempty _ _ _ first Hks) as (Hne & _).
  unfold ChunkingIterDataPipe_iter. rewrite Hds. cbn [chunking_loop map list_sum].
  destruct (Hall first (or_introl eq_refl)) as (Hn & Hk).
  destruct (chunk_record_total self _ ks first _ Hks Hn Hk) as (g & Hg & Hsnd & Hlen).
  rewrite Hg. cbn [gen_try fst snd]. unfold gen_then. rewrite Hsnd.
  destruct (chunking_loop_total self ks n_of Hne rest
              (fun d Hd => Hall d (or_intror Hd))) as (H1 & H2).
  cbn [fst snd]. split; [exact H1|].
  rewrite length_app, Hlen, H2. reflexivity.
Qed.

Lemma chunk_record_counts (self : ChunkingIterDataPipe float)
    (chunking_data_keys ks : list string) (data_dict : record float)
    (g : gen (record float)) :
  chunk_record self chunking_data_keys data_dict = Ok (ks, g) ->
  active_keys chunking_data_keys data_dict = Ok ks
  /\ (1 <= List.length (fst g))%nat
  /\ forall k, In k ks ->
       exists chunks, field_chunks self data_dict k = Ok chunks
                      /\ List.length chunks = List.length (fst g).
Proof.
  intros H. unfold chunk_record in H.
  inv_bind H. inv_bind H. destruct a0 as [dc nc].
  destruct nc as [[|n]|]; try discriminate.
  assert (Hg : g = emit_chunks data_dict dc (seq 0 (S n)) /\ ks = a)
    by (split; congruence).
  destruct Hg as (-> & ->). clear H.
  destruct (chunk_fields_counts float self data_dict _ _ _ _ _ Ha0) as (_ & Hcount).
  destruct (chunk_fields_lengths self data_dict _ _ _ _ _ Ha0) as (Hlen & _);
    [discriminate | reflexivity |].
  specialize (Hlen (S n) eq_refl).
  destruct (emit_chunks_spec data_dict dc (S n) Hlen (seq 0 (S n)))
    as (recs & Hrecs & HF); [intros i Hi; apply in_seq in Hi; lia|].
  rewrite Hrecs. cbn [fst snd].
  pose proof (Forall2_length HF) as HL. rewrite length_seq in HL.
  change (S n = @List.length (record float) recs) in HL.
  split; [exact Ha|]. split; [lia|].
  intros k Hk. destruct (Hcount k Hk) as (chunks & Hfc & Hn).
  exists chunks. split; [exact Hfc|]. injection Hn as Hn. lia.
Qed.

(** X13. What a record must be like for the chunker to take it: every field
    in force is in the record, with a value that has a length (an array with
    an axis, or a string) of at least 1; the sizes and steps hold a number
    for it, the step positive; and the record yields as many records as a
    field of that length has windows for that step. *)
Theorem chunked_record_requirements (self : ChunkingIterDataPipe float)
    (chunking_data_keys ks : list string) (data_dict : record float)
    (g : gen (record float)) :
  chunk_record self chunking_data_keys data_dict = Ok (ks, g) ->
  ks <> []
  /\ forall k, In k ks ->
       exists v L cs st,
         dict_find data_dict k = Some v
         /\ py_len v = Ok L /\ (1 <= L)%nat
         /\ NumbersDict.getitem (_chunk_size self) k = Ok cs
         /\ NumbersDict.getitem (_chunk_step self) k = Ok st /\ (0 < st)%Z
         /\ List.length (fst g) = num_windows L st.
Proof.
  intros H. destruct (chunk_record_counts _ _ _ _ _ H) as (Hks & Hn & Hall).
  split; [exact (proj1 (active_keys_nonempty _ _ _ data_dict Hks))|].
  intros k Hk. destruct (Hall k Hk) as (chunks & Hfc & Hlen).
  unfold field_chunks in Hfc.
  apply bind_Ok in Hfc. destruct Hfc as (cs & Hcs & Hfc).
  apply bind_Ok in Hfc. destruct Hfc as (st & Hst & Hfc).
  apply bind_Ok in Hfc. destruct Hfc as (v & Hv & Hfc).
  unfold dict_get in Hv. destruct (dict_find data_dict k) as [v'|]; [|discriminate].
  injection Hv as ->.
  unfold chunks_of in Hfc.
  apply bind_Ok in Hfc. destruct Hfc as (L & HL & Hfc).
  apply bind_Ok in Hfc. destruct Hfc as (starts & Hstarts & Hfc).
  apply mapM_length in Hfc.
  assert (Hst0 : (0 < st)%Z).
  { unfold py_range0 in Hstarts.
    destruct (Z.eqb_spec st 0); [discriminate|].
    destruct (Z.ltb_spec st 0); [|lia].
    injection Hstarts as <-. cbn [List.length] in Hfc. lia. }
  assert (HL1 : (1 <= L)%nat).
  { destruct L as [|L']; [|lia]. exfalso.
    unfold py_range0 in Hstarts.
    destruct (Z.eqb_spec st 0); [discriminate|].
    destruct (Z.ltb_spec st 0); [lia|].
    injection Hstarts as <-. cbn [List.length] in Hfc. lia. }
  rewrite (py_range0_spec L st Hst0 HL1) in Hstarts. injection Hstarts as <-.
  rewrite length_map, length_seq in Hfc.
  exists v, L, cs, st. repeat (split; [assumption || reflexivity|]). lia.
Qed.

(** An array no longer than the size and the step has one window, itself. *)
Lemma single_window (a : ndarray float) (trailing : list nat)
    (rs : list (nested float)) (cs st : Z) (chunks : list (InputType float)) :
  rows_agree a trailing rs ->
  (1 <= List.length rs)%nat ->
  (Z.of_nat (List.length rs) <= cs)%Z ->
  (Z.of_nat (List.length rs) <= st)%Z ->
  chunks_of cs st (Array a) = Ok chunks ->
  chunks = [Array a].
Proof.
  intros Hwf HL Hcs Hst Hc.
  rewrite (chunks_of_array float a trailing rs cs st chunks Hwf ltac:(lia) ltac:(lia) Hc).
  assert (Hn : num_windows (List.length rs) st = 1%nat).
  { unfold num_windows. rewrite Z.div_small by lia. reflexivity. }
  rewrite Hn. cbn [seq map Nat.mul]. unfold window.
  change (skipn 0 rs) with rs. rewrite firstn_all2 by lia.
  destruct Hwf as (Hshape & Hdata). destruct a as [d sh da].
  cbn [shape data dtype] in *. subst. reflexivity.
Qed.

(** X14. Chunking leaves short records as they are: a record in which every
    field in force is an array no longer than its chunk size and its chunk
    step yields one record, with the same value as the source record under
    every key. *)
Theorem short_records_pass_unchanged (self : ChunkingIterDataPipe float)
    (chunking_data_keys ks : list string) (data_dict : record float)
    (g : gen (record float)) :
  NoDup (keys data_dict) ->
  chunk_record self chunking_data_keys data_dict = Ok (ks, g) ->
  (forall k, In k ks ->
     exists a trailing rs cs st,
       dict_find data_dict k = Some (Array a)
       /\ rows_agree a trailing rs
       /\ NumbersDict.getitem (_chunk_size self) k = Ok cs
       /\ NumbersDict.getitem (_chunk_step self) k = Ok st
       /\ (Z.of_nat (List.length rs) <= cs)%Z
       /\ (Z.of_nat (List.length rs) <= st)%Z) ->
  exists r, g = ([r], None) /\ forall k, dict_find r k = dict_find data_dict k.
Proof.
  intros Hnd H Hshort.
  destruct (chunk_record_emitted _ _ _ _ _ H)
    as (dc & n & recs & Hks & Hcf & -> & HL & _ & Hrecs).
  destruct (chunk_fields_counts float self data_dict _ _ _ _ _ Hcf) as (_ & Hcount).
  assert (Hone : forall k, In k ks ->
             exists a, dict_find data_dict k = Some (Array a)
                       /\ field_chunks self data_dict k = Ok [Array a]).
  { intros k Hk.
    destruct (Hshort k Hk) as (a & trailing & rs & cs & st & Hv & Hwf & Hcs & Hst & H1 & H2).
    destruct (Hcount k Hk) as (chunks & Hfc & Hn).
    exists a. split; [exact Hv|]. rewrite Hfc. f_equal.
    unfold field_chunks, dict_get in Hfc. rewrite Hcs, Hst, Hv in Hfc. cbn [bind] in Hfc.
    assert (Hst0 : (0 < st)%Z).
    { assert (st <> 0)%Z; [|lia]. intros ->.
      unfold chunks_of, py_len in Hfc. rewrite (proj1 Hwf) in Hfc. discriminate. }
    assert (HL1 : (1 <= List.length rs)%nat).
    { destruct (List.length rs) as [|m] eqn:E; [|lia]. exfalso.
      assert (Hlen : py_len (Array a) = Ok 0%nat).
      { unfold py_len. rewrite (proj1 Hwf), E. reflexivity. }
      rewrite (chunks_of_empty cs st (Array a) Hst0 Hlen) in Hfc.
      injection Hfc as <-. discriminate. }
    exact (single_window a trailing rs cs st chunks Hwf HL1 H1 H2 Hfc). }
  assert (Hn0 : n = 0%nat).
  { destruct (active_keys_nonempty _ _ _ data_dict Hks) as (Hne & _).
    destruct ks as [|k0 ks']; [contradiction|].
    destruct (Hone k0 (or_introl eq_refl)) as (a & _ & Hfc).
    destruct (Hcount k0 (or_introl eq_refl)) as (chunks & Hfc' & Hn).
    rewrite Hfc in Hfc'. injection Hfc' as <-. injection Hn as ->. reflexivity. }
  subst n. destruct recs as [|r [|r' recs']]; try discriminate.
  exists r. split; [reflexivity|].
  destruct (Hrecs 0%nat r eq_refl) as (cd & Hcd & ->).
  destruct (emitted_record_lookup self data_dict ks dc _ 0%nat cd Hnd Hcf Hcd)
    as (Hin & Hout).
  intros k. destruct (in_dec string_dec k ks) as [Hk|Hk]; [|exact (Hout k Hk)].
  destruct (Hin k Hk) as (chunks & w & Hfc & Hw & Hfind).
  destruct (Hone k Hk) as (a & Hv & Hfc').
  rewrite Hfc' in Hfc. injection Hfc as <-. injection Hw as <-.
  rewrite Hfind, Hv. reflexivity.
Qed.


End FurtherChunkingIter.

(** ** Collation: which fields and which records count *)

Section FurtherCollation.

Variable float : Type.
Variable float_zero : float.

Lemma mapM_ext_in {A B : Type} (f f' : A -> result B) (l : list A) :
  (forall a, In a l -> f a = f' a) -> mapM f l = mapM f' l.
Proof.
  induction l as [|a l IH]; intros H; cbn [mapM]; [reflexivity|].
  rewrite (H a (or_introl eq_refl)), IH; [reflexivity|].
  intros x Hx. apply H. right. exact Hx.
Qed.

Lemma collate_key_ext (batch batch' : list (record float))
    (res : dict (collated float)) (key : string) :
  tensors_of batch key = tensors_of batch' key ->
  collate_key float_zero batch res key = collate_key float_zero batch' res key.
Proof.
  unfold tensors_of, collate_key. intros H. rewrite H. reflexivity.
Qed.

Lemma collate_keys_ext (batch batch' : list (record float)) :
  forall (ks : list string) (res : dict (collated float)),
    (forall k, In k ks -> tensors_of batch k = tensors_of batch' k) ->
    collate_keys float_zero batch res ks = collate_keys float_zero batch' res ks.
Proof.
  induction ks as [|k ks IH]; intros res H; cbn [collate_keys]; [reflexivity|].
  rewrite (collate_key_ext batch batch' res k (H k (or_introl eq_refl))).
  destruct (collate_key float_zero batch' res k) as [res1|e]; cbn [bind]; [|reflexivity].
  apply IH. intros k' Hk'. apply H. right. exact Hk'.
Qed.

Lemma dict_find_restrict (ks : list string) (r : record float) (k : string) :
  In k ks -> dict_find (restrict ks r) k = dict_find r k.
Proof.
  intros Hin. unfold restrict.
  induction r as [|[k0 v0] r IH]; cbn [filter fst dict_find]; [reflexivity|].
  destruct (in_dec string_dec k0 ks) as [H0|H0]; cbn [dict_find].
  - rewrite IH. reflexivity.
  - rewrite IH. destruct (String.eqb_spec k0 k) as [->|]; [contradiction | reflexivity].
Qed.

Lemma restrict_own_keys (r : record float) (ks : list string) :
  (forall k, In k (keys r) -> In k ks) -> restrict ks r = r.
Proof.
  unfold restrict. induction r as [|[k0 v0] r IH]; intros H; cbn [filter fst];
    [reflexivity|].
  destruct (in_dec string_dec k0 ks) as [H0|H0].
  - rewrite IH; [reflexivity|]. intros k Hk. apply H. right. exact Hk.
  - exfalso. apply H0. apply H. left. reflexivity.
Qed.

(** X16. [collate_batch] looks up in every record the fields the first
    record has, and nothing else: fields a later record has beyond those of
    the first record have no effect on the result. *)
Theorem extra_fields_of_later_records_ignored (first : record float)
    (rest : list (record float)) :
  collate_batch float_zero (first :: rest)
  = collate_batch float_zero (first :: map (restrict (keys first)) rest).
Proof.
  unfold collate_batch. apply collate_keys_ext. intros k Hk.
  rewrite <- (restrict_own_keys first (keys first) (fun k' H => H)) at 2.
  change (restrict (keys first) first :: map (restrict (keys first)) rest)
    with (map (restrict (keys first)) (first :: rest)).
  unfold tensors_of. rewrite mapM_map. apply mapM_ext_in. intros r _.
  unfold dict_get. rewrite (dict_find_restrict (keys first) r k Hk). reflexivity.
Qed.

Lemma collate_keys_each (batch : list (record float)) :
  forall (ks : list string) (res res' : dict (collated float)),
    collate_keys float_zero batch res ks = Ok res' ->
    forall k, In k ks ->
      exists r1 r2, collate_key float_zero batch r1 k = Ok r2.
Proof.
  induction ks as [|k0 ks IH]; intros res res' H k Hk; [contradiction|].
  cbn [collate_keys] in H. inv_bind H.
  destruct Hk as [<-|Hk]; [eauto | exact (IH _ _ H k Hk)].
Qed.

Lemma mapM_as_tensor (ls : list (OutputType float)) (ts : list (Tensor float)) :
  mapM (@as_tensor float) ls = Ok ts ->
  forall l, In l ls -> exists t, l = TensorV t.
Proof.
  intros H l Hl. apply mapM_Forall2 in H.
  destruct (Forall2_In_l _ _ _ l H Hl) as (t & _ & Ht).
  destruct l as [t'|s]; [eauto | discriminate].
Qed.

(** X17. A batch that [collate_batch] accepts is not empty, and every record
    of it has every field of the first record, with a value [create_tensor]
    takes; where the first record has an array, every record has one. *)
Theorem collated_records_have_the_fields (batch : list (record float))
    (res : dict (collated float)) :
  collate_batch float_zero batch = Ok res ->
  exists first rest,
    batch = first :: rest
    /\ forall k, In k (keys first) ->
         (forall r, In r batch ->
            exists v, dict_find r k = Some v /\ creatable v = true)
         /\ (forall a0, dict_find first k = Some (Array a0) ->
             forall r, In r batch -> exists a, dict_find r k = Some (Array a)).
Proof.
  intros H. destruct batch as [|first rest]; [discriminate|].
  exists first, rest. split; [reflexivity|]. intros k Hk.
  unfold collate_batch in H.
  destruct (collate_keys_each _ _ _ _ H k Hk) as (r1 & r2 & Hstep).
  unfold collate_key in Hstep. inv_bind Hstep.
  pose proof (mapM_Forall2 _ _ _ Ha) as HF.
  assert (Hval : forall r, In r (first :: rest) ->
             exists v l, dict_find r k = Some v /\ create_tensor v = Ok l /\ In l a).
  { intros r Hr. destruct (Forall2_In_l _ _ _ r HF Hr) as (l & Hl & Hrl).
    unfold dict_get in Hrl. destruct (dict_find r k) as [v|]; [|discriminate].
    exists v, l. auto. }
  split.
  - intros r Hr. destruct (Hval r Hr) as (v & l & Hv & Hc & _).
    exists v. split; [exact Hv|].
    destruct v as [a'|s]; [|reflexivity]. unfold create_tensor in Hc.
    unfold creatable, to_torch. destruct (dtype a'); [reflexivity | reflexivity | discriminate].
  - intros a0 Hfirst r Hr.
    assert (Hts : exists ts, mapM (@as_tensor float) a = Ok ts).
    { inversion HF as [|x y l l' Hxy HF' E1 E2]; subst.
      unfold dict_get in Hxy. rewrite Hfirst in Hxy. cbn [bind] in Hxy.
      destruct y as [t0|s0];
        [|unfold create_tensor in Hxy; destruct (dtype a0); discriminate].
      apply bind_Ok in Hstep. destruct Hstep as (pr & Hpr & _).
      destruct (Nat.ltb 0 (List.length (size t0))).
      - apply bind_Ok in Hpr. destruct Hpr as (padded & Hpad & _).
        unfold pad_sequence in Hpad.
        apply bind_Ok in Hpad. destruct Hpad as (ts & Hts & _). eauto.
      - apply bind_Ok in Hpr. destruct Hpr as (padded & Hpad & _).
        unfold stack in Hpad.
        apply bind_Ok in Hpad. destruct Hpad as (ts & Hts & _). eauto. }
    destruct Hts as (ts & Hts).
    destruct (Hval r Hr) as (v & l & Hv & Hc & Hl).
    destruct (mapM_as_tensor a ts Hts l Hl) as (t & ->).
    destruct v as [a'|s]; [eauto | discriminate].
Qed.

Lemma keys_dict_set {V : Type} (d : dict V) (k : string) (v : V) (t : string) :
  In t (keys (dict_set d k v)) <-> t = k \/ In t (keys d).
Proof.
  unfold keys. induction d as [|[k' v'] d IH]; cbn [dict_set map fst].
  - simpl. intuition congruence.
  - destruct (String.eqb_spec k' k) as [->|Hne]; cbn [map fst In].
    + intuition congruence.
    + rewrite IH. intuition congruence.
Qed.

Lemma set_sizes_keys (key : string) (ls : list (OutputType float)) :
  forall (axes : list nat) (res res' : dict (collated float)),
    set_sizes res key ls axes = Ok res' ->
    forall t, In t (keys res')
              <-> In t (keys res) \/ exists i, In i axes /\ t = size_key key (i + 1).
Proof.
  induction axes as [|i0 axes IH]; intros res res' H t; cbn [set_sizes] in H.
  - injection H as <-. split; [auto | intros [Ht|(i & [] & _)]; exact Ht].
  - apply bind_Ok in H. destruct H as (sizes & _ & H).
    rewrite (IH _ _ H t), keys_dict_set. split.
    + intros [[->|Ht]|(i & Hi & ->)]; eauto.
      * right. exists i0. split; [left; reflexivity | reflexivity].
      * right. exists i. split; [right; exact Hi | reflexivity].
    + intros [Ht|(i & [<-|Hi] & ->)]; eauto.
Qed.

(** The keys after the step of the loop for [key]: those before, [key], and
    derived names of [key]. *)
Lemma collate_key_keys (batch : list (record float)) (key : string)
    (res res' : dict (collated float)) :
  collate_key float_zero batch res key = Ok res' ->
  (forall t, In t (keys res') ->
     In t (keys res) \/ t = key \/ exists i, t = size_key key i)
  /\ (forall t, In t (keys res) \/ t = key -> In t (keys res')).
Proof.
  unfold collate_key. intros H.
  apply bind_Ok in H. destruct H as (ls & _ & H).
  destruct ls as [|[t0|s0] ls']; [discriminate| |].
  - apply bind_Ok in H. destruct H as ([padded res1] & Hr & H). injection H as <-.
    assert (Hres1 : forall t, In t (keys res1)
                              <-> In t (keys res)
                                  \/ exists i, In i (if Nat.ltb 0 (List.length (size t0))
                                                     then seq 0 (List.length (size t0))
                                                     else [])
                                               /\ t = size_key key (i + 1)).
    { destruct (Nat.ltb 0 (List.length (size t0))).
      - apply bind_Ok in Hr. destruct Hr as (p & _ & Hr).
        apply bind_Ok in Hr. destruct Hr as (res2 & Hset & Hr). injection Hr as _ <-.
        exact (set_sizes_keys key _ _ _ _ Hset).
      - apply bind_Ok in Hr. destruct Hr as (p & _ & Hr). injection Hr as _ <-.
        intros t. split; [auto | intros [Ht|(i & [] & _)]; exact Ht]. }
    split; intros t; rewrite !keys_dict_set, Hres1.
    + intros [->|[->|[Ht|(i & _ & ->)]]]; eauto.
    + intros [Ht| ->]; auto.
  - injection H as <-. split; intros t; rewrite keys_dict_set; intuition.
Qed.

Lemma collate_keys_keys (batch : list (record float)) :
  forall (ks : list string) (res res' : dict (collated float)),
    collate_keys float_zero batch res ks = Ok res' ->
    (forall t, In t (keys res') ->
       In t (keys res) \/ exists k, In k ks /\ (t = k \/ exists i, t = size_key k i))
    /\ (forall t, In t (keys res) \/ In t ks -> In t (keys res')).
Proof.
  induction ks as [|k0 ks IH]; intros res res' H; cbn [collate_keys] in H.
  - injection H as <-. split; [auto | intros t [Ht|[]]; exact Ht].
  - apply bind_Ok in H. destruct H as (res1 & Hstep & H).
    destruct (IH _ _ H) as (IH1 & IH2).
    destruct (collate_key_keys _ _ _ _ Hstep) as (S1 & S2).
    split; intros t.
    + intros Ht. destruct (IH1 t Ht) as [Ht1|(k & Hk & Hd)].
      * destruct (S1 t Ht1) as [Hres|Hd]; [left; exact Hres|].
        right. exists k0. split; [left; reflexivity | exact Hd].
      * right. exists k. split; [right; exact Hk | exact Hd].
    + intros [Ht|[<-|Ht]]; apply IH2; auto.
Qed.

(** X18. The keys of a collated batch are the field names of the first
    record and derived names [<field>:size<i>] of these, and nothing else;
    every field name of the first record is among them. *)
Theorem collated_keys_come_from_first_record (first : record float)
    (rest : list (record float)) (res : dict (collated float)) :
  collate_batch float_zero (first :: rest) = Ok res ->
  (forall t, In t (keys res) ->
     exists k, In k (keys first) /\ (t = k \/ exists i, t = size_key k i))
  /\ (forall k, In k (keys first) -> In k (keys res)).
Proof.
  unfold collate_batch. intros H.
  destruct (collate_keys_keys _ _ _ _ H) as (H1 & H2). split.
  - intros t Ht. destruct (H1 t Ht) as [[]|Hk]. exact Hk.
  - intros k Hk. apply H2. right. exact Hk.
Qed.

Lemma collate_keys_frame (batch : list (record float)) (target : string) :
  forall (ks : list string) (res res' : dict (collated float)),
    (forall key, In key ks ->
       forall r1 r2, collate_key float_zero batch r1 key = Ok r2 ->
                     dict_find r2 target = dict_find r1 target) ->
    collate_keys float_zero batch res ks = Ok res' ->
    dict_find res' target = dict_find res target.
Proof.
  induction ks as [|k0 ks IH]; intros res res' Hk H; cbn [collate_keys] in H.
  - injection H as <-. reflexivity.
  - apply bind_Ok in H. destruct H as (res1 & Hstep & H).
    rewrite (IH _ _ (fun key Hin => Hk key (or_intror Hin)) H).
    exact (Hk k0 (or_introl eq_refl) _ _ Hstep).
Qed.

Lemma collate_key_plain (batch : list (record float)) (key : string)
    (res : dict (collated float)) (ls ls' : list (OutputType float))
    (s : scalar float) :
  tensors_of batch key = Ok ls ->
  ls = PlainV s :: ls' ->
  collate_key float_zero batch res key = Ok (dict_set res key (CList ls)).
Proof.
  intros Hls Heq. unfold collate_key.
  change (mapM (fun sample => v <- dict_get sample key ;; create_tensor v) batch)
    with (tensors_of batch key).
  rewrite Hls. cbn [bind]. rewrite Heq. reflexivity.
Qed.

(** X19. A field whose value in the first record is no array is not padded
    and gets no size entries: the collated batch holds under its name the
    list of the records' values as [create_tensor] returns them, in the
    order of the batch, and nothing under its derived names. *)
Theorem plain_fields_are_listed (batch : list (record float))
    (first : record float) (rest : list (record float)) (field : string)
    (s : scalar float) (res : dict (collated float)) :
  batch = first :: rest ->
  no_collision (keys first) ->
  dict_find first field = Some (Plain s) ->
  collate_batch float_zero batch = Ok res ->
  exists ls,
    tensors_of batch field = Ok ls
    /\ List.length ls = List.length batch
    /\ dict_find res field = Some (CList ls)
    /\ forall i, dict_find res (size_key field i) = None.
Proof.
  intros -> Hnc Hfirst H. unfold collate_batch in H.
  pose proof (dict_find_key _ _ _ Hfirst) as Hin.
  pose proof (other_keys_apart _ _ Hnc Hin) as Hapart.
  destruct (collate_keys_each _ _ _ _ H field Hin) as (r1 & r2 & Hstep).
  unfold collate_key in Hstep.
  apply bind_Ok in Hstep. destruct Hstep as (ls & Hls & _).
  change (tensors_of (first :: rest) field = Ok ls) in Hls.
  assert (Hhead : exists ls', ls = PlainV s :: ls').
  { unfold tensors_of in Hls. cbn [mapM] in Hls.
    apply bind_Ok in Hls. destruct Hls as (l & Hl & Hls).
    apply bind_Ok in Hls. destruct Hls as (ls' & _ & Hls). injection Hls as <-.
    unfold dict_get in Hl. rewrite Hfirst in Hl. cbn [bind create_tensor] in Hl.
    injection Hl as <-. eauto. }
  destruct Hhead as (ls' & Hhead).
  assert (Hset : forall r1 r2, collate_key float_zero (first :: rest) r1 field = Ok r2 ->
                               r2 = dict_set r1 field (CList ls)).
  { intros r1' r2' Hs. rewrite (collate_key_plain _ _ r1' ls ls' s Hls Hhead) in Hs.
    injection Hs as <-. reflexivity. }
  exists ls. split; [exact Hls|]. split; [exact (mapM_length _ _ _ Hls)|]. split.
  - eapply (collate_keys_lookup float float_zero (first :: rest) field);
      [| |exact H|left; exact Hin].
    + intros r1' r2' Hs. rewrite (Hset _ _ Hs). apply dict_find_set_same.
    + intros key Hk Hne. exact (proj1 (Hapart key Hk Hne)).
  - intros i.
    apply (fun Hk => collate_keys_frame (first :: rest) (size_key field i) _ _ _ Hk H).
    intros key Hk r1' r2' Hs.
    destruct (string_dec key field) as [->|Hne].
    + rewrite (Hset _ _ Hs). apply dict_find_set_other.
      intros Heq. apply (Hnc field field i Hin Hin). symmetry. exact Heq.
    + destruct (proj2 (Hapart key Hk Hne) i) as (H1 & H2).
      exact (collate_key_frame float float_zero _ _ _ _ _ Hs H1 H2).
Qed.

Lemma stack_value (key : string) (first : record float) (rest : list (record float)) :
  all_have key stackable (first :: rest) = true ->
  let d := fold_left promote_types (map (fun r => t_dtype (field_tensor key r)) rest)
             (t_dtype (field_tensor key first)) in
  stack (map (fun r => TensorV (field_tensor key r)) (first :: rest))
  = Ok (mk_Tensor d [List.length (first :: rest)]
          (Rows (map (fun r => to_dtype (t_dtype (field_tensor key r)) d
                                 (t_data (field_tensor key r))) (first :: rest)))).
Proof.
  intros Hall d. unfold stack. rewrite mapM_map.
  rewrite (mapM_total _ (field_tensor key) (first :: rest)) by (intros; reflexivity).
  cbn [bind map].
  assert (Hf : forallb (fun t => if list_eq_dec Nat.eq_dec (size t)
                                      (size (field_tensor key first))
                                 then true else false)
                 (field_tensor key first :: map (field_tensor key) rest) = true).
  { apply forallb_forall. intros t Ht.
    change (In t (map (field_tensor key) (first :: rest))) in Ht.
    apply in_map_iff in Ht. destruct Ht as (r & <- & Hr).
    rewrite (stackable_size float key _ r Hall Hr).
    rewrite (stackable_size float key _ first Hall (or_introl eq_refl)).
    destruct (list_eq_dec Nat.eq_dec (@nil nat) []); [reflexivity | contradiction]. }
  rewrite Hf.
  rewrite (stackable_size float key _ first Hall (or_introl eq_refl)).
  cbn [List.length map]. rewrite length_map, !map_map. reflexivity.
Qed.

(** A step of the loop that succeeds on a first value without axes had
    values without axes in all records. *)
Lemma stacked_step_needs_stackable (first : record float) (rest : list (record float))
    (field : string) (a0 : ndarray float) (r1 r2 : dict (collated float)) :
  dict_find first field = Some (Array a0) ->
  shape a0 = [] ->
  collate_key float_zero (first :: rest) r1 field = Ok r2 ->
  all_have field stackable (first :: rest) = true.
Proof.
  intros Hfirst Hshape Hstep. unfold collate_key in Hstep.
  apply bind_Ok in Hstep. destruct Hstep as (ls & Hls & Hstep).
  pose proof (mapM_Forall2 _ _ _ Hls) as HF.
  assert (Hhead : exists t0 ls', ls = TensorV t0 :: ls' /\ size t0 = []).
  { inversion HF as [|x y l l' Hxy HF' E1 E2]; subst.
    unfold dict_get in Hxy. rewrite Hfirst in Hxy. cbn [bind create_tensor] in Hxy.
    destruct (dtype a0); try discriminate; injection Hxy as <-;
      eexists; eexists; (split; [reflexivity|]); exact Hshape. }
  destruct Hhead as (t0 & ls' & -> & Hsize).
  apply bind_Ok in Hstep. destruct Hstep as (pr & Hpr & _).
  rewrite Hsize in Hpr. cbn [List.length Nat.ltb Nat.leb] in Hpr.
  apply bind_Ok in Hpr. destruct Hpr as (padded & Hstack & _).
  unfold stack in Hstack.
  apply bind_Ok in Hstack. destruct Hstack as (ts & Hts & Hstack).
  pose proof (mapM_Forall2 _ _ _ Hts) as HT.
  assert (Hts0 : exists ts', ts = t0 :: ts').
  { inversion HT as [|x y l l' Hxy HT' E1 E2]; subst.
    injection Hxy as <-. eauto. }
  destruct Hts0 as (ts' & ->).
  destruct (forallb (fun t => if list_eq_dec Nat.eq_dec (size t) (size t0)
                              then true else false) (t0 :: ts')) eqn:Hall;
    [|discriminate].
  rewrite forallb_forall in Hall.
  unfold all_have. apply forallb_forall. intros r Hr.
  destruct (Forall2_In_l _ _ _ r HF Hr) as (l & Hl & Hrl).
  destruct (Forall2_In_l _ _ _ l HT Hl) as (t & Ht & Hlt).
  specialize (Hall t Ht).
  destruct (list_eq_dec Nat.eq_dec (size t) (size t0)) as [Heq|]; [|discriminate].
  rewrite Hsize in Heq.
  unfold dict_get in Hrl. destruct (dict_find r field) as [v|]; [|discriminate].
  cbn [bind] in Hrl. destruct l as [t'|s']; [|discriminate].
  injection Hlt as ->.
  destruct v as [a|s]; [|discriminate]. unfold create_tensor in Hrl.
  unfold stackable, to_torch.
  destruct (dtype a); try discriminate; injection Hrl as <-;
    cbn [size] in Heq; rewrite Heq; reflexivity.
Qed.

(** X20. Arrays without axes are stacked, not padded: when [collate_batch]
    accepts a batch in whose first record a field is a 0-d array, that field
    is a 0-d array in every record; its entry is the tensor of shape
    [[len(batch)]] of these values in the order of the batch, in the dtype
    the dtypes of the records promote to, each value converted to it;
    [<field>:size0] is the number of records, and there is no other size
    entry for it. *)
Theorem zero_dim_arrays_are_stacked (batch : list (record float))
    (first : record float) (rest : list (record float)) (field : string)
    (a0 : ndarray float) (res : dict (collated float)) :
  batch = first :: rest ->
  no_collision (keys first) ->
  dict_find first field = Some (Array a0) ->
  shape a0 = [] ->
  collate_batch float_zero batch = Ok res ->
  let d := fold_left promote_types (map (fun r => t_dtype (field_tensor field r)) rest)
             (t_dtype (field_tensor field first)) in
  all_have field stackable batch = true
  /\ dict_find res field
     = Some (CTensor (mk_Tensor d [List.length batch]
                        (Rows (map (fun r => to_dtype (t_dtype (field_tensor field r)) d
                                               (t_data (field_tensor field r)))
                                   batch))))
  /\ dict_find res (size_key field 0)
     = Some (CTensor (tensor_of_int (List.length batch)))
  /\ forall i, dict_find res (size_key field (S i)) = None.
Proof.
  intros -> Hnc Hfirst Hshape H d. unfold collate_batch in H.
  pose proof (dict_find_key _ _ _ Hfirst) as Hin.
  pose proof (other_keys_apart _ _ Hnc Hin) as Hapart.
  assert (Hself : forall i, field <> size_key field i).
  { intros i. apply Hnc; assumption. }
  destruct (collate_keys_each _ _ _ _ H field Hin) as (r1 & r2 & Hstep).
  pose proof (stacked_step_needs_stackable _ _ _ _ _ _ Hfirst Hshape Hstep) as Hall.
  clear r1 r2 Hstep.
  pose proof (tensors_of_arrays float field stackable (first :: rest)
                (array_kinds float stackable (or_introl eq_refl)) Hall) as Hls.
  assert (Hset : forall r1 r2,
             collate_key float_zero (first :: rest) r1 field = Ok r2 ->
             r2 = dict_set
                    (dict_set r1 field
                       (CTensor (mk_Tensor d [List.length (first :: rest)]
                                   (Rows (map (fun r => to_dtype
                                                          (t_dtype (field_tensor field r))
                                                          d (t_data (field_tensor field r)))
                                              (first :: rest))))))
                    (size_key field 0)
                    (CTensor (tensor_of_int (List.length (first :: rest))))).
  { intros r1 r2 Hs.
    rewrite (collate_key_tensor float float_zero _ _ r1 _
               (map (fun r => TensorV (field_tensor field r)) rest)
               (field_tensor field first) Hls eq_refl) in Hs.
    rewrite (stackable_size float field _ first Hall (or_introl eq_refl)) in Hs.
    cbn [List.length Nat.ltb Nat.leb] in Hs.
    rewrite (stack_value field first rest Hall) in Hs.
    cbn [bind fst snd] in Hs. injection Hs as <-.
    rewrite length_map. reflexivity. }
  split; [exact Hall|]. split; [|split].
  - eapply (collate_keys_lookup float float_zero (first :: rest) field);
      [| |exact H|left; exact Hin].
    + intros r1 r2 Hs. rewrite (Hset _ _ Hs).
      rewrite dict_find_set_other by apply Hself. apply dict_find_set_same.
    + intros key Hk Hne. exact (proj1 (Hapart key Hk Hne)).
  - eapply (collate_keys_lookup float float_zero (first :: rest) field);
      [| |exact H|left; exact Hin].
    + intros r1 r2 Hs. rewrite (Hset _ _ Hs). apply dict_find_set_same.
    + intros key Hk Hne. exact (proj2 (Hapart key Hk Hne) 0%nat).
  - intros i.
    apply (fun Hk => collate_keys_frame (first :: rest) (size_key field (S i)) _ _ _ Hk H).
    intros key Hk r1 r2 Hs.
    destruct (string_dec key field) as [->|Hne].
    + rewrite (Hset _ _ Hs).
      rewrite dict_find_set_other
        by (intros Heq; apply size_key_inj in Heq; destruct Heq; discriminate).
      apply dict_find_set_other.
      intros Heq. apply (Hself (S i)). symmetry. exact Heq.
    + destruct (proj2 (Hapart key Hk Hne) (S i)) as (H1 & H2).
      exact (collate_key_frame float float_zero _ _ _ _ _ Hs H1 H2).
Qed.

Lemma set_sizes_lookup (key : string) (ls : list (OutputType float)) :
  forall (axes : list nat) (res res' : dict (collated float)),
    NoDup axes ->
    set_sizes res key ls axes = Ok res' ->
    forall i, In i axes ->
      exists sizes,
        mapM (fun v => shape_at v i) ls = Ok sizes
        /\ dict_find res' (size_key key (i + 1))
           = Some (CTensor (tensor_of_ints sizes)).
Proof.
  induction axes as [|i0 axes IH]; intros res res' Hnd H i Hi; [contradiction|].
  cbn [set_sizes] in H. apply bind_Ok in H. destruct H as (sizes & Hsizes & H).
  inversion Hnd as [|x l Hnotin Hnd']; subst.
  destruct Hi as [<-|Hi]; [|exact (IH _ _ Hnd' H i Hi)].
  exists sizes. split; [exact Hsizes|].
  rewrite (set_sizes_frame float key (size_key key (i0 + 1)) ls axes _ _ H).
  - apply dict_find_set_same.
  - intros j Hj Heq. apply size_key_inj in Heq. destruct Heq as (_ & Heq).
    apply Hnotin. replace i0 with j by lia. exact Hj.
Qed.

(** The extents along axis [i] of the tensors made of a field are those of
    the records' arrays, which all have the axis. *)
Lemma tensors_of_extent_at (field : string) (i : nat) :
  forall (batch : list (record float)) (ls : list (OutputType float)) (sizes : list nat),
    tensors_of batch field = Ok ls ->
    mapM (fun v => shape_at v i) ls = Ok sizes ->
    sizes = map (extent_at field i) batch
    /\ forall r, In r batch ->
         exists a, dict_find r field = Some (Array a) /\ (i < List.length (shape a))%nat.
Proof.
  unfold tensors_of.
  induction batch as [|r batch IH]; intros ls sizes Hls Hsz; cbn [mapM] in Hls.
  - injection Hls as <-. injection Hsz as <-. split; [reflexivity | intros r []].
  - apply bind_Ok in Hls. destruct Hls as (l & Hl & Hls).
    apply bind_Ok in Hls. destruct Hls as (ls' & Hls' & Hls). injection Hls as <-.
    cbn [mapM] in Hsz.
    apply bind_Ok in Hsz. destruct Hsz as (n & Hn & Hsz).
    apply bind_Ok in Hsz. destruct Hsz as (sizes' & Hsz' & Hsz). injection Hsz as <-.
    destruct (IH _ _ Hls' Hsz') as (IH1 & IH2).
    apply bind_Ok in Hl. destruct Hl as (v & Hv & Hl).
    unfold dict_get in Hv.
    destruct (dict_find r field) as [v'|] eqn:Hfind; [|discriminate].
    injection Hv as ->.
    assert (Hv : exists a, v = Array a /\ nth_error (shape a) i = Some n).
    { destruct v as [a|sc]; cbn [create_tensor] in Hl.
      - exists a. split; [reflexivity|].
        destruct (dtype a); try discriminate; injection Hl as <-;
          cbn [shape_at size] in Hn; unfold list_index in Hn;
          destruct (nth_error (shape a) i); try discriminate;
          injection Hn as <-; reflexivity.
      - injection Hl as <-. discriminate. }
    destruct Hv as (a & -> & Hnth).
    split.
    + cbn [map]. f_equal; [|exact IH1].
      unfold extent_at. rewrite Hfind.
      symmetry. exact (nth_error_nth (shape a) i 0%nat Hnth).
    + intros r' [<-|Hr']; [|exact (IH2 r' Hr')].
      exists a. split; [exact Hfind|].
      apply nth_error_Some. rewrite Hnth. discriminate.
Qed.

Lemma collate_key_axis (first : record float) (rest : list (record float))
    (field : string) (a0 : ndarray float) (i : nat) (res res' : dict (collated float)) :
  dict_find first field = Some (Array a0) ->
  (i < List.length (shape a0))%nat ->
  (forall j, field <> size_key field j) ->
  collate_key float_zero (first :: rest) res field = Ok res' ->
  dict_find res' (size_key field (i + 1))
  = Some (CTensor (tensor_of_ints (map (extent_at field i) (first :: rest))))
  /\ forall r, In r (first :: rest) ->
       exists a, dict_find r field = Some (Array a) /\ (i < List.length (shape a))%nat.
Proof.
  intros Hfirst Hi Hself H. unfold collate_key in H.
  apply bind_Ok in H. destruct H as (ls & Hls & H).
  assert (Hhead : exists t0 ls', ls = TensorV t0 :: ls' /\ size t0 = shape a0).
  { cbn [mapM] in Hls.
    apply bind_Ok in Hls. destruct Hls as (l & Hl & Hls).
    apply bind_Ok in Hls. destruct Hls as (ls' & _ & Hls). injection Hls as <-.
    unfold dict_get in Hl. rewrite Hfirst in Hl. cbn [bind create_tensor] in Hl.
    destruct (dtype a0); try discriminate; injection Hl as <-;
      eexists; eexists; split; reflexivity. }
  destruct Hhead as (t0 & ls' & -> & Hsize).
  apply bind_Ok in H. destruct H as ([padded res1] & Hr & H).
  injection H as <-.
  rewrite Hsize in Hr.
  destruct (Nat.ltb_spec 0 (List.length (shape a0))) as [_|Hlt]; [|lia].
  apply bind_Ok in Hr. destruct Hr as (p & _ & Hr).
  apply bind_Ok in Hr. destruct Hr as (res2 & Hset & Hr).
  injection Hr as _ <-.
  destruct (set_sizes_lookup field _ _ _ _ (seq_NoDup _ _) Hset i) as (sizes & Hsizes & Hfind);
    [apply in_seq; lia|].
  destruct (tensors_of_extent_at field i _ _ _ Hls Hsizes) as (-> & Hall).
  split; [|exact Hall].
  rewrite dict_find_set_other
    by (intros Heq; apply size_key_inj in Heq; destruct Heq; lia).
  rewrite dict_find_set_other by (intros Heq; apply (Hself (i + 1)%nat); symmetry; exact Heq).
  exact Hfind.
Qed.

(** X21. The size entries of the other axes: for a field that is an array
    in the first record and for every axis [i] of that array,
    [<field>:size<i+1>] holds the extents along axis [i] of the records'
    arrays, in the order of the batch; every record's array has that
    axis. *)
Theorem size_entries_of_all_axes (batch : list (record float))
    (first : record float) (rest : list (record float)) (field : string)
    (a0 : ndarray float) (i : nat) (res : dict (collated float)) :
  batch = first :: rest ->
  no_collision (keys first) ->
  dict_find first field = Some (Array a0) ->
  (i < List.length (shape a0))%nat ->
  collate_batch float_zero batch = Ok res ->
  dict_find res (size_key field (i + 1))
  = Some (CTensor (tensor_of_ints (map (extent_at field i) batch)))
  /\ forall r, In r batch ->
       exists a, dict_find r field = Some (Array a) /\ (i < List.length (shape a))%nat.
Proof.
  intros -> Hnc Hfirst Hi H. unfold collate_batch in H.
  pose proof (dict_find_key _ _ _ Hfirst) as Hin.
  pose proof (other_keys_apart _ _ Hnc Hin) as Hapart.
  assert (Hself : forall j, field <> size_key field j).
  { intros j. apply Hnc; assumption. }
  split.
  - eapply (collate_keys_lookup float float_zero (first :: rest) field);
      [| |exact H|left; exact Hin].
    + intros r1 r2 Hs.
      exact (proj1 (collate_key_axis _ _ _ _ _ _ _ Hfirst Hi Hself Hs)).
    + intros key Hk Hne. exact (proj2 (Hapart key Hk Hne) (i + 1)%nat).
  - destruct (collate_keys_each _ _ _ _ H field Hin) as (r1 & r2 & Hs).
    exact (proj2 (collate_key_axis _ _ _ _ _ _ _ Hfirst Hi Hself Hs)).
Qed.

End FurtherCollation.

(** ** Batching: why a batch is closed *)

Section GreedyBatching.

Variable float : Type.
Variable self : BatchingIterDataPipe float.
Hypothesis budget_positive :
  forall b, In b (NumbersDict.values (_max_batch_size self)) -> (0 < b)%Z.

(** The two ways the loop body can go: the current batch is yielded, for
    one of two reasons, and the record starts the next one; or nothing is
    yielded and the record joins the current batch. *)
Lemma batcher_step_cases (st : batcher_state float) (r : record float) :
  invariant self st ->
  (fst (batcher_step self st r) = [current_batch st]
   /\ current_batch (snd (batcher_step self st r)) = [r]
   /\ (Z.of_nat (List.length (current_batch st)) = _max_seqs self
       \/ exists f budget,
            NumbersDict.get (_max_batch_size self) f = Some budget
            /\ (budget < Z.max (max_length_in_batch f (current_batch st))
                               (field_length r f)
                         * (Z.of_nat (List.length (current_batch st)) + 1))%Z))
  \/ (fst (batcher_step self st r) = []
      /\ current_batch (snd (batcher_step self st r)) = current_batch st ++ [r]).
Proof.
  intros Hinv. unfold batcher_step, flush_if_full.
  destruct (Z.eqb_spec (Z.of_nat (List.length (current_batch st))) (_max_seqs self))
    as [Heq|Hne].
  - left. unfold budget_step.
    cbn [initial_state current_batch List.length Nat.eqb negb andb fst snd app].
    split; [reflexivity|]. split; [reflexivity|]. left. exact Heq.
  - unfold budget_step.
    destruct (negb (Nat.eqb (List.length (current_batch st)) 0)
              && NumbersDict.any_compare (batch_size_if_included st r)
                   (_max_batch_size self) Z.gtb) eqn:Hc;
      cbn [fst snd app current_batch].
    + left. split; [reflexivity|]. split; [reflexivity|]. right.
      apply andb_prop in Hc. destruct Hc as (_ & Hcmp).
      exact (over_budget_iff float self budget_positive st r Hinv Hcmp).
    + right. split; reflexivity.
Qed.

Lemma batcher_loop_chain (dataset : list (record float)) :
  forall st, invariant self st ->
    exists b0 B,
      fst (batcher_loop self st dataset)
      ++ [current_batch (snd (batcher_loop self st dataset))] = b0 :: B
      /\ (exists tail, b0 = current_batch st ++ tail)
      /\ forall pre b1 b2 post,
           b0 :: B = pre ++ b1 :: b2 :: post ->
           exists r b2',
             b2 = r :: b2'
             /\ (Z.of_nat (List.length b1) = _max_seqs self
                 \/ exists f budget,
                      NumbersDict.get (_max_batch_size self) f = Some budget
                      /\ (budget < Z.max (max_length_in_batch f b1) (field_length r f)
                                   * (Z.of_nat (List.length b1) + 1))%Z).
Proof.
  induction dataset as [|r rest IH]; intros st Hinv; cbn [batcher_loop].
  - cbn [fst snd app]. exists (current_batch st), [].
    split; [reflexivity|]. split; [exists []; rewrite app_nil_r; reflexivity|].
    intros pre b1 b2 post H. apply (f_equal (@List.length _)) in H.
    rewrite length_app in H. cbn [List.length] in H. lia.
  - pose proof (batcher_step_cases st r Hinv) as Hcases.
    pose proof (proj1 (batcher_step_invariant float self budget_positive st r Hinv))
      as Hinv1.
    destruct (batcher_step self st r) as [out st1]. cbn [fst snd] in *.
    destruct (IH st1 Hinv1) as (b0 & B & HB & (tail & Hb0) & Hadj).
    destruct (batcher_loop self st1 rest) as [outs st2]. cbn [fst snd] in *.
    destruct Hcases as [(-> & Hcur & Hreason)|(-> & Hcur)].
    + exists (current_batch st), (b0 :: B).
      split; [rewrite <- app_assoc, HB; reflexivity|].
      split; [exists []; rewrite app_nil_r; reflexivity|].
      intros pre b1 b2 post H.
      destruct pre as [|x pre]; cbn [app] in H.
      * injection H as <- <- _. exists r, tail.
        split; [rewrite Hb0, Hcur; reflexivity | exact Hreason].
      * injection H as _ H. exact (Hadj pre b1 b2 post H).
    + exists b0, B. split; [exact HB|].
      split; [exists (r :: tail); rewrite Hb0, Hcur, <- app_assoc; reflexivity|].
      exact Hadj.
Qed.

End GreedyBatching.

Section GreedyBatchingIter.

Variable float : Type.

(** X22. The batcher is greedy: a batch that is followed by another one was
    closed because it had [max_seqs] records, or because with the first
    record of the next batch the padded size of a field, the largest length
    times the number of records, would have exceeded the limit of that
    field. *)
Theorem batches_close_for_a_reason (dataset : list (record float))
    (batch_size : size_spec) (max_seqs : option Z) (drop_last : bool)
    (self : BatchingIterDataPipe float)
    (pre post : list (list (record float))) (b1 b2 : list (record float)) :
  BatchingIterDataPipe_init dataset batch_size max_seqs drop_last = Ok self ->
  BatchingIterDataPipe_iter self = pre ++ b1 :: b2 :: post ->
  exists r b2',
    b2 = r :: b2'
    /\ (Z.of_nat (List.length b1) = _max_seqs self
        \/ exists f budget,
             NumbersDict.get (_max_batch_size self) f = Some budget
             /\ (budget < Z.max (max_length_in_batch f b1) (field_length r f)
                          * (Z.of_nat (List.length b1) + 1))%Z).
Proof.
  intros Hinit Hiter.
  destruct (batching_init_spec float _ _ _ _ _ Hinit) as (_ & _ & _ & Hpos & _ & _).
  destruct (batcher_loop_chain float self Hpos (_dataset self) initial_state
              (invariant_initial float self)) as (b0 & B & HB & _ & Hadj).
  unfold BatchingIterDataPipe_iter in Hiter.
  destruct (batcher_loop self initial_state (_dataset self)) as [out st].
  cbn [fst snd] in HB.
  destruct (negb (Nat.eqb (List.length (current_batch st)) 0) && negb (_drop_last self)).
  - apply (Hadj pre b1 b2 post). rewrite <- HB. exact Hiter.
  - apply (Hadj pre b1 b2 (post ++ [current_batch st])). rewrite <- HB, Hiter.
    rewrite <- app_assoc. reflexivity.
Qed.

End GreedyBatchingIter.

(** ** Batching and collation together *)

Section BatchingThenCollation.

Variable float : Type.
Variable float_zero : float.

(** For arrays with an axis, the length the batcher counts is the leading
    extent that [collate_batch] pads to. *)
Lemma max_length_is_max_extent (field : string) (trailing : list nat)
    (batch : list (record float)) :
  all_have field (paddable trailing) batch = true ->
  max_length_in_batch field batch
  = Z.of_nat (list_max (map (leading_extent field) batch)).
Proof.
  induction batch as [|r batch IH]; intros Hall; [reflexivity|].
  cbn [max_length_in_batch fold_right map list_max].
  change (fold_right (fun r m => Z.max (field_length r field) m) 0%Z batch)
    with (max_length_in_batch field batch).
  unfold all_have in Hall. cbn [forallb] in Hall.
  apply andb_prop in Hall. destruct Hall as (Hr & Hall).
  rewrite (IH Hall), Nat2Z.inj_max. f_equal.
  unfold field_length, leading_extent.
  destruct (dict_find r field) as [[a|s]|]; try discriminate.
  unfold paddable in Hr. unfold seq_length.
  destruct (to_torch (dtype a)); [|discriminate].
  destruct (shape a) as [|n tr]; [discriminate | reflexivity].
Qed.

Lemma padded_entry_shape (first : record float) (rest : list (record float))
    (field : string) (a0 : ndarray float) (n0 : nat) (trailing : list nat)
    (res : dict (collated float)) :
  no_collision (keys first) ->
  dict_find first field = Some (Array a0) ->
  shape a0 = n0 :: trailing ->
  all_have field (paddable trailing) (first :: rest) = true ->
  collate_batch float_zero (first :: rest) = Ok res ->
  exists t, dict_find res field = Some (CTensor t)
            /\ size t = List.length (first :: rest)
                        :: list_max (map (leading_extent field) (first :: rest))
                        :: trailing.
Proof.
  intros Hnc Hfirst Hshape Hc Hres.
  pose proof (dict_find_key _ _ _ Hfirst) as Hin.
  pose proof (other_keys_apart _ _ Hnc Hin) as Hapart.
  assert (Hs0 : size (field_tensor field first) = n0 :: trailing).
  { unfold field_tensor. rewrite Hfirst. exact Hshape. }
  pose proof (tensors_of_arrays float field (paddable trailing) (first :: rest)
                (array_kinds float _ (or_intror (ex_intro _ trailing eq_refl))) Hc) as Hls.
  exists (mk_Tensor (t_dtype (field_tensor field first))
            (List.length (first :: rest)
             :: list_max (map (leading_extent field) (first :: rest)) :: trailing)
            (Rows (map (fun r => Rows (padded_rows
                                         (t_dtype (field_tensor field first))
                                         (zero_of float_zero
                                            (t_dtype (field_tensor field first)))
                                         (list_max (map (leading_extent field)
                                                        (first :: rest)))
                                         trailing field r)) (first :: rest)))).
  split; [|reflexivity].
  eapply (collate_keys_lookup float float_zero (first :: rest) field field);
    [| |exact Hres|left; exact Hin].
  - intros res0 res1 Hstep.
    rewrite (collate_key_tensor float float_zero _ _ res0 _ _ _ Hls eq_refl) in Hstep.
    rewrite Hs0 in Hstep. cbn [List.length Nat.ltb Nat.leb] in Hstep.
    rewrite (pad_sequence_paddable float float_zero field first rest n0 trailing Hs0 Hc)
      in Hstep.
    cbn [bind] in Hstep.
    apply bind_Ok in Hstep. destruct Hstep as ([p r2] & Hr & Hstep).
    apply bind_Ok in Hr. destruct Hr as (res2 & _ & Hr).
    injection Hr as <- <-. injection Hstep as <-. cbn [fst snd].
    rewrite dict_find_set_other by (apply Hnc; assumption).
    rewrite dict_find_set_same. reflexivity.
  - intros key Hk Hne. exact (proj1 (Hapart key Hk Hne)).
Qed.

(** X23. What the limits of the batcher are for: a batch of two or more
    records that the batcher yields, collated, has for a field with a limit
    (arrays with one trailing shape) a tensor whose first two extents, the
    number of records and the padded length, multiply to at most the
    limit. *)
Theorem collated_batches_fit_the_budget (dataset : list (record float))
    (batch_size : size_spec) (max_seqs : option Z) (drop_last : bool)
    (self : BatchingIterDataPipe float) (batch : list (record float))
    (first : record float) (rest : list (record float)) (field : string)
    (a0 : ndarray float) (n0 : nat) (trailing : list nat) (budget : Z)
    (res : dict (collated float)) :
  BatchingIterDataPipe_init dataset batch_size max_seqs drop_last = Ok self ->
  In batch (BatchingIterDataPipe_iter self) ->
  (2 <= List.length batch)%nat ->
  NumbersDict.get (_max_batch_size self) field = Some budget ->
  batch = first :: rest ->
  no_collision (keys first) ->
  dict_find first field = Some (Array a0) ->
  shape a0 = n0 :: trailing ->
  all_have field (paddable trailing) batch = true ->
  collate_batch float_zero batch = Ok res ->
  exists t B M,
    dict_find res field = Some (CTensor t)
    /\ size t = B :: M :: trailing
    /\ B = List.length batch
    /\ (Z.of_nat B * Z.of_nat M <= budget)%Z.
Proof.
  intros Hinit Hin Hlen Hbudget -> Hnc Hfirst Hshape Hc Hres.
  destruct (batching_init_spec float _ _ _ _ _ Hinit) as (_ & _ & _ & Hpos & _ & _).
  pose proof (iter_good float self Hpos) as Hgood. rewrite Forall_forall in Hgood.
  pose proof (Hgood _ Hin Hlen field budget Hbudget) as Hfit.
  destruct (padded_entry_shape first rest field a0 n0 trailing res
              Hnc Hfirst Hshape Hc Hres) as (t & Ht & Hsize).
  exists t, (List.length (first :: rest)),
    (list_max (map (leading_extent field) (first :: rest))).
  split; [exact Ht|]. split; [exact Hsize|]. split; [reflexivity|].
  rewrite (max_length_is_max_extent field trailing _ Hc) in Hfit. lia.
Qed.

End BatchingThenCollation.

(* ------------------------------------------------------------------ *)
(** * Worked examples of the further properties *)

Open Scope string_scope.

Lemma batches_nonempty_and_capped_witness :
  [x3] <> [] /\ (Z.of_nat (List.length [x3]) <= seqs_of (Some 10%Z))%Z.
Proof.
  apply (batches_nonempty_and_capped unit [x3; x2] (SpecInt 3) (Some 10%Z) false
           (batcher [x3; x2] (NumbersDict.of_int 3) false) [x3]).
  - reflexivity.
  - vm_compute. left. reflexivity.
Defined.

Lemma fitting_source_is_one_batch_witness :
  BatchingIterDataPipe_iter (batcher [x3; x2] (NumbersDict.of_int 6) false) = [[x3; x2]].
Proof.
  apply (fitting_source_is_one_batch unit [x3; x2] (SpecInt 6) (Some 10%Z)
           (batcher [x3; x2] (NumbersDict.of_int 6) false) eq_refl).
  - discriminate.
  - intros f b Hb. vm_compute in Hb. injection Hb as <-.
    unfold max_length_in_batch, field_length, x3, x2. cbn [fold_right dict_find].
    destruct (String.eqb "x" f); vm_compute; discriminate.
  - vm_compute. discriminate.
Defined.

Lemma limit_one_gives_singletons_witness :
  BatchingIterDataPipe_iter (batcher [x3; x2] (NumbersDict.of_int 1) false)
  = map (fun r => [r]) [x3; x2].
Proof.
  apply (limit_one_gives_singletons unit [x3; x2] (Some 10%Z)
           (batcher [x3; x2] (NumbersDict.of_int 1) false) eq_refl).
  intros r [<-|[<-|[]]]; exists "x"; vm_compute; discriminate.
Defined.

Lemma window_rows_come_from_source_witness :
  (forall i, (i < Z.to_nat 3)%nat ->
     nth_error (array_rows (vector [2; 3; 4]%Z)) i
     = nth_error (ints [0; 1; 2; 3; 4; 5; 6]%Z) (1 * Z.to_nat 2 + i))
  /\ (List.length (array_rows (vector [2; 3; 4]%Z)) <= Z.to_nat 3)%nat
  /\ (1 * Z.to_nat 2 + List.length (array_rows (vector [2; 3; 4]%Z))
      <= List.length (ints [0; 1; 2; 3; 4; 5; 6]%Z))%nat
  /\ exists a', vector [2; 3; 4]%Z = Array a'
                /\ dtype a' = dtype (vec [0; 1; 2; 3; 4; 5; 6]%Z)
                /\ rows_agree a' [] (array_rows (vector [2; 3; 4]%Z)).
Proof.
  apply (window_rows_come_from_source unit (vec [0; 1; 2; 3; 4; 5; 6]%Z) []
           (ints [0; 1; 2; 3; 4; 5; 6]%Z) 3 2
           [vector [0; 1; 2]%Z; vector [2; 3; 4]%Z; vector [4; 5; 6]%Z; vector [6]%Z]
           1 (vector [2; 3; 4]%Z)).
  - split; reflexivity.
  - reflexivity.
  - reflexivity.
  - reflexivity.
  - reflexivity.
Defined.

Lemma nonoverlapping_windows_join_to_source_witness :
  List.concat (map (@array_rows unit)
                 [vector [0; 1; 2]%Z; vector [3; 4; 5]%Z; vector [6]%Z])
  = ints [0; 1; 2; 3; 4; 5; 6]%Z.
Proof.
  apply (nonoverlapping_windows_join_to_source unit (vec [0; 1; 2; 3; 4; 5; 6]%Z) []
           (ints [0; 1; 2; 3; 4; 5; 6]%Z) 3
           [vector [0; 1; 2]%Z; vector [3; 4; 5]%Z; vector [6]%Z]).
  - split; reflexivity.
  - reflexivity.
  - reflexivity.
Defined.

Lemma lookups_of_keys_in_force_witness :
  exists cs st starts,
    NumbersDict.getitem (NumbersDict.of_dict [("x", 3%Z)]) "x" = Ok cs
    /\ NumbersDict.getitem (NumbersDict.of_dict [("x", 2%Z)]) "x" = Ok st
    /\ (0 < cs)%Z /\ (0 < st)%Z
    /\ forall stop, py_range0 stop st = Ok (starts stop).
Proof.
  apply (proj2 (lookups_of_keys_in_force unit [x7]
                  (ChunkingPair (SpecDict [("x", 3%Z)]) (SpecDict [("x", 2%Z)]))
                  (mk_chunking [x7] (NumbersDict.of_dict [("x", 3%Z)])
                     (NumbersDict.of_dict [("x", 2%Z)]))
                  "x" eq_refl)).
  right. left. reflexivity.
Defined.

Lemma chunked_records_witness :
  snd no_seq_idx_chunks = None
  /\ (1 <= List.length (fst no_seq_idx_chunks))%nat
  /\ forall i r, nth_error (fst no_seq_idx_chunks) i = Some r ->
       (forall k, In k ["x"] ->
          exists chunks w,
            field_chunks (chunker [no_seq_idx] (NumbersDict.of_dict [("x", 4%Z)]))
              no_seq_idx k = Ok chunks
            /\ List.length chunks = List.length (fst no_seq_idx_chunks)
            /\ nth_error chunks i = Some w
            /\ dict_find r k = Some w)
       /\ (forall k, ~ In k ["x"] -> dict_find r k = dict_find no_seq_idx k).
Proof.
  apply (chunked_records unit (chunker [no_seq_idx] (NumbersDict.of_dict [("x", 4%Z)]))
           ["x"] ["x"] no_seq_idx no_seq_idx_chunks).
  - repeat constructor; simpl; intuition discriminate.
  - reflexivity.
Defined.

Lemma empty_sequence_stops_the_chunker_witness :
  ChunkingIterDataPipe_iter (chunker [x0] (NumbersDict.of_dict [("x", 3%Z)]))
  = ([], Some (AssertionError no_chunk_msg)).
Proof.
  apply (empty_sequence_stops_the_chunker unit (ChunkingOne (SpecDict [("x", 3%Z)]))
           (chunker [x0] (NumbersDict.of_dict [("x", 3%Z)])) x0 [] ["x"] eq_refl eq_refl).
  intros k [<-|[]]. eexists. split; reflexivity.
Defined.

Lemma chunker_yields_all_windows_witness :
  snd (ChunkingIterDataPipe_iter (chunker [x7; x3] (NumbersDict.of_dict [("x", 3%Z)])))
  = None
  /\ List.length
       (fst (ChunkingIterDataPipe_iter
               (chunker [x7; x3] (NumbersDict.of_dict [("x", 3%Z)]))))
     = list_sum (map x_windows [x7; x3]).
Proof.
  apply (chunker_yields_all_windows unit (ChunkingOne (SpecDict [("x", 3%Z)]))
           (chunker [x7; x3] (NumbersDict.of_dict [("x", 3%Z)])) x7 [x3] ["x"]
           x_windows eq_refl eq_refl).
  intros data_dict [<-|[<-|[]]]; (split; [vm_compute; lia|]);
    intros k [<-|[]]; eexists; split; reflexivity.
Defined.

Lemma collated_records_have_the_fields_witness :
  exists first rest,
    [x3; x2] = first :: rest
    /\ forall k, In k (keys first) ->
         (forall r, In r [x3; x2] ->
            exists v, dict_find r k = Some v /\ creatable v = true)
         /\ (forall a0, dict_find first k = Some (Array a0) ->
             forall r, In r [x3; x2] -> exists a, dict_find r k = Some (Array a)).
Proof.
  apply (collated_records_have_the_fields unit tt [x3; x2] collated_x3_x2).
  reflexivity.
Defined.

Lemma collated_keys_come_from_first_record_witness :
  (forall t, In t (keys collated_x3_x2) ->
     exists k, In k (keys x3) /\ (t = k \/ exists i, t = size_key k i))
  /\ (forall k, In k (keys x3) -> In k (keys collated_x3_x2)).
Proof.
  apply (collated_keys_come_from_first_record unit tt x3 [x2] collated_x3_x2).
  reflexivity.
Defined.

Lemma plain_fields_are_listed_witness :
  exists ls,
    tensors_of [only_reserved; only_reserved] "seq_tag" = Ok ls
    /\ List.length ls = List.length [only_reserved; only_reserved]
    /\ dict_find collated_reserved "seq_tag" = Some (CList ls)
    /\ forall i, dict_find collated_reserved (size_key "seq_tag" i) = None.
Proof.
  apply (plain_fields_are_listed unit tt [only_reserved; only_reserved]
           only_reserved [only_reserved] "seq_tag" (SStr "seq-0") collated_reserved).
  - reflexivity.
  - apply colon_free_no_collision. repeat constructor.
  - reflexivity.
  - reflexivity.
Defined.

Lemma zero_dim_arrays_are_stacked_witness :
  all_have "n" stackable [n5; n7] = true
  /\ dict_find collated_n5_n7 "n"
     = Some (CTensor (mk_Tensor int64 [2%nat]
                        (Rows [Elem (NInt 5%Z); Elem (NInt 7%Z)])))
  /\ dict_find collated_n5_n7 (size_key "n" 0)
     = Some (CTensor (tensor_of_int (List.length [n5; n7])))
  /\ forall i, dict_find collated_n5_n7 (size_key "n" (S i)) = None.
Proof.
  apply (zero_dim_arrays_are_stacked unit tt [n5; n7] n5 [n7] "n" (zero_dim int8 5)
           collated_n5_n7).
  - reflexivity.
  - apply colon_free_no_collision. repeat constructor.
  - reflexivity.
  - reflexivity.
  - reflexivity.
Defined.

Lemma size_entries_of_all_axes_witness :
  dict_find collated_wide2_wide2 (size_key "x" (1 + 1))
  = Some (CTensor (tensor_of_ints (map (extent_at "x" 1) [wide2; wide2])))
  /\ forall r, In r [wide2; wide2] ->
       exists a, dict_find r "x" = Some (Array a) /\ (1 < List.length (shape a))%nat.
Proof.
  apply (size_entries_of_all_axes unit tt [wide2; wide2] wide2 [wide2] "x"
           (mk_ndarray (np_same int64) [1%nat; 2%nat]
              (Rows [Rows [Elem (NInt 1%Z); Elem (NInt 2%Z)]]))
           1 collated_wide2_wide2).
  - reflexivity.
  - apply colon_free_no_collision. repeat constructor.
  - reflexivity.
  - simpl. lia.
  - reflexivity.
Defined.

Lemma chunked_record_requirements_witness :
  ["x"] <> []
  /\ forall k, In k ["x"] ->
       exists v L cs st,
         dict_find no_seq_idx k = Some v
         /\ py_len v = Ok L /\ (1 <= L)%nat
         /\ NumbersDict.getitem
              (_chunk_size (chunker [no_seq_idx] (NumbersDict.of_dict [("x", 4%Z)]))) k
            = Ok cs
         /\ NumbersDict.getitem
              (_chunk_step (chunker [no_seq_idx] (NumbersDict.of_dict [("x", 4%Z)]))) k
            = Ok st
         /\ (0 < st)%Z
         /\ List.length (fst no_seq_idx_chunks) = num_windows L st.
Proof.
  apply (chunked_record_requirements unit
           (chunker [no_seq_idx] (NumbersDict.of_dict [("x", 4%Z)]))
           ["x"] ["x"] no_seq_idx no_seq_idx_chunks).
  reflexivity.
Defined.

Lemma batches_close_for_a_reason_witness :
  exists r b2',
    [x2] = r :: b2'
    /\ (Z.of_nat (List.length [x3])
        = _max_seqs (batcher [x3; x2] (NumbersDict.of_int 3) false)
        \/ exists f budget,
             NumbersDict.get
               (_max_batch_size (batcher [x3; x2] (NumbersDict.of_int 3) false)) f
             = Some budget
             /\ (budget < Z.max (max_length_in_batch f [x3]) (field_length r f)
                          * (Z.of_nat (List.length [x3]) + 1))%Z).
Proof.
  apply (batches_close_for_a_reason unit [x3; x2] (SpecInt 3) (Some 10%Z) false
           (batcher [x3; x2] (NumbersDict.of_int 3) false) [] [] [x3] [x2]).
  - reflexivity.
  - reflexivity.
Defined.

Lemma collated_batches_fit_the_budget_witness :
  exists t B M,
    dict_find collated_x3_x2 "x" = Some (CTensor t)
    /\ size t = B :: M :: []
    /\ B = List.length [x3; x2]
    /\ (Z.of_nat B * Z.of_nat M <= 10)%Z.
Proof.
  apply (collated_batches_fit_the_budget unit tt [x3; x2] (SpecDict [("x", 10%Z)])
           (Some 10%Z) false
           (batcher [x3; x2] (NumbersDict.of_dict [("x", 10%Z)]) false)
           [x3; x2] x3 [x2] "x" (vec [1; 2; 3]%Z) 3 [] 10 collated_x3_x2).
  - reflexivity.
  - left. reflexivity.
  - simpl. lia.
  - reflexivity.
  - reflexivity.
  - apply colon_free_no_collision. repeat constructor.
  - reflexivity.
  - reflexivity.
  - reflexivity.
  - reflexivity.
Defined.

Lemma short_records_pass_unchanged_witness :
  exists r, ([x3], @None exn) = ([r], None)
            /\ forall k, dict_find r k = dict_find x3 k.
Proof.
  apply (short_records_pass_unchanged unit
           (chunker [x3] (NumbersDict.of_dict [("x", 4%Z)])) ["x"] ["x"] x3
           ([x3], None)).
  - repeat constructor. simpl. intuition.
  - reflexivity.
  - intros k [<-|[]].
    exists (vec [1; 2; 3]%Z), [], (ints [1; 2; 3]%Z), 4%Z, 4%Z.
    repeat split; try reflexivity; simpl; lia.
Defined.

